(** * Verification of the Singapore grid generator and the result deduplicator

    The development embeds two Python modules:

    - [singapore/dedup_results.py]: the streaming deduplicator ([dedup]),
      the derivation of its two-tier key, and [dedup] and [main] on the
      records of a file;
    - [singapore/generate_singapore_grid.py]: the ray-casting containment
      test ([point_in_polygon], [point_in_any_polygon]), the grid scan
      ([generate_grid]) and the command line ([main]).

    Python [str] values are sequences of Unicode code points, Python [float]
    values are IEEE 754 binary64 numbers ([SpecFloat] with [prec = 53] and
    [emax = 1024]), a [dict] is a [gmap], a [set] is a [gset]. *)

From Stdlib Require Import ZArith NArith List String Ascii Bool Lia.
From Stdlib Require Import SpecFloat.
From stdpp Require Import gmap list.

Local Open Scope N_scope.

(** ** Python strings *)

(** A Python [str] is a finite sequence of code points. *)
Abbreviation pystr := (list N).

(** Literals are written as Rocq strings and converted code point by code
    point. *)
Definition str (s : string) : pystr :=
  map N_of_ascii (list_ascii_of_string s).

(** [str.isspace] on one code point: the table [_PyUnicode_IsWhitespace]
    of CPython. *)
Definition py_isspace (c : N) : bool :=
  ((9 <=? c) && (c <=? 13)) || ((28 <=? c) && (c <=? 32)) ||
  (c =? 133) || (c =? 160) || (c =? 5760) ||
  ((8192 <=? c) && (c <=? 8202)) ||
  (c =? 8232) || (c =? 8233) || (c =? 8239) || (c =? 8287) || (c =? 12288).

Fixpoint py_lstrip (s : pystr) : pystr :=
  match s with
  | c :: s' => if py_isspace c then py_lstrip s' else s
  | [] => []
  end.

Definition py_rstrip (s : pystr) : pystr := rev (py_lstrip (rev s)).

(** [s.strip()] with no argument: leading and trailing whitespace removed. *)
Definition py_strip (s : pystr) : pystr := py_rstrip (py_lstrip s).

(** Truthiness of a string: non-empty. *)
Definition truthy (s : pystr) : bool :=
  match s with [] => false | _ => true end.

(** ** The deduplicator, [dedup_results.py] *)

Module Dedup.

(** A row produced by [csv.DictReader]: field name to field text, as in
    the data model. A line with fewer fields than the header, whose missing
    fields [DictReader] sets to [None], is outside this model: [strip] is
    then called on [None] and the pass ends with an exception, which
    [DedupFile.get_strip] and [DedupFile.row_key] model. What is stated
    over [row] holds of the passes that run to their end. *)
Abbreviation row := (gmap (list N) (list N)).

(** [row.get(k, "")] on a row whose values are texts. *)
Definition get (r : row) (k : pystr) : pystr := default [] (r !! k).

(** Lines 39-52 of [dedup]: the key of a row, [None] on the path that
    counts the row as key-less and continues. *)
Definition derive_key (r : row) : option pystr :=
  let data_id := py_strip (get r (str "data_id")) in
  if truthy data_id then
    Some (str "did:" ++ data_id)
  else
    let title := py_strip (get r (str "title")) in
    let lat := py_strip (get r (str "latitude")) in
    let lon := py_strip (get r (str "longitude")) in
    if truthy title && truthy lat && truthy lon then
      Some (str "tloc:" ++ title ++ str "|" ++ lat ++ str "|" ++ lon)
    else
      None.

(** The local variables of [dedup] that live across loop iterations. *)
Record state := State {
  seen : gset (list N);
  rows_total : nat;
  rows_kept : nat;
  rows_dup : nat;
  rows_no_key : nat;
  kept_rows : list row
}.

Definition init : state :=
  {| seen := ∅; rows_total := 0; rows_kept := 0; rows_dup := 0;
     rows_no_key := 0; kept_rows := [] |}.

(** One iteration of [for row in reader], lines 37-61. *)
Definition step (stats_only : bool) (st : state) (r : row) : state :=
  let st := {| seen := seen st; rows_total := S (rows_total st);
               rows_kept := rows_kept st; rows_dup := rows_dup st;
               rows_no_key := rows_no_key st; kept_rows := kept_rows st |} in
  match derive_key r with
  | None =>
      {| seen := seen st; rows_total := rows_total st;
         rows_kept := rows_kept st; rows_dup := rows_dup st;
         rows_no_key := S (rows_no_key st); kept_rows := kept_rows st |}
  | Some key =>
      if decide (key ∈ seen st) then
        {| seen := seen st; rows_total := rows_total st;
           rows_kept := rows_kept st; rows_dup := S (rows_dup st);
           rows_no_key := rows_no_key st; kept_rows := kept_rows st |}
      else
        {| seen := {[ key ]} ∪ seen st; rows_total := rows_total st;
           rows_kept := S (rows_kept st); rows_dup := rows_dup st;
           rows_no_key := rows_no_key st;
           kept_rows := if stats_only then kept_rows st
                        else kept_rows st ++ [r] |}
  end.

(** The loop started in an arbitrary state. *)
Definition run (stats_only : bool) (st : state) (rows : list row) : state :=
  fold_left (step stats_only) rows st.

(** [dedup]: the state after the whole pass over the rows of the input. *)
Definition dedup (stats_only : bool) (rows : list row) : state :=
  run stats_only init rows.

(** *** The dedup key as the tagged value of the data model

    [spec_key] follows the words of the specification (an identifier-tag
    key, a geometry-tag key, or no key); it is compared with [derive_key],
    which follows the code. *)
Inductive Key :=
  | IdKey (data_id : pystr)
  | GeoKey (title lat lon : pystr).

Definition spec_key (r : row) : option Key :=
  let data_id := py_strip (get r (str "data_id")) in
  if truthy data_id then Some (IdKey data_id)
  else
    let title := py_strip (get r (str "title")) in
    let lat := py_strip (get r (str "latitude")) in
    let lon := py_strip (get r (str "longitude")) in
    if truthy title && truthy lat && truthy lon
    then Some (GeoKey title lat lon) else None.

(** The text the code builds for a tagged key. *)
Definition key_text (k : Key) : pystr :=
  match k with
  | IdKey d => str "did:" ++ d
  | GeoKey t la lo => str "tloc:" ++ t ++ str "|" ++ la ++ str "|" ++ lo
  end.

(** The code point of the separator of the fallback key. *)
Definition pipe : N := 124.

(** A tagged key whose coordinate texts do not contain the separator. *)
Definition pipe_free (k : Key) : Prop :=
  match k with
  | IdKey _ => True
  | GeoKey _ la lo => (pipe ∉ la) ∧ (pipe ∉ lo)
  end.

(** Index [i] holds the first row of its key. *)
Definition is_first_occurrence (rows : list row) (i : nat) : bool :=
  match rows !! i with
  | Some r =>
      match derive_key r with
      | Some k => bool_decide (k ∉ omap derive_key (take i rows))
      | None => false
      end
  | None => false
  end.

(** The counters agree with each other and with the kept list. *)
Definition counters_consistent (stats_only : bool) (st : state) : Prop :=
  rows_total st = (rows_kept st + rows_dup st + rows_no_key st)%nat ∧
  (stats_only = false → length (kept_rows st) = rows_kept st).

(** Adding to the two counters a key-less row touches. *)
Definition bump (n : nat) (st : state) : state :=
  {| seen := seen st; rows_total := n + rows_total st;
     rows_kept := rows_kept st; rows_dup := rows_dup st;
     rows_no_key := n + rows_no_key st; kept_rows := kept_rows st |}.

(** The state with the kept list dropped: what statistics-only mode
    computes. *)
Definition forget (st : state) : state :=
  {| seen := seen st; rows_total := rows_total st;
     rows_kept := rows_kept st; rows_dup := rows_dup st;
     rows_no_key := rows_no_key st; kept_rows := [] |}.

(** A row whose [data_id] field holds the given text, the other fields
    being those of [base]. *)
Definition with_data_id (data_id : string) (base : row) : row :=
  <[ str "data_id" := str data_id ]> base.

(** A sample row: three named fields, everything else absent. *)
Definition geo_row (title lat lon : string) : row :=
  {[ str "title" := str title; str "latitude" := str lat;
     str "longitude" := str lon ]}.

(** A sample row that has a [data_id]. *)
Definition id_row (data_id title : string) : row :=
  {[ str "data_id" := str data_id; str "title" := str title ]}.

(** *** Notions used to state further properties *)

(** The key of the row is derivable and not in [S]. *)
Definition key_unseen (S : gset (list N)) (r : row) : bool :=
  match derive_key r with
  | Some k => bool_decide (k ∉ S)
  | None => false
  end.

(** A text made of whitespace only. *)
Definition all_space (s : pystr) : bool := forallb py_isspace s.

(** The fields the key derivation reads. *)
Definition key_fields : list pystr :=
  [ str "data_id"; str "title"; str "latitude"; str "longitude" ].

End Dedup.

(** ** The grid generator, [generate_singapore_grid.py] *)

Module Grid.

Local Open Scope Z_scope.

(** *** Python floats and the outcome of a computation *)

(** A Python [float] is an IEEE 754 binary64 number. *)
Abbreviation float := spec_float.

Definition prec : Z := 53.
Definition emax : Z := 1024.

Definition is_valid (x : float) : bool := valid_binary prec emax x.

(** The float of an integer (exact below [2^53]). *)
Definition of_Z (n : Z) : float := binary_normalize prec emax n 0 false.

(** A decimal literal [n / 10^k], read as Python reads it: the nearest
    binary64 number (the quotient of two exactly represented integers,
    rounded once). *)
Definition dec (n : Z) (k : Z) : float :=
  SFdiv prec emax (of_Z n) (of_Z (10 ^ k)).

Definition fadd : float → float → float := SFadd prec emax.
Definition fsub : float → float → float := SFsub prec emax.
Definition fmul : float → float → float := SFmul prec emax.
(** [a > b], [a < b], [a <= b] and [a == b] on floats *)
Definition fgt (a b : float) : bool := SFltb b a.
Definition flt (a b : float) : bool := SFltb a b.
Definition fle (a b : float) : bool := SFleb a b.
Definition feq (a b : float) : bool := SFeqb a b.

Inductive exn := ZeroDivisionError | IndexError.

(** What running a piece of the program gives: a value, an exception, or
    no answer within the allotted number of loop iterations. *)
Inductive outcome (A : Type) :=
  | Ok (a : A)
  | Raise (e : exn)
  | OutOfFuel.
Arguments Ok {A} a.
Arguments Raise {A} e.
Arguments OutOfFuel {A}.

Definition bind {A B} (m : outcome A) (f : A → outcome B) : outcome B :=
  match m with
  | Ok a => f a
  | Raise e => Raise e
  | OutOfFuel => OutOfFuel
  end.

#[export] Instance outcome_bind : MBind outcome := λ A B f m, bind m f.

(** [a / b] on floats raises when the divisor compares equal to zero. *)
Definition fdiv (a b : float) : outcome float :=
  if feq b (S754_zero false) then Raise ZeroDivisionError
  else Ok (SFdiv prec emax a b).

(** [l[i]] for an index that is not negative *)
Definition index {A} (l : list A) (i : nat) : outcome A :=
  match l !! i with
  | Some x => Ok x
  | None => Raise IndexError
  end.

(** The integer nearest to [a / b], ties to the even one ([0 < b]). *)
Definition round_half_even_div (a b : Z) : Z :=
  let q := a / b in
  let r := a mod b in
  match (2 * r ?= b) with
  | Lt => q
  | Gt => q + 1
  | Eq => if Z.even q then q else q + 1
  end.

(** [round(x, 6)]: the decimal with six digits after the point nearest to
    the exact value of [x] (ties to the even digit), converted back to the
    nearest float; zeros, infinities and NaN are returned as they are. *)
Definition py_round6 (x : float) : float :=
  match x with
  | S754_finite s m e =>
      let q := if 0 <=? e then Zpos m * 2 ^ e * 10 ^ 6
               else round_half_even_div (Zpos m * 10 ^ 6) (2 ^ (- e)) in
      match q with
      | Zpos p => SFdiv prec emax (S754_finite s p 0)
                                  (S754_finite false 1000000 0)
      | _ => S754_zero s
      end
  | _ => x
  end.

(** *** The polygons *)

(** A vertex is a tuple [(lat, lon)]. *)
Abbreviation vertex := (float * float)%type.

(** A vertex written with three decimals, as in the source. *)
Definition v (lat lon : Z) : vertex := (dec lat 3, dec lon 3).

Definition MAIN_ISLAND : list vertex :=
  [ v 1250 103618; v 1265 103600; v 1290 103601; v 1310 103620;
    v 1320 103642;
    v 1355 103650; v 1385 103680; v 1415 103720; v 1430 103740;
    v 1445 103760; v 1450 103780;
    v 1455 103800; v 1460 103830; v 1465 103860; v 1460 103880;
    v 1455 103900; v 1450 103920;
    v 1420 103950; v 1400 103970; v 1385 103985; v 1370 104000;
    v 1360 104020; v 1345 104040; v 1330 104050;
    v 1310 104050; v 1300 104035; v 1290 103990; v 1280 103950;
    v 1270 103910; v 1265 103870; v 1260 103830; v 1265 103800;
    v 1270 103770;
    v 1275 103740; v 1270 103710; v 1260 103680; v 1255 103650;
    v 1250 103618 ].

Definition SENTOSA : list vertex :=
  [ v 1240 103825; v 1240 103860; v 1252 103860; v 1252 103825 ].

Definition JURONG_ISLAND : list vertex :=
  [ v 1255 103660; v 1255 103720; v 1280 103720; v 1280 103660 ].

Definition PULAU_UBIN : list vertex :=
  [ v 1395 103955; v 1395 103990; v 1420 103990; v 1420 103955 ].

Definition PULAU_TEKONG : list vertex :=
  [ v 1380 104010; v 1380 104060; v 1420 104060; v 1420 104010 ].

Definition POLYGONS : list (list vertex) :=
  [ MAIN_ISLAND; SENTOSA; JURONG_ISLAND; PULAU_UBIN; PULAU_TEKONG ].

(** *** Ray casting *)

(** The condition of the [if] in the loop of [point_in_polygon], for the
    edge from vertex [vj] to vertex [vi]; the right operand of [and] is
    evaluated only when the left one is true. *)
Definition crossing (lat lon : float) (vi vj : vertex) : outcome bool :=
  let '(yi, xi) := vi in
  let '(yj, xj) := vj in
  if negb (eqb (fgt yi lat) (fgt yj lat)) then
    q ← fdiv (fmul (fsub xj xi) (fsub lat yi)) (fsub yj yi);
    Ok (flt lon (fadd q xi))
  else Ok false.

(** One iteration of [for i in range(n)]; the state is [(inside, j)]. *)
Definition edge_step (lat lon : float) (polygon : list vertex)
    (st : bool * nat) (i : nat) : outcome (bool * nat) :=
  let '(inside, j) := st in
  vi ← index polygon i;
  vj ← index polygon j;
  c ← crossing lat lon vi vj;
  Ok (if c : bool then negb inside else inside, i).

(** A [for] loop whose body may raise. *)
Fixpoint for_each {S A} (body : S → A → outcome S) (st : S) (l : list A)
    : outcome S :=
  match l with
  | [] => Ok st
  | a :: l' => st' ← body st a; for_each body st' l'
  end.

(** [j = n - 1] is read only inside the loop, where [n] is positive. *)
Definition point_in_polygon (lat lon : float) (polygon : list vertex)
    : outcome bool :=
  let n := length polygon in
  st ← for_each (edge_step lat lon polygon) (false, (n - 1)%nat) (seq 0 n);
  Ok (fst st).

Fixpoint point_in_any_polygon (lat lon : float)
    (polygons : list (list vertex)) : outcome bool :=
  match polygons with
  | [] => Ok false
  | poly :: rest =>
      b ← point_in_polygon lat lon poly;
      if b : bool then Ok true else point_in_any_polygon lat lon rest
  end.

(** *** The scan *)

Abbreviation point := (float * float)%type.

Definition lat_min : float := dec 120 2.
Definition lat_max : float := dec 147 2.
Definition lon_min : float := dec 10359 2.
Definition lon_max : float := dec 10407 2.

(** [math.cos(math.radians(1.35))]. The cosine comes from the C library;
    its value at this argument is the binary64 number nearest to the
    cosine of [1.35 * (pi / 180)], [0x1.ffdb9e4dba584p-1]. *)
Definition cos_lat_center : float :=
  S754_finite false 9004699128407428 (-53).

(** [lat_step] and [lon_step] of [generate_grid]. *)
Definition lat_step (spacing_m : float) : outcome float :=
  fdiv spacing_m (of_Z 111320).

Definition lon_step (spacing_m : float) : outcome float :=
  fdiv spacing_m (fmul (of_Z 111320) cos_lat_center).

(** The inner [while lon <= lon_max], at most [fuel] iterations. *)
Fixpoint scan_row (fuel : nat) (step lat lon : float) (points : list point)
    : outcome (list point) :=
  match fuel with
  | O => OutOfFuel
  | S fuel' =>
      if fle lon lon_max then
        b ← point_in_any_polygon lat lon POLYGONS;
        let points :=
          if b : bool
          then points ++ [(py_round6 lat, py_round6 lon)] else points in
        scan_row fuel' step lat (fadd lon step) points
      else Ok points
  end.

(** The outer [while lat <= lat_max], at most [n] iterations, each inner
    loop being allowed [fuel] iterations. *)
Fixpoint scan_rows (fuel n : nat) (step_lat step_lon lat : float)
    (points : list point) : outcome (list point) :=
  match n with
  | O => OutOfFuel
  | S n' =>
      if fle lat lat_max then
        points' ← scan_row fuel step_lon lat lon_min points;
        scan_rows fuel n' step_lat step_lon (fadd lat step_lat) points'
      else Ok points
  end.

(** [generate_grid(spacing_m)], each loop being allowed [fuel]
    iterations. The spacing is a float; an integer spacing, as the command
    line gives, is converted by the first division ([of_Z]). *)
Definition generate_grid (fuel : nat) (spacing_m : float)
    : outcome (list point) :=
  step_lat ← lat_step spacing_m;
  step_lon ← lon_step spacing_m;
  scan_rows fuel fuel step_lat step_lon lat_min [].

(** *** Notions used to state the properties *)

(** Zero or finite: neither an infinity nor NaN. *)
Definition is_finite (x : float) : bool :=
  match x with
  | S754_zero _ | S754_finite _ _ _ => true
  | _ => false
  end.

(** Zero or finite of exponent at most 969: for a binary64 number, a
    magnitude below [2^1022]. *)
Definition below_2_1022 (x : float) : bool :=
  match x with
  | S754_zero _ => true
  | S754_finite _ _ e => e <=? 969
  | _ => false
  end.

(** The value of [x] is at least [2^E] ([+inf] included). *)
Definition ge_pow2 (E : Z) (x : float) : bool :=
  match x with
  | S754_infinity false => true
  | S754_finite false m e => 2 ^ (E - e) <=? Zpos m
  | _ => false
  end.


(** A rounding result with sign [s]: a finite number or an overflow, of
    exponent [e1] or [e1 + 1]; at exponent [e1] its mantissa is at least
    [m1], at [e1 + 1] its mantissa has 53 digits. *)
Definition rounds_to (s : bool) (e1 m1 : Z) (r : float) : Prop :=
  ∃ m3 e3,
    r = (if e3 <=? emax - prec then S754_finite s m3 e3 else S754_infinity s)
    ∧ e1 <= e3 ∧ (e3 = e1 → m1 <= Zpos m3) ∧ (e1 < e3 → 2 ^ 52 <= Zpos m3)
    ∧ e3 <= e1 + 1.

(** The values a scan variable takes: it starts at [x], is increased by
    [step] after each iteration and the loop ends when it exceeds
    [bound]. *)
Fixpoint scanned (fuel : nat) (step x bound : float) : option (list float) :=
  match fuel with
  | O => None
  | S fuel' =>
      if fle x bound
      then cons x <$> scanned fuel' step (fadd x step) bound
      else Some []
  end.

(** The polygon test of the scan answers [True]. *)
Definition on_land (lat lon : float) : bool :=
  match point_in_any_polygon lat lon POLYGONS with
  | Ok true => true
  | _ => false
  end.

(** The points one row of the scan appends, given the longitudes it
    visits. *)
Definition row_points (lat : float) (cols : list float) : list point :=
  map (λ lon, (py_round6 lat, py_round6 lon))
      (filter (λ lon, on_land lat lon = true) cols).

(** An output point is the rounding of a scanned point of the bounding box
    that passed the polygon test. *)
Definition rounded_land_point (p : point) : Prop :=
  ∃ lat lon,
    p = (py_round6 lat, py_round6 lon) ∧
    point_in_any_polygon lat lon POLYGONS = Ok true ∧
    fle lat lat_max = true ∧ fle lon lon_max = true.

(** The four corners of an axis-aligned rectangle, in ring order. *)
Definition rectangle (y0 y1 x0 x1 : float) : list vertex :=
  [ (y0, x0); (y0, x1); (y1, x1); (y1, x0) ].

(** The same ring started at another corner, in either direction. *)
Definition ring (k : nat) (backwards : bool) (l : list vertex) : list vertex :=
  rotate k (if backwards then reverse l else l).

(** The edges the loop of [point_in_polygon] visits, as pairs [(vi, vj)]:
    each vertex with the vertex before it, the first one with the last. *)
Fixpoint pairs_from (prev : vertex) (l : list vertex)
    : list (vertex * vertex) :=
  match l with
  | [] => []
  | vi :: l' => (vi, prev) :: pairs_from vi l'
  end.

Definition edges (polygon : list vertex) : list (vertex * vertex) :=
  match last polygon with
  | Some vl => pairs_from vl polygon
  | None => []
  end.

(** What one edge does to the [inside] flag. *)
Definition toggle (lat lon : float) (inside : bool) (e : vertex * vertex)
    : outcome bool :=
  c ← crossing lat lon e.1 e.2;
  Ok (if c : bool then negb inside else inside).

(** [2^j] as a float, for [-1022 <= j <= 1023]. *)
Definition pow2 (j : Z) : float := S754_finite false 4503599627370496 (j - 52).

(** Mantissas from [lo] up to [mmax], each at least [K] above the one
    before it. *)
Fixpoint spaced (K mmax lo : Z) (ms : list positive) : Prop :=
  match ms with
  | [] => True
  | mi :: ms' => lo <= Zpos mi <= mmax ∧ spaced K mmax (Zpos mi + K) ms'
  end.

(** Strictly increasing from left to right. *)
Definition ascending (l : list float) : Prop :=
  ∀ i j a b, (i < j)%nat → l !! i = Some a → l !! j = Some b → flt a b = true.

(** Zero, a negative number or [-inf]. *)
Definition non_positive (x : float) : bool :=
  match x with
  | S754_zero _ | S754_finite true _ _ | S754_infinity true => true
  | _ => false
  end.

(** A positive finite number with a mantissa of at most 53 bits that is
    at most [M * 2^E]. *)
Definition at_most (M : positive) (E : Z) (x : float) : Prop :=
  match x with
  | S754_finite false m e =>
      Zpos m < 2 ^ 53 ∧ -1074 <= e ∧ (e < E ∨ (e = E ∧ Zpos m <= Zpos M))
  | _ => False
  end.

(** A rounding result with sign [s] of a number between [m1 * 2^e1] and
    [(m1 + 1) * 2^e1]: zero, a finite number or an overflow. *)
Definition rounds_within (s : bool) (e1 m1 : Z) (r : float) : Prop :=
  r = S754_zero s ∨
  ∃ m3 e3,
    r = (if e3 <=? emax - prec then S754_finite s m3 e3 else S754_infinity s)
    ∧ e1 <= e3 <= e1 + 1 ∧ Zpos m3 * 2 ^ (e3 - e1) <= m1 + 1
    ∧ Zpos m3 < 2 ^ 53 ∧ (e1 < e3 → 2 ^ 52 <= Zpos m3).

(** Not a number. *)
Definition is_nan (x : float) : bool :=
  match x with S754_nan => true | _ => false end.

End Grid.

(** ** The command line of the grid generator *)

Module GridMain.
Import Grid.

Local Open Scope Z_scope.

(** The exceptions a run of [main] can end with: those of the standard
    library calls of [main] and those [generate_grid] raises. *)
Inductive error :=
  | ValueError
  | OverflowError
  | Raised (e : exn).

(** The float of a Python [int], as the division [spacing_m / 111320.0]
    computes it before dividing: the nearest binary64 number, or
    [OverflowError] when that is not finite. *)
Definition float_of_int (n : Z) : option float :=
  let x := of_Z n in
  if is_finite x then Some x else None.

(** An integer as a dyadic number with exponent 0. *)
Definition exact_int (z : Z) : float :=
  match z with
  | Z0 => S754_zero false
  | Zpos p => S754_finite false p 0
  | Zneg p => S754_finite true p 0
  end.

(** [a / b] on two [int]s, [b] not zero: the binary64 number nearest to
    the exact quotient. *)
Definition int_truediv (a b : Z) : float :=
  SFdiv prec emax (exact_int a) (exact_int b).

(** [min(l)] and [max(l)] on a list of floats: the first element, replaced
    by each later element that compares less (greater) than it; [None]
    stands for the [ValueError] of an empty argument. *)
Definition py_min (l : list float) : option float :=
  match l with
  | [] => None
  | x :: l' =>
      Some (fold_left (λ cur item, if flt item cur then item else cur) l' x)
  end.

Definition py_max (l : list float) : option float :=
  match l with
  | [] => None
  | x :: l' =>
      Some (fold_left (λ cur item, if fgt item cur then item else cur) l' x)
  end.

(** The lines [main] prints, each with the values it is formatted from. *)
Inductive line :=
  | GridSpacing (spacing : Z)
  | TotalLandPoints (n : nat)
  | LatitudeRange (lo hi : float)
  | LongitudeRange (lo hi : float)
  | EstimatedScrapeTime (lo hi : float)
  | Coordinates (lat lon : float).

(** How a run ends. *)
Inductive ending :=
  | Returns
  | Fails (e : error)
  | Unfinished.

Record run := Run { printed : list line; ends : ending }.

(** The report of [--count], lines 170-179. *)
Definition report (spacing : Z) (points : list point) : run :=
  let lats := map fst points in
  let lons := map snd points in
  let head := [GridSpacing spacing; TotalLandPoints (length points)] in
  match py_min lats, py_max lats with
  | Some lat_lo, Some lat_hi =>
      match py_min lons, py_max lons with
      | Some lon_lo, Some lon_hi =>
          let est_hours_low :=
            int_truediv (Z.of_nat (length points) * 2) 3600 in
          let est_hours_high :=
            int_truediv (Z.of_nat (length points) * 4) 3600 in
          Run (head ++ [LatitudeRange lat_lo lat_hi;
                        LongitudeRange lon_lo lon_hi;
                        EstimatedScrapeTime est_hours_low est_hours_high])
              Returns
      | _, _ => Run (head ++ [LatitudeRange lat_lo lat_hi]) (Fails ValueError)
      end
  | _, _ => Run head (Fails ValueError)
  end.

(** [main], for the parsed arguments [--count] and [--spacing]; the loops
    of [generate_grid] are allowed [fuel] iterations each. *)
Definition main (fuel : nat) (count : bool) (spacing : Z) : run :=
  match float_of_int spacing with
  | None => Run [] (Fails OverflowError)
  | Some spacing_m =>
      match generate_grid fuel spacing_m with
      | Ok points =>
          if count then report spacing points
          else Run (map (λ p : point, Coordinates p.1 p.2) points) Returns
      | Raise e => Run [] (Fails (Raised e))
      | OutOfFuel => Run [] Unfinished
      end
  end.

End GridMain.

(** ** The deduplicator on the records of a file, [dedup] and [main] of
    [dedup_results.py]

    The input file is taken as the list of records that [csv.reader]
    yields for it, the output file as the list of records handed to
    [csv.writer]; opening the files and the text of the lines are outside
    the model. *)

Module DedupFile.
Import Dedup.

(** A record as [csv.reader] yields it: the list of the fields of a line.
    The input file is given as the list of its records. *)
Abbreviation record := (list pystr).

(** A row as [csv.DictReader] builds it. A field name is bound to the
    text of its field, or to [None] (the [restval]) when the record is
    shorter than the header; the fields of a record beyond the header are
    kept in a list under the key [None] (the [restkey]). *)
Record dict_row := DictRow {
  named : gmap pystr (option pystr);
  rest : option (list pystr)
}.

(** [DictReader.__next__] on a record that is not blank:
    [dict(zip(fieldnames, row))], then the rest or the missing fields; a
    later binding of a name replaces an earlier one. *)
Definition read_row (fieldnames : list pystr) (r : record) : dict_row :=
  {| named :=
       list_to_map
         (reverse (zip fieldnames (Some <$> r)
                   ++ ((λ k, (k, None)) <$> drop (length r) fieldnames)));
     rest :=
       if (length fieldnames <? length r)%nat
       then Some (drop (length fieldnames) r) else None |}.

(** The exceptions of the standard library that can end [dedup]. *)
Inductive error := AttributeError | ValueError.

Inductive result (A : Type) :=
  | Ok (a : A)
  | Raise (e : error).
Arguments Ok {A} a.
Arguments Raise {A} e.

#[export] Instance result_bind : MBind result := λ A B f m,
  match m with
  | Ok a => f a
  | Raise e => Raise e
  end.

(** [row.get(k, "").strip()]: the value [None] has no [strip]. *)
Definition get_strip (d : dict_row) (k : pystr) : result pystr :=
  match named d !! k with
  | Some (Some s) => Ok (py_strip s)
  | Some None => Raise AttributeError
  | None => Ok (py_strip [])
  end.

(** Lines 39-52 of [dedup] on a row of the reader. *)
Definition row_key (d : dict_row) : result (option pystr) :=
  data_id ← get_strip d (str "data_id");
  if truthy data_id then Ok (Some (str "did:" ++ data_id))
  else
    title ← get_strip d (str "title");
    lat ← get_strip d (str "latitude");
    lon ← get_strip d (str "longitude");
    if truthy title && truthy lat && truthy lon
    then Ok (Some (str "tloc:" ++ title ++ str "|" ++ lat ++ str "|" ++ lon))
    else Ok None.

(** The variables of [dedup] across the iterations, the kept rows being
    rows of the reader. *)
Record file_state := FileState {
  f_seen : gset (list N);
  f_total : nat;
  f_kept : nat;
  f_dup : nat;
  f_no_key : nat;
  f_rows : list dict_row
}.

Definition file_init : file_state :=
  {| f_seen := ∅; f_total := 0; f_kept := 0; f_dup := 0; f_no_key := 0;
     f_rows := [] |}.

(** One iteration of [for row in reader], lines 37-61. *)
Definition file_step (stats_only : bool) (st : file_state) (d : dict_row)
    : result file_state :=
  key ← row_key d;
  Ok match key with
     | None =>
         {| f_seen := f_seen st; f_total := S (f_total st);
            f_kept := f_kept st; f_dup := f_dup st;
            f_no_key := S (f_no_key st); f_rows := f_rows st |}
     | Some key =>
         if decide (key ∈ f_seen st) then
           {| f_seen := f_seen st; f_total := S (f_total st);
              f_kept := f_kept st; f_dup := S (f_dup st);
              f_no_key := f_no_key st; f_rows := f_rows st |}
         else
           {| f_seen := {[ key ]} ∪ f_seen st; f_total := S (f_total st);
              f_kept := S (f_kept st); f_dup := f_dup st;
              f_no_key := f_no_key st;
              f_rows := if stats_only then f_rows st
                        else f_rows st ++ [d] |}
     end.

(** The loop over the records after the header; the reader skips blank
    records. *)
Fixpoint file_run (stats_only : bool) (fieldnames : list pystr)
    (st : file_state) (records : list record) : result file_state :=
  match records with
  | [] => Ok st
  | r :: records' =>
      match r with
      | [] => file_run stats_only fieldnames st records'
      | _ =>
          st' ← file_step stats_only st (read_row fieldnames r);
          file_run stats_only fieldnames st' records'
      end
  end.

(** [DictWriter._dict_to_list]: a row with a key that is not a field name
    is refused; a missing field and the value [None] are written as the
    empty text. *)
Definition write_row (fieldnames : list pystr) (d : dict_row)
    : result record :=
  if bool_decide (dom (named d) ⊆ list_to_set fieldnames)
     && bool_decide (rest d = None)
  then Ok ((λ k, match named d !! k with
                 | Some (Some s) => s
                 | _ => []
                 end) <$> fieldnames)
  else Raise ValueError.

(** [writer.writerows(kept_rows)] after the records [written]: the rows
    are converted and written one by one, so the records before a refused
    row are in the file. *)
Fixpoint write_rows (fieldnames : list pystr) (written : list record)
    (ds : list dict_row) : list record * option error :=
  match ds with
  | [] => (written, None)
  | d :: ds' =>
      match write_row fieldnames d with
      | Ok r => write_rows fieldnames (written ++ [r]) ds'
      | Raise e => (written, Some e)
      end
  end.

(** The lines [dedup] and [main] print, each with the values it is
    formatted from. *)
Inductive out_line :=
  | WrittenTo (output_path : pystr)
  | StatsTitle
  | TotalRowsRead (n : nat)
  | UniqueRowsKept (n : nat)
  | DuplicatesRemoved (n : nat)
  | RowsWithNoKey (n : nat)
  | DedupRate (percent : Grid.float)
  | NotAvailable.

Inductive err_line :=
  | NoHeaderRow
  | NoOutputPath.

(** How a run ends: it returns, [sys.exit] ends it with a status, or an
    exception does. *)
Inductive ending :=
  | Returns
  | Exits (status : Z)
  | Fails (e : error).

(** What a run does: the lines printed on the two streams and the output
    file, if it was opened, with the records written to it. *)
Record run := Run {
  stdout : list out_line;
  stderr : list err_line;
  file : option (pystr * list record);
  ends : ending
}.

(** Lines 71-78: the statistics. *)
Definition stats_lines (rows_total rows_kept rows_dup rows_no_key : nat)
    : list out_line :=
  [ StatsTitle; TotalRowsRead rows_total; UniqueRowsKept rows_kept;
    DuplicatesRemoved rows_dup ]
  ++ (if (0 <? rows_no_key)%nat then [RowsWithNoKey rows_no_key] else [])
  ++ [ if (0 <? rows_total)%nat
       then DedupRate
              (Grid.fmul
                 (GridMain.int_truediv (Z.of_nat rows_dup)
                                       (Z.of_nat rows_total))
                 (Grid.of_Z 100))
       else NotAvailable ].

(** [dedup(input_path, output_path, stats_only)], the file at
    [input_path] holding [records]; [output_path] is [None] or a text. *)
Definition dedup (records : list record) (output_path : option pystr)
    (stats_only : bool) : run :=
  match records with
  | [] | [] :: _ => Run [] [NoHeaderRow] None (Exits 1)
  | header :: data =>
      match file_run stats_only header file_init data with
      | Raise e => Run [] [] None (Fails e)
      | Ok st =>
          let stats :=
            stats_lines (f_total st) (f_kept st) (f_dup st) (f_no_key st) in
          match stats_only, output_path with
          | false, Some ((_ :: _) as path) =>
              match write_rows header [header] (f_rows st) with
              | (written, Some e) =>
                  Run [] [] (Some (path, written)) (Fails e)
              | (written, None) =>
                  Run (WrittenTo path :: stats) [] (Some (path, written))
                      Returns
              end
          | _, _ => Run stats [] None Returns
          end
      end
  end.

(** [main], for the parsed arguments [output] and [--stats-only] and the
    records of the file named by the argument [input]. *)
Definition main (records : list record) (output : option pystr)
    (stats_only : bool) : run :=
  match output, stats_only with
  | (None | Some []), false => Run [] [NoOutputPath] None (Exits 1)
  | _, _ => dedup records output stats_only
  end.

(** *** Notions used to state the properties *)

(** The row of the data model for a record that is not shorter than the
    header. *)
Definition row_of (fieldnames : list pystr) (r : record) : row :=
  list_to_map (reverse (zip fieldnames r)).

(** The records the reader turns into rows: those that are not blank. *)
Definition data_records (data : list record) : list record :=
  filter (λ r, r ≠ []) data.

(** The records at the first-occurrence indices of their rows. *)
Definition first_records (fieldnames : list pystr) (data : list record)
    : list record :=
  omap (λ i, data !! i)
       (filter (λ i, is_first_occurrence (row_of fieldnames <$> data) i)
               (seq 0 (length data))).

(** The row of the reader for a record that is not shorter than the
    header, and the state of the loop of [dedup] for a state of the data
    model and the records kept so far. *)
Definition embed (fieldnames : list pystr) (r : record) : dict_row :=
  {| named := Some <$> row_of fieldnames r;
     rest := if (length fieldnames <? length r)%nat
             then Some (drop (length fieldnames) r) else None |}.

Definition lift (fieldnames : list pystr) (st : state) (kept : list record)
    : file_state :=
  {| f_seen := seen st; f_total := rows_total st; f_kept := rows_kept st;
     f_dup := rows_dup st; f_no_key := rows_no_key st;
     f_rows := embed fieldnames <$> kept |}.

(** The state of the loop with one more row read and counted as key-less,
    lines 37 and 51. *)
Definition count_no_key (st : file_state) : file_state :=
  {| f_seen := f_seen st; f_total := S (f_total st); f_kept := f_kept st;
     f_dup := f_dup st; f_no_key := S (f_no_key st); f_rows := f_rows st |}.

End DedupFile.

(** ** Facts about the deduplicator *)

Module DedupFacts.
Import Dedup.

Lemma run_snoc so st rows r :
  run so st (rows ++ [r]) = step so (run so st rows) r.
Proof. unfold run. by rewrite fold_left_app. Qed.

Lemma run_cons so st rows r :
  run so st (r :: rows) = run so (step so st r) rows.
Proof. reflexivity. Qed.

Lemma dedup_snoc so rows r :
  dedup so (rows ++ [r]) = step so (dedup so rows) r.
Proof. apply run_snoc. Qed.

(** The three outcomes of one iteration. *)
Lemma step_no_key so st r :
  derive_key r = None →
  step so st r =
    {| seen := seen st; rows_total := S (rows_total st);
       rows_kept := rows_kept st; rows_dup := rows_dup st;
       rows_no_key := S (rows_no_key st); kept_rows := kept_rows st |}.
Proof. intros H. unfold step. by rewrite H. Qed.

Lemma step_dup so st r k :
  derive_key r = Some k → k ∈ seen st →
  step so st r =
    {| seen := seen st; rows_total := S (rows_total st);
       rows_kept := rows_kept st; rows_dup := S (rows_dup st);
       rows_no_key := rows_no_key st; kept_rows := kept_rows st |}.
Proof.
  intros H Hin. unfold step. rewrite H. cbn [seen].
  by rewrite decide_True.
Qed.

Lemma step_fresh so st r k :
  derive_key r = Some k → k ∉ seen st →
  step so st r =
    {| seen := {[ k ]} ∪ seen st; rows_total := S (rows_total st);
       rows_kept := S (rows_kept st); rows_dup := rows_dup st;
       rows_no_key := rows_no_key st;
       kept_rows := if so then kept_rows st else kept_rows st ++ [r] |}.
Proof.
  intros H Hin. unfold step. rewrite H. cbn [seen].
  by rewrite decide_False.
Qed.

(** The Seen-Set holds the keys of the rows read so far. *)
Lemma seen_run so st rows :
  seen (run so st rows) = list_to_set (omap derive_key rows) ∪ seen st.
Proof.
  revert st. induction rows as [|r rows IH]; intros st.
  - cbn. set_solver.
  - rewrite run_cons, IH.
    change (omap derive_key (r :: rows))
      with (match derive_key r with
            | Some y => y :: omap derive_key rows
            | None => omap derive_key rows
            end).
    unfold step.
    destruct (derive_key r) as [k|]; cbn [seen]; [|done].
    destruct (decide (k ∈ seen st)); cbn [seen list_to_set]; set_solver.
Qed.

Lemma seen_dedup so rows :
  seen (dedup so rows) = list_to_set (omap derive_key rows).
Proof. unfold dedup. rewrite seen_run. cbn. set_solver. Qed.

(** *** First occurrence wins, in input order *)

Lemma is_first_occurrence_app_l rows rows' i :
  (i < length rows)%nat →
  is_first_occurrence (rows ++ rows') i = is_first_occurrence rows i.
Proof.
  intros Hi. unfold is_first_occurrence.
  rewrite lookup_app_l by done.
  rewrite take_app_le by lia. done.
Qed.

Lemma is_first_occurrence_last rows r :
  is_first_occurrence (rows ++ [r]) (length rows) =
  match derive_key r with
  | Some k => bool_decide (k ∉ seen (dedup false rows))
  | None => false
  end.
Proof.
  unfold is_first_occurrence.
  rewrite list_lookup_middle by done.
  rewrite take_app_length.
  destruct (derive_key r) as [k|]; [|done].
  apply bool_decide_ext. rewrite seen_dedup. set_solver.
Qed.

Lemma kept_rows_snoc rows r :
  kept_rows (dedup false (rows ++ [r])) =
  kept_rows (dedup false rows) ++
    (if is_first_occurrence (rows ++ [r]) (length rows) then [r] else []).
Proof.
  rewrite dedup_snoc, is_first_occurrence_last.
  destruct (derive_key r) as [k|] eqn:Hk.
  - destruct (decide (k ∈ seen (dedup false rows))) as [Hin|Hin].
    + rewrite (step_dup _ _ _ k) by done. cbn [kept_rows].
      rewrite bool_decide_eq_false_2 by tauto. by rewrite app_nil_r.
    + rewrite (step_fresh _ _ _ k) by done. cbn [kept_rows].
      by rewrite bool_decide_eq_true_2.
  - rewrite step_no_key by done. cbn [kept_rows]. by rewrite app_nil_r.
Qed.

Lemma omap_filter_ext {A B} (P Q : A → Prop)
    `{!∀ x, Decision (P x)} `{!∀ x, Decision (Q x)}
    (f g : A → option B) (l : list A) :
  (∀ x, x ∈ l → (P x ↔ Q x) ∧ (P x → f x = g x)) →
  omap f (filter P l) = omap g (filter Q l).
Proof.
  induction l as [|a l IH]; intros Hl; [done|].
  destruct (Hl a) as [HPQ Hfg]; [by left|].
  rewrite !filter_cons.
  destruct (decide (P a)) as [HP|HP].
  - rewrite decide_True by tauto. cbn. rewrite Hfg by done.
    destruct (g a); rewrite IH; try done; intros x Hx; apply Hl; by right.
  - rewrite decide_False by tauto. apply IH. intros x Hx. apply Hl. by right.
Qed.

Lemma length_omap_total {A B} (f : A → option B) (l : list A) :
  Forall (λ x, is_Some (f x)) l → length (omap f l) = length l.
Proof.
  induction 1 as [|x l [y Hy] _ IH]; [done|].
  cbn. rewrite Hy. cbn. by rewrite IH.
Qed.

Lemma kept_rows_first_occurrences rows :
  kept_rows (dedup false rows) =
  omap (λ i, rows !! i)
       (filter (λ i, is_first_occurrence rows i) (seq 0 (length rows))).
Proof.
  induction rows as [|r rows IH] using rev_ind; [done|].
  rewrite kept_rows_snoc, IH, length_app, Nat.add_comm. cbn [length Nat.add].
  rewrite seq_S, filter_app, omap_app. cbn [Nat.add]. f_equal.
  - apply omap_filter_ext. intros i Hi. apply elem_of_seq in Hi.
    rewrite is_first_occurrence_app_l by lia.
    split; [done|]. intros _. by rewrite lookup_app_l by lia.
  - rewrite filter_cons, filter_nil.
    destruct (is_first_occurrence (rows ++ [r]) (length rows)) eqn:Hf.
    + rewrite decide_True by done. cbn.
      by rewrite list_lookup_middle.
    + rewrite decide_False by (by intros []). done.
Qed.

(** *** The kept rows have pairwise distinct, derivable keys *)

Lemma kept_rows_keys rows :
  ∃ ks, Forall2 (λ r k, derive_key r = Some k) (kept_rows (dedup false rows)) ks
        ∧ NoDup ks
        ∧ seen (dedup false rows) = list_to_set ks.
Proof.
  induction rows as [|r rows IH] using rev_ind.
  - exists []. repeat split; [constructor|constructor].
  - destruct IH as (ks & HF & HN & Hs). rewrite dedup_snoc.
    destruct (derive_key r) as [k|] eqn:Hk.
    + destruct (decide (k ∈ seen (dedup false rows))) as [Hin|Hin].
      * rewrite (step_dup _ _ _ k) by done. by exists ks.
      * rewrite (step_fresh _ _ _ k) by done. cbn [kept_rows seen].
        exists (ks ++ [k]). split; [|split].
        -- apply Forall2_app; [done|]. by repeat constructor.
        -- apply NoDup_app. split; [done|]. split; [|apply NoDup_singleton].
           intros x Hx ->%list_elem_of_singleton. apply Hin.
           rewrite Hs. by apply elem_of_list_to_set.
        -- rewrite Hs, list_to_set_app_L. cbn. set_solver.
    + rewrite step_no_key by done. by exists ks.
Qed.

(** A pass over rows whose keys are derivable, pairwise distinct and not
    yet seen keeps every one of them. *)
Lemma run_all_fresh so rows : ∀ ks st,
  Forall2 (λ r k, derive_key r = Some k) rows ks →
  NoDup ks → (∀ k, k ∈ ks → k ∉ seen st) →
  run so st rows =
    {| seen := list_to_set ks ∪ seen st;
       rows_total := rows_total st + length rows;
       rows_kept := rows_kept st + length rows;
       rows_dup := rows_dup st;
       rows_no_key := rows_no_key st;
       kept_rows := if so then kept_rows st else kept_rows st ++ rows |}.
Proof.
  induction rows as [|r rows IH]; intros ks st HF HN Hfresh.
  - apply Forall2_nil_inv_l in HF as ->. cbn.
    rewrite !Nat.add_0_r, app_nil_r, (left_id_L ∅ (∪)).
    by destruct st, so.
  - apply Forall2_cons_inv_l in HF as (k & ks' & Hk & HF & ->).
    apply NoDup_cons in HN as [Hnk HN].
    rewrite run_cons, (step_fresh _ _ _ k) by (try done; apply Hfresh; by left).
    rewrite (IH ks') ; [| done | done |].
    + cbn [seen rows_total rows_kept rows_dup rows_no_key kept_rows
           length list_to_set].
      f_equal; [set_solver|lia|lia|].
      destruct so; [done|]. by rewrite <-app_assoc.
    + intros k' Hk'. cbn [seen]. apply not_elem_of_union. split.
      * intros ->%elem_of_singleton. done.
      * apply Hfresh. by right.
Qed.

(** *** Rows without a key *)

Lemma derive_key_None r :
  derive_key r = None ↔
  py_strip (get r (str "data_id")) = [] ∧
  (py_strip (get r (str "title")) = [] ∨
   py_strip (get r (str "latitude")) = [] ∨
   py_strip (get r (str "longitude")) = []).
Proof.
  unfold derive_key.
  destruct (py_strip (get r (str "data_id"))) as [|c d]; cbn [truthy].
  - destruct (py_strip (get r (str "title"))),
             (py_strip (get r (str "latitude"))),
             (py_strip (get r (str "longitude"))); cbn; naive_solver.
  - naive_solver.
Qed.

Lemma step_bump so n st r : step so (bump n st) r = bump n (step so st r).
Proof.
  unfold step, bump. destruct (derive_key r) as [k|]; cbn.
  - destruct (decide (k ∈ seen st)); cbn; f_equal; lia.
  - f_equal; lia.
Qed.

Lemma run_bump so n rows : ∀ st, run so (bump n st) rows = bump n (run so st rows).
Proof.
  induction rows as [|r rows IH]; intros st; [done|].
  by rewrite !run_cons, step_bump, IH.
Qed.

Lemma run_app so st rows1 rows2 :
  run so st (rows1 ++ rows2) = run so (run so st rows1) rows2.
Proof. unfold run. by rewrite fold_left_app. Qed.

Lemma kept_rows_have_key so rows r : ∀ st,
  r ∈ kept_rows (run so st rows) → r ∈ kept_rows st ∨ is_Some (derive_key r).
Proof.
  induction rows as [|r' rows IH]; intros st Hr; [by left|].
  rewrite run_cons in Hr. apply IH in Hr as [Hr|Hr]; [|by right].
  unfold step in Hr. destruct (derive_key r') as [k|] eqn:Hk; [|by left].
  cbn [seen] in Hr. destruct (decide (k ∈ seen st)); [by left|].
  cbn [kept_rows] in Hr. destruct so; [by left|].
  apply elem_of_app in Hr as [Hr|Hr]; [by left|].
  apply list_elem_of_singleton in Hr as ->. right. by rewrite Hk.
Qed.

(** *** The counters *)

Lemma step_counters so st r :
  counters_consistent so st → counters_consistent so (step so st r).
Proof.
  intros [Ht Hl]. unfold step, counters_consistent.
  destruct (derive_key r) as [k|]; cbn.
  - destruct (decide (k ∈ seen st)); cbn.
    + split; [lia|done].
    + split; [lia|]. intros ->. rewrite length_app. cbn. rewrite Hl by done. lia.
  - split; [lia|done].
Qed.

Lemma run_counters so rows : ∀ st,
  counters_consistent so st → counters_consistent so (run so st rows).
Proof.
  induction rows as [|r rows IH]; intros st Hst; [done|].
  rewrite run_cons. by apply IH, step_counters.
Qed.

(** *** Key texts *)

Lemma derive_key_spec_key r : derive_key r = key_text <$> spec_key r.
Proof.
  unfold derive_key, spec_key.
  destruct (truthy (py_strip (get r (str "data_id")))); [done|].
  by destruct (truthy _ && truthy _ && truthy _).
Qed.

Lemma key_text_tags d t la lo : key_text (IdKey d) ≠ key_text (GeoKey t la lo).
Proof. cbn. discriminate. Qed.

Lemma key_text_id_inj d1 d2 :
  key_text (IdKey d1) = key_text (IdKey d2) → d1 = d2.
Proof. cbn. by intros [=]. Qed.

Lemma key_text_geo_inj t1 la1 lo1 t2 la2 lo2 :
  pipe ∉ la1 → pipe ∉ lo1 → pipe ∉ la2 → pipe ∉ lo2 →
  key_text (GeoKey t1 la1 lo1) = key_text (GeoKey t2 la2 lo2) →
  t1 = t2 ∧ la1 = la2 ∧ lo1 = lo2.
Proof.
  intros Hla1 Hlo1 Hla2 Hlo2 H.
  apply (app_inv_head (str "tloc:")) in H.
  change (str "|") with [pipe] in H. cbn [app] in H.
  assert (E : ∀ t la lo : pystr,
    t ++ pipe :: la ++ pipe :: lo = (t ++ pipe :: la) ++ pipe :: lo)
    by (intros; by rewrite <-app_assoc).
  rewrite !E in H.
  apply not_elem_of_app_cons_inv_r in H as (H & _ & ->); [|done..].
  apply not_elem_of_app_cons_inv_r in H as (-> & _ & ->); done.
Qed.

(** *** Statistics-only mode *)

Lemma step_forget so st r : step true (forget st) r = forget (step so st r).
Proof.
  unfold step, forget. destruct (derive_key r) as [k|]; cbn; [|done].
  by destruct (decide (k ∈ seen st)).
Qed.

Lemma run_forget so rows : ∀ st,
  run true (forget st) rows = forget (run so st rows).
Proof.
  induction rows as [|r rows IH]; intros st; [done|].
  by rewrite !run_cons, (step_forget so), IH.
Qed.

Lemma dedup_stats_only so rows : dedup true rows = forget (dedup so rows).
Proof. unfold dedup. by rewrite <-(run_forget so). Qed.

Lemma derive_key_with_data_id (d : string) (base : row) :
  truthy (py_strip (str d)) = true →
  derive_key (with_data_id d base) = Some (str "did:" ++ py_strip (str d)).
Proof.
  intros Hd. unfold derive_key, with_data_id, get.
  rewrite lookup_insert_eq. cbn [default from_option id]. by rewrite Hd.
Qed.

(** ** The claims about the deduplicator *)

(** C1 (amended). For two rows on which the key derivation yields a key,
    the two key texts are those of the tagged keys of the rows; equal tagged
    keys give equal texts (so surrounding whitespace of the fields does not
    matter), equal texts force equal tags, equal trimmed [data_id] for two
    identifier keys and equal joined texts [title|latitude|longitude] for
    two geometry keys; when the trimmed latitude and longitude of both rows
    contain no ['|'], the texts are equal if and only if the tagged keys are
    equal, component by component. *)
Theorem C1_key_equality (r1 r2 : row) (k1 k2 : pystr) :
  derive_key r1 = Some k1 → derive_key r2 = Some k2 →
  ∃ sk1 sk2,
    spec_key r1 = Some sk1 ∧ spec_key r2 = Some sk2 ∧
    k1 = key_text sk1 ∧ k2 = key_text sk2 ∧
    (sk1 = sk2 → k1 = k2) ∧
    (k1 = k2 →
     match sk1, sk2 with
     | IdKey d1, IdKey d2 => d1 = d2
     | GeoKey t1 la1 lo1, GeoKey t2 la2 lo2 =>
         t1 ++ [pipe] ++ la1 ++ [pipe] ++ lo1 =
         t2 ++ [pipe] ++ la2 ++ [pipe] ++ lo2
     | _, _ => False
     end) ∧
    (pipe_free sk1 → pipe_free sk2 → (k1 = k2 ↔ sk1 = sk2)).
Proof.
  rewrite !derive_key_spec_key. intros H1 H2.
  destruct (spec_key r1) as [sk1|]; [|done].
  destruct (spec_key r2) as [sk2|]; [|done].
  cbn in H1, H2. injection H1 as <-. injection H2 as <-.
  exists sk1, sk2. do 4 (split; [done|]). split; [by intros ->|]. split.
  - intros H. destruct sk1 as [d1|t1 la1 lo1], sk2 as [d2|t2 la2 lo2].
    + by apply key_text_id_inj.
    + by apply key_text_tags in H.
    + symmetry in H. by apply key_text_tags in H.
    + by apply (app_inv_head (str "tloc:")) in H.
  - intros Hp1 Hp2. split; [|by intros ->].
    intros H. destruct sk1 as [d1|t1 la1 lo1], sk2 as [d2|t2 la2 lo2].
    + f_equal. by apply key_text_id_inj.
    + by apply key_text_tags in H.
    + symmetry in H. by apply key_text_tags in H.
    + destruct Hp1, Hp2.
      apply key_text_geo_inj in H as (-> & -> & ->); done.
Qed.

Lemma C1_key_equality_witness :
  ∃ sk1 sk2,
    spec_key (id_row " abc " "X") = Some sk1 ∧
    spec_key (id_row "abc" "Y") = Some sk2 ∧
    str "did:abc" = key_text sk1 ∧ str "did:abc" = key_text sk2 ∧
    (sk1 = sk2 → str "did:abc" = str "did:abc") ∧
    (str "did:abc" = str "did:abc" →
     match sk1, sk2 with
     | IdKey d1, IdKey d2 => d1 = d2
     | GeoKey t1 la1 lo1, GeoKey t2 la2 lo2 =>
         t1 ++ [pipe] ++ la1 ++ [pipe] ++ lo1 =
         t2 ++ [pipe] ++ la2 ++ [pipe] ++ lo2
     | _, _ => False
     end) ∧
    (pipe_free sk1 → pipe_free sk2 →
     (str "did:abc" = str "did:abc" ↔ sk1 = sk2)).
Proof.
  apply (C1_key_equality (id_row " abc " "X") (id_row "abc" "Y"));
    vm_compute; reflexivity.
Defined.

(** C1 (as stated) fails: two rows with different trimmed
    (title, latitude, longitude) triples get the same geometry key text
    when a coordinate text contains the separator. *)
Lemma C1_pipe_collision :
  ∃ k,
    derive_key (geo_row "A|1" "2" "3") = Some k ∧
    derive_key (geo_row "A" "1|2" "3") = Some k ∧
    spec_key (geo_row "A|1" "2" "3")
      = Some (GeoKey (str "A|1") (str "2") (str "3")) ∧
    spec_key (geo_row "A" "1|2" "3")
      = Some (GeoKey (str "A") (str "1|2") (str "3")) ∧
    GeoKey (str "A|1") (str "2") (str "3")
      ≠ GeoKey (str "A") (str "1|2") (str "3").
Proof.
  exists (str "tloc:A|1|2|3").
  repeat split; try (vm_compute; reflexivity). discriminate.
Qed.

(** C3. The kept rows are the rows at the first-occurrence indices of the
    input, in increasing index order, and the kept counter is their number
    (in either mode); three rows with [data_id] D1, D2, D1 (any other
    fields) give rows 1 and 2 with kept=2, duplicates=1, no_key=0. *)
Theorem C3_first_occurrence_wins :
  (∀ rows : list row,
     kept_rows (dedup false rows) =
       omap (λ i, rows !! i)
            (filter (λ i, is_first_occurrence rows i) (seq 0 (length rows)))
     ∧ ∀ so, rows_kept (dedup so rows) =
         length (filter (λ i, is_first_occurrence rows i)
                        (seq 0 (length rows)))) ∧
  (∀ b1 b2 b3 : row,
     let r1 := with_data_id "D1" b1 in
     let r2 := with_data_id "D2" b2 in
     let r3 := with_data_id "D1" b3 in
     let st := dedup false [r1; r2; r3] in
     kept_rows st = [r1; r2] ∧ rows_total st = 3%nat ∧
     rows_kept st = 2%nat ∧ rows_dup st = 1%nat ∧ rows_no_key st = 0%nat).
Proof.
  split.
  - intros rows. split; [apply kept_rows_first_occurrences|].
    intros so.
    assert (Hk : rows_kept (dedup so rows) = rows_kept (dedup false rows)).
    { transitivity (rows_kept (dedup true rows)).
      - by rewrite (dedup_stats_only so).
      - by rewrite (dedup_stats_only false). }
    rewrite Hk.
    destruct (run_counters false rows init) as [_ Hl]; [done|].
    fold (dedup false rows) in Hl. rewrite <-Hl by done.
    rewrite kept_rows_first_occurrences.
    apply length_omap_total, Forall_forall. intros i Hi.
    apply list_elem_of_filter in Hi as [Hi _].
    unfold is_first_occurrence in Hi. by destruct (rows !! i).
  - intros b1 b2 b3 r1 r2 r3 st. subst st. unfold dedup, run. cbn [fold_left].
    rewrite (step_fresh _ _ r1 (str "did:D1"));
      [|by apply derive_key_with_data_id|set_solver].
    rewrite (step_fresh _ _ r2 (str "did:D2"));
      [|by apply derive_key_with_data_id|cbn; set_solver].
    rewrite (step_dup _ _ r3 (str "did:D1"));
      [|by apply derive_key_with_data_id|cbn; set_solver].
    done.
Qed.

(** C6. A second pass over the kept rows of a first pass removes no
    duplicate, drops no key-less row and keeps every row again. *)
Theorem C6_dedup_idempotent (rows : list row) :
  let out := kept_rows (dedup false rows) in
  (∀ so, rows_dup (dedup so out) = 0%nat ∧
         rows_no_key (dedup so out) = 0%nat ∧
         rows_kept (dedup so out) = length out ∧
         rows_total (dedup so out) = length out) ∧
  kept_rows (dedup false out) = out.
Proof.
  intros out. destruct (kept_rows_keys rows) as (ks & HF & HN & _).
  fold out in HF.
  assert (H : ∀ so, dedup so out =
    {| seen := list_to_set ks ∪ ∅; rows_total := 0 + length out;
       rows_kept := 0 + length out; rows_dup := 0; rows_no_key := 0;
       kept_rows := if so then [] else [] ++ out |}).
  { intros so. unfold dedup.
    by rewrite (run_all_fresh so out ks init) by (done || set_solver). }
  split; [intros so|]; by rewrite H.
Qed.

(** In the data model, where every value of a row is a text: a row whose
    trimmed [data_id] is empty and one of whose trimmed [title],
    [latitude], [longitude] is empty has no key; the iteration
    that reads it only increments the total and the no-key counters, the
    Seen-Set and the kept list stay as they were; the row is never among
    the kept rows; and the whole pass ends in the state it would end in
    without that row, but for these two counters. *)
Lemma no_key_row_dropped (so : bool) (rows1 rows2 : list row) (r : row) :
  py_strip (get r (str "data_id")) = [] →
  py_strip (get r (str "title")) = [] ∨
  py_strip (get r (str "latitude")) = [] ∨
  py_strip (get r (str "longitude")) = [] →
  derive_key r = None ∧
  (∀ st, step so st r = bump 1 st) ∧
  (r ∉ kept_rows (dedup so (rows1 ++ r :: rows2))) ∧
  dedup so (rows1 ++ r :: rows2) = bump 1 (dedup so (rows1 ++ rows2)).
Proof.
  intros Hd Hf.
  assert (Hk : derive_key r = None) by (by apply derive_key_None).
  split; [done|]. split; [|split].
  - intros st. by rewrite step_no_key.
  - intros Hin. apply kept_rows_have_key in Hin as [Hin|[k Hin]].
    + by apply elem_of_nil in Hin.
    + congruence.
  - unfold dedup. rewrite !run_app, run_cons, step_no_key by done.
    by rewrite <-run_bump.
Qed.

(** C10. After every prefix of the input, and so at the end of the pass,
    the total counter is the sum of the three outcome counters, and with
    retention enabled the kept list has as many rows as the kept counter
    says. *)
Theorem C10_counters_consistent (so : bool) (rows : list row) (n : nat) :
  dedup so rows = run so (dedup so (take n rows)) (drop n rows) ∧
  counters_consistent so (dedup so (take n rows)) ∧
  counters_consistent so (dedup so rows).
Proof.
  split; [|split].
  - unfold dedup. by rewrite <-run_app, take_drop.
  - by apply run_counters.
  - by apply run_counters.
Qed.

(** ** Further properties of the deduplicator *)

(** *** One kept row for each key of the input *)

Lemma omap_Forall2 {A B} (f : A → option B) l ks :
  Forall2 (λ r k, f r = Some k) l ks → omap f l = ks.
Proof.
  induction 1 as [|r k l ks Hk _ IH]; [done|].
  cbn. rewrite Hk. cbn. by rewrite IH.
Qed.

Lemma kept_rows_sublist rows : ∀ st,
  ∃ l, kept_rows (run false st rows) = kept_rows st ++ l ∧ l `sublist_of` rows.
Proof.
  induction rows as [|r rows IH]; intros st.
  - exists []. by rewrite app_nil_r.
  - rewrite run_cons. destruct (IH (step false st r)) as (l & -> & Hl).
    unfold step. destruct (derive_key r) as [k|]; cbn [seen kept_rows].
    + destruct (decide (k ∈ seen st)); cbn [kept_rows].
      * exists l. split; [done|]. by apply sublist_cons.
      * exists (r :: l). rewrite <-app_assoc. split; [done|].
        by apply sublist_skip.
    + exists l. split; [done|]. by apply sublist_cons.
Qed.

(** X1. The kept rows are a subsequence of the input rows; each of them
    has a key, no two of them have the same key, their keys are exactly
    the keys that occur in the input, and so every input row that has a
    key is represented in the output by a row of the same key. *)
Theorem X1_kept_rows_one_row_per_key (rows : list row) :
  let kept := kept_rows (dedup false rows) in
  kept `sublist_of` rows ∧
  Forall (λ r, is_Some (derive_key r)) kept ∧
  NoDup (omap derive_key kept) ∧
  (∀ k, k ∈ omap derive_key kept ↔ k ∈ omap derive_key rows) ∧
  (∀ r k, r ∈ rows → derive_key r = Some k →
     ∃ r', r' ∈ kept ∧ derive_key r' = Some k).
Proof.
  intros kept.
  destruct (kept_rows_keys rows) as (ks & HF & HN & Hs). fold kept in HF.
  pose proof (omap_Forall2 _ _ _ HF) as Hks.
  assert (Hiff : ∀ k, k ∈ omap derive_key kept ↔ k ∈ omap derive_key rows).
  { intros k. rewrite Hks.
    rewrite <-(elem_of_list_to_set (C := gset (list N)) k ks), <-Hs.
    rewrite seen_dedup. apply elem_of_list_to_set. }
  split; [|split; [|split; [|split]]].
  - destruct (kept_rows_sublist rows init) as (l & Hl & Hsub).
    unfold kept, dedup. by rewrite Hl.
  - apply Forall_forall. intros r Hr.
    apply list_elem_of_lookup in Hr as [i Hi].
    destruct (Forall2_lookup_l _ _ _ _ _ HF Hi) as (k & _ & Hk).
    by rewrite Hk.
  - by rewrite Hks.
  - done.
  - intros r k Hr Hk.
    assert (Hin : k ∈ omap derive_key kept).
    { apply Hiff. apply list_elem_of_omap. by exists r. }
    apply list_elem_of_omap in Hin as (r' & Hr' & Hk'). by exists r'.
Qed.

(** *** The values of the counters *)

Lemma counters_run so rows :
  let st := dedup so rows in
  rows_total st = length rows ∧
  rows_no_key st = length (filter (λ r, derive_key r = None) rows) ∧
  rows_kept st = size (seen st) ∧
  (rows_kept st + rows_dup st)%nat = length (omap derive_key rows).
Proof.
  induction rows as [|r rows IH] using rev_ind; [done|].
  cbn zeta in *. destruct IH as (Ht & Hn & Hk & Hd).
  rewrite dedup_snoc, filter_app, omap_app, !length_app, filter_cons, filter_nil.
  destruct (decide (derive_key r = None)) as [E|E].
  - rewrite step_no_key by done. cbn. rewrite E.
    cbn [seen rows_total rows_kept rows_dup rows_no_key length]. lia.
  - destruct (derive_key r) as [k|] eqn:E'; [clear E|done]. cbn. rewrite E'.
    destruct (decide (k ∈ seen (dedup so rows))) as [Hin|Hin].
    + rewrite (step_dup _ _ _ k) by done.
      cbn [seen rows_total rows_kept rows_dup rows_no_key length]. lia.
    + rewrite (step_fresh _ _ _ k) by done.
      cbn [seen rows_total rows_kept rows_dup rows_no_key length].
      rewrite size_union by set_solver. rewrite size_singleton. lia.
Qed.

(** X2. In either mode the total counter is the number of input rows, the
    no-key counter the number of rows without a key, the kept counter the
    number of distinct keys of the input and the duplicate counter the
    number of keyed rows minus the number of distinct keys; nothing is
    kept exactly when no row has a key. *)
Theorem X2_counters_count (so : bool) (rows : list row) :
  let st := dedup so rows in
  let keys := omap derive_key rows in
  let distinct := size (list_to_set keys : gset (list N)) in
  rows_total st = length rows ∧
  rows_no_key st = length (filter (λ r, derive_key r = None) rows) ∧
  rows_kept st = distinct ∧
  rows_dup st = (length keys - distinct)%nat ∧
  (rows_kept st ≤ length keys)%nat ∧
  (rows_kept st = 0%nat ↔ keys = []).
Proof.
  cbn zeta. destruct (counters_run so rows) as (Ht & Hn & Hk & Hd).
  cbn zeta in *. rewrite seen_dedup in Hk.
  repeat split; try done; try lia.
  - rewrite Hk. intros H0. apply size_empty_inv in H0.
    destruct (omap derive_key rows) as [|k ks]; [done|].
    exfalso. set_solver.
  - intros E. rewrite Hk, E. done.
Qed.

(** X3. The statistics do not depend on the order of the input rows: two
    inputs that are permutations of each other end with the same Seen-Set,
    the same four counters and kept lists of the same length (the kept
    rows themselves may differ). *)
Theorem X3_counters_permutation (so : bool) (rows rows' : list row) :
  rows ≡ₚ rows' →
  let st := dedup so rows in
  let st' := dedup so rows' in
  seen st = seen st' ∧
  rows_total st = rows_total st' ∧ rows_kept st = rows_kept st' ∧
  rows_dup st = rows_dup st' ∧ rows_no_key st = rows_no_key st' ∧
  length (kept_rows st) = length (kept_rows st').
Proof.
  intros HP. cbn zeta.
  destruct (counters_run so rows) as (Ht & Hn & Hk & Hd).
  destruct (counters_run so rows') as (Ht' & Hn' & Hk' & Hd').
  cbn zeta in *.
  assert (Hs : seen (dedup so rows) = seen (dedup so rows')).
  { rewrite !seen_dedup. apply set_eq. intros k.
    rewrite !elem_of_list_to_set. by rewrite HP. }
  assert (Hkept : rows_kept (dedup so rows) = rows_kept (dedup so rows'))
    by (by rewrite Hk, Hk', Hs).
  assert (Ho : length (omap derive_key rows) = length (omap derive_key rows'))
    by (by rewrite HP).
  repeat split; try done.
  - by rewrite Ht, Ht', HP.
  - lia.
  - by rewrite Hn, Hn', HP.
  - destruct (run_counters so rows init) as [_ Hl]; [done|].
    destruct (run_counters so rows' init) as [_ Hl']; [done|].
    fold (dedup so rows) in Hl. fold (dedup so rows') in Hl'.
    destruct so.
    + by rewrite (dedup_stats_only false rows), (dedup_stats_only false rows').
    + rewrite Hl, Hl' by done. done.
Qed.

Lemma X3_counters_permutation_witness :
  seen (dedup false [id_row "D1" "A"; id_row "D2" "B"; id_row "D1" "C"])
    = seen (dedup false [id_row "D2" "B"; id_row "D1" "A"; id_row "D1" "C"]) ∧
  rows_total (dedup false [id_row "D1" "A"; id_row "D2" "B"; id_row "D1" "C"])
    = rows_total
        (dedup false [id_row "D2" "B"; id_row "D1" "A"; id_row "D1" "C"]) ∧
  rows_kept (dedup false [id_row "D1" "A"; id_row "D2" "B"; id_row "D1" "C"])
    = rows_kept
        (dedup false [id_row "D2" "B"; id_row "D1" "A"; id_row "D1" "C"]) ∧
  rows_dup (dedup false [id_row "D1" "A"; id_row "D2" "B"; id_row "D1" "C"])
    = rows_dup
        (dedup false [id_row "D2" "B"; id_row "D1" "A"; id_row "D1" "C"]) ∧
  rows_no_key (dedup false [id_row "D1" "A"; id_row "D2" "B"; id_row "D1" "C"])
    = rows_no_key
        (dedup false [id_row "D2" "B"; id_row "D1" "A"; id_row "D1" "C"]) ∧
  length (kept_rows
            (dedup false [id_row "D1" "A"; id_row "D2" "B"; id_row "D1" "C"]))
    = length (kept_rows
            (dedup false [id_row "D2" "B"; id_row "D1" "A"; id_row "D1" "C"])).
Proof.
  apply (X3_counters_permutation false
           [id_row "D1" "A"; id_row "D2" "B"; id_row "D1" "C"]
           [id_row "D2" "B"; id_row "D1" "A"; id_row "D1" "C"]).
  apply perm_swap.
Defined.

(** *** Statistics-only mode and the writing mode *)

(** X4. Statistics-only mode computes the same Seen-Set and the same four
    counters as the writing mode and retains no row; its kept counter is
    the number of rows the writing mode would keep. *)
Theorem X4_stats_only_same_statistics (rows : list row) :
  let a := dedup true rows in
  let b := dedup false rows in
  kept_rows a = [] ∧ seen a = seen b ∧
  rows_total a = rows_total b ∧ rows_kept a = rows_kept b ∧
  rows_dup a = rows_dup b ∧ rows_no_key a = rows_no_key b ∧
  rows_kept a = length (kept_rows b).
Proof.
  cbn zeta. rewrite (dedup_stats_only false rows). cbn.
  repeat split; try done.
  destruct (run_counters false rows init) as [_ Hl]; [done|].
  symmetry. by apply Hl.
Qed.

(** *** Concatenated inputs *)

Lemma run_app_kept rows : ∀ st,
  let st' := run false st rows in
  let d := dedup false rows in
  seen st' = seen st ∪ seen d ∧
  kept_rows st' =
    kept_rows st ++ filter (λ r, key_unseen (seen st) r = true) (kept_rows d) ∧
  rows_kept st' =
    (rows_kept st +
     length (filter (λ r, key_unseen (seen st) r = true) (kept_rows d)))%nat ∧
  rows_total st' = (rows_total st + rows_total d)%nat ∧
  rows_no_key st' = (rows_no_key st + rows_no_key d)%nat.
Proof.
  induction rows as [|r rows IH] using rev_ind; intros st.
  - cbn. rewrite app_nil_r, !Nat.add_0_r. repeat split; try done. set_solver.
  - cbn zeta. rewrite run_snoc, dedup_snoc.
    destruct (IH st) as (Hs & Hk & Hn & Ht & Hz). cbn zeta in *.
    destruct (derive_key r) as [k|] eqn:E.
    + destruct (decide (k ∈ seen (dedup false rows))) as [Hin|Hin].
      * rewrite (step_dup _ (dedup false rows) _ k) by done.
        rewrite (step_dup _ _ _ k) by (try done; rewrite Hs; set_solver).
        cbn [seen rows_total rows_kept rows_dup rows_no_key kept_rows].
        repeat split; try done; lia.
      * rewrite (step_fresh _ (dedup false rows) _ k) by done.
        cbn [seen rows_total rows_kept rows_dup rows_no_key kept_rows].
        rewrite filter_app, filter_cons, filter_nil.
        assert (Hu : key_unseen (seen st) r = bool_decide (k ∉ seen st))
          by (unfold key_unseen; by rewrite E).
        destruct (decide (k ∈ seen st)) as [Hin'|Hin'].
        -- rewrite (step_dup _ _ _ k) by (try done; rewrite Hs; set_solver).
           cbn [seen rows_total rows_kept rows_dup rows_no_key kept_rows].
           rewrite decide_False
             by (rewrite Hu, bool_decide_eq_false_2 by tauto; done).
           rewrite app_nil_r.
           repeat split; try done; try lia. rewrite Hs. set_solver.
        -- rewrite (step_fresh _ _ _ k) by (try done; rewrite Hs; set_solver).
           cbn [seen rows_total rows_kept rows_dup rows_no_key kept_rows].
           rewrite decide_True by (by rewrite Hu, bool_decide_eq_true_2).
           rewrite length_app, Hk, app_assoc.
           cbn [length].
           repeat split; try done; try lia. rewrite Hs. set_solver.
    + rewrite !step_no_key by done.
      cbn [seen rows_total rows_kept rows_dup rows_no_key kept_rows].
      repeat split; try done; lia.
Qed.

(** X5. Deduplicating the concatenation of two inputs keeps the rows kept
    from the first input, followed by those rows kept from the second
    input whose key does not occur in the first; the Seen-Set is the union
    of the two Seen-Sets, the total and no-key counters add up, and the
    rows of the second input that lose their place count as duplicates. *)
Theorem X5_dedup_app (rows1 rows2 : list row) :
  let d1 := dedup false rows1 in
  let d2 := dedup false rows2 in
  let d := dedup false (rows1 ++ rows2) in
  let new := filter (λ r, key_unseen (seen d1) r = true) (kept_rows d2) in
  kept_rows d = kept_rows d1 ++ new ∧
  seen d = seen d1 ∪ seen d2 ∧
  rows_kept d = (rows_kept d1 + length new)%nat ∧
  rows_total d = (rows_total d1 + rows_total d2)%nat ∧
  rows_no_key d = (rows_no_key d1 + rows_no_key d2)%nat ∧
  rows_dup d = (rows_dup d1 + rows_dup d2 + (rows_kept d2 - length new))%nat.
Proof.
  cbn zeta.
  assert (E : dedup false (rows1 ++ rows2)
              = run false (dedup false rows1) rows2) by apply run_app.
  rewrite E. clear E.
  destruct (run_app_kept rows2 (dedup false rows1)) as (Hs & Hk & Hn & Ht & Hz).
  cbn zeta in *.
  destruct (run_counters false rows2 (dedup false rows1)) as [Hc _];
    [by apply run_counters|].
  destruct (run_counters false rows1 init) as [Hc1 _]; [done|].
  destruct (run_counters false rows2 init) as [Hc2 Hl2]; [done|].
  fold (dedup false rows1) in Hc1. fold (dedup false rows2) in Hc2, Hl2.
  pose proof (length_filter (λ r, key_unseen (seen (dedup false rows1)) r = true)
                (kept_rows (dedup false rows2))) as Hle.
  rewrite Hl2 in Hle by done.
  repeat split; try done. lia.
Qed.

(** *** Whitespace around the fields *)

Lemma py_lstrip_spaces ws s :
  all_space ws = true → py_lstrip (ws ++ s) = py_lstrip s.
Proof.
  induction ws as [|c ws IH]; [done|]. cbn.
  intros [Hc Hws]%andb_prop. rewrite Hc. by apply IH.
Qed.

Lemma py_lstrip_nil s : py_lstrip s = [] ↔ all_space s = true.
Proof.
  induction s as [|c s IH]; [done|]. cbn.
  destruct (py_isspace c); cbn; [done|]. split; discriminate.
Qed.

Lemma py_lstrip_app s t :
  py_lstrip s ≠ [] → py_lstrip (s ++ t) = py_lstrip s ++ t.
Proof.
  induction s as [|c s IH]; [done|]. cbn.
  destruct (py_isspace c); [done|]. done.
Qed.

Lemma all_space_app s t : all_space (s ++ t) = all_space s && all_space t.
Proof. apply forallb_app. Qed.

Lemma all_space_rev s : all_space (rev s) = all_space s.
Proof.
  induction s as [|c s IH]; [done|]. cbn [rev].
  rewrite all_space_app, IH. cbn. rewrite andb_true_r. apply andb_comm.
Qed.

Lemma py_rstrip_spaces s ws :
  all_space ws = true → py_rstrip (s ++ ws) = py_rstrip s.
Proof.
  intros H. unfold py_rstrip. rewrite rev_app_distr.
  rewrite py_lstrip_spaces; [done|]. by rewrite all_space_rev.
Qed.

Lemma py_strip_padding ws1 s ws2 :
  all_space ws1 = true → all_space ws2 = true →
  py_strip (ws1 ++ s ++ ws2) = py_strip s.
Proof.
  intros H1 H2. unfold py_strip. rewrite py_lstrip_spaces by done.
  destruct (py_lstrip s) as [|c t] eqn:E.
  - apply py_lstrip_nil in E.
    rewrite (proj2 (py_lstrip_nil (s ++ ws2))); [done|].
    by rewrite all_space_app, E, H2.
  - rewrite py_lstrip_app by (by rewrite E). rewrite E.
    by apply py_rstrip_spaces.
Qed.

Lemma get_insert (r : row) f g x :
  get (<[f := x]> r) g = if decide (f = g) then x else get r g.
Proof.
  unfold get. destruct (decide (f = g)) as [->|Hne].
  - by rewrite lookup_insert_eq.
  - by rewrite lookup_insert_ne.
Qed.

Lemma derive_key_ext (r r' : row) :
  (∀ f, f ∈ key_fields → py_strip (get r f) = py_strip (get r' f)) →
  derive_key r = derive_key r'.
Proof.
  intros H. unfold derive_key.
  rewrite (H (str "data_id")), (H (str "title")), (H (str "latitude")),
          (H (str "longitude")); [done|unfold key_fields; set_solver..].
Qed.

(** X6. The key of a row reads four fields only, and each of them up to
    surrounding whitespace: replacing a field that the key derivation does
    not read by anything, or a field it reads by a text with the same
    trimmed value, padded with any whitespace on both sides, leaves the
    key (or its absence) as it was. *)
Theorem X6_derive_key_padding (r : row) (f x ws1 ws2 : pystr) :
  all_space ws1 = true → all_space ws2 = true →
  f ∉ key_fields ∨ py_strip x = py_strip (get r f) →
  derive_key (<[f := ws1 ++ x ++ ws2]> r) = derive_key r.
Proof.
  intros H1 H2 Hf. apply derive_key_ext. intros g Hg.
  rewrite get_insert. destruct (decide (f = g)) as [->|Hne]; [|done].
  rewrite py_strip_padding by done. by destruct Hf.
Qed.

Lemma X6_derive_key_padding_witness :
  derive_key (<[str "data_id" := str " " ++ str "D1" ++ str "  "]>
                (id_row "D1" "A"))
  = derive_key (id_row "D1" "A").
Proof.
  apply (X6_derive_key_padding (id_row "D1" "A") (str "data_id") (str "D1")
           (str " ") (str "  ")).
  - vm_compute. reflexivity.
  - vm_compute. reflexivity.
  - right. vm_compute. reflexivity.
Defined.

End DedupFacts.

(** ** Facts about the grid generator *)

Module GridFacts.
Import Grid.
Local Open Scope Z_scope.

(** *** Binary64 arithmetic on mantissas and exponents *)

(** Number of binary digits *)
Lemma digits2_pos_bounds (m : positive) :
  2 ^ (Zpos (digits2_pos m) - 1) <= Zpos m < 2 ^ Zpos (digits2_pos m).
Proof.
  induction m as [m IH|m IH|]; cbn [digits2_pos]; [| |cbn; lia].
  - rewrite Pos2Z.inj_succ, (Pos2Z.inj_xI m).
    replace (Z.succ (Zpos (digits2_pos m)) - 1)
      with (Z.succ (Zpos (digits2_pos m) - 1)) by lia.
    rewrite !Z.pow_succ_r by lia. lia.
  - rewrite Pos2Z.inj_succ, (Pos2Z.inj_xO m).
    replace (Z.succ (Zpos (digits2_pos m)) - 1)
      with (Z.succ (Zpos (digits2_pos m) - 1)) by lia.
    rewrite !Z.pow_succ_r by lia. lia.
Qed.

Lemma digits2_pos_unique (m : positive) (d : Z) :
  2 ^ (d - 1) <= Zpos m < 2 ^ d → Zpos (digits2_pos m) = d.
Proof.
  intros [Hl Hu]. pose proof (digits2_pos_bounds m) as [Hl' Hu'].
  destruct (Z.lt_trichotomy (Zpos (digits2_pos m)) d) as [H|[H|H]]; [|done|].
  - assert (2 ^ Zpos (digits2_pos m) <= 2 ^ (d - 1))
      by (apply Z.pow_le_mono_r; lia). lia.
  - assert (0 <= d \/ d < 0) as [Hd|Hd] by lia.
    + assert (2 ^ d <= 2 ^ (Zpos (digits2_pos m) - 1))
        by (apply Z.pow_le_mono_r; lia). lia.
    + rewrite Z.pow_neg_r in Hu by lia. lia.
Qed.

Lemma digits2_pos_le (m m' : positive) :
  Zpos m <= Zpos m' → Zpos (digits2_pos m) <= Zpos (digits2_pos m').
Proof.
  intros H. pose proof (digits2_pos_bounds m) as [Hl _].
  pose proof (digits2_pos_bounds m') as [_ Hu].
  destruct (Z.le_gt_cases (Zpos (digits2_pos m)) (Zpos (digits2_pos m')))
    as [|Hgt]; [done|].
  assert (2 ^ Zpos (digits2_pos m') <= 2 ^ (Zpos (digits2_pos m) - 1))
    by (apply Z.pow_le_mono_r; lia). lia.
Qed.

Lemma digits2_pos_shift (m m' : positive) (k : Z) :
  0 <= k → Zpos m' = Zpos m * 2 ^ k →
  Zpos (digits2_pos m') = Zpos (digits2_pos m) + k.
Proof.
  intros Hk H. apply digits2_pos_unique. rewrite H.
  pose proof (digits2_pos_bounds m) as [Hl Hu].
  replace (Zpos (digits2_pos m) + k - 1) with ((Zpos (digits2_pos m) - 1) + k)
    by lia.
  rewrite !Z.pow_add_r by lia.
  assert (0 < 2 ^ k) by (apply Z.pow_pos_nonneg; lia). nia.
Qed.

(** Shifts *)
Lemma iter_xO_Z (m : positive) (d : positive) :
  Zpos (Pos.iter xO m d) = Zpos m * 2 ^ Zpos d.
Proof.
  revert m. induction d as [|d IH] using Pos.peano_ind; intros m.
  - cbn. lia.
  - rewrite Pos.iter_succ, (Pos2Z.inj_xO (Pos.iter xO m d)), IH.
    rewrite Pos2Z.inj_succ, Z.pow_succ_r by lia.
    lia.
Qed.

Lemma shl_align_spec (m : positive) (e e' : Z) :
  (e' < e → Zpos (fst (shl_align m e e')) = Zpos m * 2 ^ (e - e')
            ∧ snd (shl_align m e e') = e') ∧
  (e <= e' → shl_align m e e' = (m, e)).
Proof.
  unfold shl_align. destruct (e' - e) as [|p|p] eqn:Hd; split; intros H;
    try lia; try done.
  cbn [fst snd]. rewrite iter_xO_Z. split; [|done]. f_equal. f_equal. lia.
Qed.

Lemma iter_pos_nat {A} (f : A → A) (p : positive) (x : A) :
  SpecFloat.iter_pos f p x = Nat.iter (Pos.to_nat p) f x.
Proof.
  revert x. induction p as [p IH|p IH|]; intros x; cbn [SpecFloat.iter_pos].
  - rewrite !IH, Pos2Nat.inj_xI.
    replace (S (2 * Pos.to_nat p)) with (Pos.to_nat p + (Pos.to_nat p + 1))%nat
      by lia.
    rewrite !Nat.iter_add. done.
  - rewrite !IH, Pos2Nat.inj_xO.
    replace (2 * Pos.to_nat p)%nat with (Pos.to_nat p + Pos.to_nat p)%nat by lia.
    by rewrite Nat.iter_add.
  - done.
Qed.

Lemma shr_1_m (mrs : shr_record) :
  0 <= shr_m mrs → shr_m (shr_1 mrs) = shr_m mrs / 2.
Proof.
  destruct mrs as [m r s]. cbn [shr_m]. intros Hm.
  destruct m as [|[p|p|]|p]; cbn [shr_1 shr_m]; [done| | |done|lia].
  - rewrite (Pos2Z.inj_xI p). apply (Z.div_unique_pos _ _ _ 1); lia.
  - rewrite (Pos2Z.inj_xO p). apply (Z.div_unique_pos _ _ _ 0); lia.
Qed.

Lemma iter_shr_1_m (n : nat) (mrs : shr_record) :
  0 <= shr_m mrs →
  shr_m (Nat.iter n shr_1 mrs) = shr_m mrs / 2 ^ Z.of_nat n.
Proof.
  intros Hm. induction n as [|n IH].
  - cbn. by rewrite Z.div_1_r.
  - rewrite Nat.iter_succ, shr_1_m, IH.
    + rewrite Nat2Z.inj_succ, Z.pow_succ_r by lia.
      rewrite Z.div_div by lia. f_equal. lia.
    + rewrite IH. apply Z.div_pos; [done|]. apply Z.pow_pos_nonneg; lia.
Qed.

Lemma shr_spec (mrs : shr_record) (e n : Z) :
  0 <= shr_m mrs →
  shr_m (fst (shr mrs e n)) = shr_m mrs / 2 ^ Z.max 0 n ∧
  snd (shr mrs e n) = e + Z.max 0 n.
Proof.
  intros Hm. unfold shr. destruct n as [|p|p]; cbn [fst snd].
  - cbn. rewrite Z.div_1_r. lia.
  - rewrite iter_pos_nat, iter_shr_1_m by done.
    rewrite positive_nat_Z. rewrite Z.max_r by lia. done.
  - rewrite Z.max_l by lia. cbn. rewrite Z.div_1_r. lia.
Qed.

Lemma shr_record_of_loc_m (m : Z) (l : location) :
  shr_m (shr_record_of_loc m l) = m.
Proof. by destruct l as [|[]]. Qed.

Lemma shr_fexp_spec (m e : Z) (l : location) :
  0 <= m →
  let n := fexp prec emax (Zdigits2 m + e) - e in
  shr_m (fst (shr_fexp prec emax m e l)) = m / 2 ^ Z.max 0 n ∧
  snd (shr_fexp prec emax m e l) = e + Z.max 0 n.
Proof.
  intros Hm n. unfold shr_fexp.
  pose proof (shr_spec (shr_record_of_loc m l) e n) as H.
  rewrite shr_record_of_loc_m in H. by apply H.
Qed.

Lemma round_nearest_even_bounds (m : Z) (l : location) :
  m <= round_nearest_even m l <= m + 1.
Proof.
  destruct l as [|[]]; cbn; try lia. destruct (Z.even m); lia.
Qed.

Lemma fexp_eq (x : Z) : fexp prec emax x = Z.max (x - 53) (-1074).
Proof. reflexivity. Qed.

Lemma binary_round_aux_pos (s : bool) (M : positive) (e : Z) (lx : location) :
  let e1 := Z.max e (fexp prec emax (Zpos (digits2_pos M) + e)) in
  let m1 := Zpos M / 2 ^ (e1 - e) in
  0 < m1 →
  rounds_to s e1 m1 (binary_round_aux prec emax s (Zpos M) e lx).
Proof.
  intros e1 m1 Hm1. unfold binary_round_aux.
  pose proof (shr_fexp_spec (Zpos M) e lx) as [H1 H2]; [done|].
  destruct (shr_fexp prec emax (Zpos M) e lx) as [mrs' e'].
  cbn [fst snd Zdigits2] in H1, H2.
  assert (He' : e' = e1) by (subst e1; lia).
  assert (Hmrs : shr_m mrs' = m1).
  { rewrite H1. unfold m1. f_equal. f_equal. subst e1. lia. }
  clear H1 H2.
  assert (Hm1u : m1 < 2 ^ 53).
  { pose proof (digits2_pos_bounds M) as [_ Hu].
    unfold m1. apply Z.div_lt_upper_bound; [apply Z.pow_pos_nonneg; lia|].
    rewrite <-Z.pow_add_r by lia. eapply Z.lt_le_trans; [exact Hu|].
    apply Z.pow_le_mono_r; [lia|]. subst e1. rewrite fexp_eq. lia. }
  pose proof (round_nearest_even_bounds (shr_m mrs') (loc_of_shr_record mrs'))
    as Hr.
  set (m2 := round_nearest_even (shr_m mrs') (loc_of_shr_record mrs')) in *.
  rewrite Hmrs in Hr.
  pose proof (shr_fexp_spec m2 e' loc_Exact) as [H1 H2]; [lia|].
  destruct (shr_fexp prec emax m2 e' loc_Exact) as [mrs'' e''].
  cbn [fst snd] in H1, H2.
  destruct m2 as [|p2|p2] eqn:Hm2; [lia| |lia].
  cbn [Zdigits2] in H1, H2.
  pose proof (digits2_pos_bounds p2) as [Hd2 _].
  assert (Hd54 : Zpos (digits2_pos p2) <= 54).
  { destruct (Z.le_gt_cases (Zpos (digits2_pos p2)) 54) as [|Hgt]; [done|].
    assert (2 ^ 54 <= 2 ^ (Zpos (digits2_pos p2) - 1))
      by (apply Z.pow_le_mono_r; lia). lia. }
  assert (Hemin : -1074 <= e').
  { rewrite He'. subst e1. rewrite fexp_eq. lia. }
  rewrite fexp_eq in H1, H2.
  set (d2 := Zpos (digits2_pos p2)) in *.
  destruct (Z.le_gt_cases (Z.max (d2 + e' - 53) (-1074) - e') 0) as [Hn|Hn].
  - rewrite Z.max_l in H1, H2 by lia.
    rewrite Z.pow_0_r, Z.div_1_r in H1. rewrite H1.
    exists p2, e''. split; [done|]. repeat split; lia.
  - rewrite Z.max_r in H1, H2 by lia.
    assert (Hn2 : Z.max (d2 + e' - 53) (-1074) - e' = d2 - 53) by lia.
    rewrite Hn2 in H1, H2.
    assert (Hpos : 2 ^ 52 <= shr_m mrs'').
    { rewrite H1. apply Z.div_le_lower_bound.
      - apply Z.pow_pos_nonneg; lia.
      - rewrite <-Z.pow_add_r by lia. etrans; [|exact Hd2].
        apply Z.pow_le_mono_r; lia. }
    destruct (shr_m mrs'') as [|p3|p3]; [lia| |lia].
    exists p3, e''. split; [done|]. repeat split; lia.
Qed.

Lemma rounds_to_nonzero (s : bool) (e1 m1 : Z) (r : float) :
  rounds_to s e1 m1 r → feq r (S754_zero false) = false.
Proof.
  intros (m3 & e3 & -> & _). by destruct (e3 <=? emax - prec), s.
Qed.

Lemma binary_round_shr (s : bool) (M : positive) (e : Z) :
  let f := fexp prec emax (Zpos (digits2_pos M) + e) in
  e <= f → 0 < Zpos M / 2 ^ (f - e) →
  rounds_to s f (Zpos M / 2 ^ (f - e)) (binary_round prec emax s M e).
Proof.
  intros f Hf Hm. unfold binary_round. fold f.
  rewrite (proj2 (shl_align_spec M e f) Hf).
  pose proof (binary_round_aux_pos s M e loc_Exact) as H. cbv zeta in H.
  fold f in H.
  rewrite Z.max_r in H by exact Hf. by apply H.
Qed.

Lemma binary_round_shl (s : bool) (M : positive) (e : Z) :
  let f := fexp prec emax (Zpos (digits2_pos M) + e) in
  f < e →
  rounds_to s f (Zpos M * 2 ^ (e - f)) (binary_round prec emax s M e).
Proof.
  intros f Hf. unfold binary_round. fold f.
  destruct (proj1 (shl_align_spec M e f) Hf) as [Hm He].
  destruct (shl_align M e f) as [mz ez]. cbn [fst snd] in Hm, He. subst ez.
  pose proof (binary_round_aux_pos s mz f loc_Exact) as H. cbv zeta in H.
  rewrite (digits2_pos_shift M mz (e - f)) in H by (lia || done).
  replace (Zpos (digits2_pos M) + (e - f) + f)
    with (Zpos (digits2_pos M) + e) in H by lia.
  fold f in H. rewrite Z.max_id, Z.sub_diag, Z.pow_0_r, Z.div_1_r in H.
  rewrite <-Hm. apply H. lia.
Qed.

Lemma binary_round_rounds (s : bool) (M : positive) (e : Z) :
  -1074 <= e →
  ∃ m1, rounds_to s (fexp prec emax (Zpos (digits2_pos M) + e)) m1
                  (binary_round prec emax s M e).
Proof.
  intros He.
  set (f := fexp prec emax (Zpos (digits2_pos M) + e)).
  destruct (Z.lt_ge_cases f e) as [Hf|Hf].
  - eexists. by apply binary_round_shl.
  - eexists. apply binary_round_shr; [done|].
    fold f. pose proof (digits2_pos_bounds M) as [Hd _].
    apply Z.lt_le_trans with 1; [lia|].
    apply Z.div_le_lower_bound; [apply Z.pow_pos_nonneg; lia|].
    rewrite Z.mul_1_r. etrans; [|exact Hd].
    apply Z.pow_le_mono_r; [lia|]. unfold f. rewrite fexp_eq. lia.
Qed.

Lemma rounds_to_not_nan (s : bool) (e1 m1 : Z) (r : float) :
  rounds_to s e1 m1 r → r ≠ S754_nan.
Proof. intros (m3 & e3 & -> & _). by destruct (e3 <=? emax - prec). Qed.

Lemma binary_round_nonzero (s : bool) (M : positive) (e : Z) :
  -1074 <= e →
  feq (binary_round prec emax s M e) (S754_zero false) = false.
Proof.
  intros He. destruct (binary_round_rounds s M e He) as (m1 & H).
  by eapply rounds_to_nonzero.
Qed.

(** Validity of a finite float *)
Lemma valid_finite (s : bool) (m : positive) (e : Z) :
  is_valid (S754_finite s m e) = true →
  e = Z.max (Zpos (digits2_pos m) + e - 53) (-1074) ∧ e <= 971.
Proof.
  unfold is_valid, valid_binary, bounded, canonical_mantissa.
  rewrite fexp_eq. intros [H1 H2]%andb_prop.
  apply Z.eqb_eq in H1. apply Z.leb_le in H2. unfold emax, prec in H2. lia.
Qed.

Lemma shl_align_fst (m : positive) (e ez : Z) :
  ez <= e → Zpos (fst (shl_align m e ez)) = Zpos m * 2 ^ (e - ez).
Proof.
  intros H. destruct (Z.eq_dec ez e) as [->|Hne].
  - rewrite (proj2 (shl_align_spec m e e)) by lia.
    cbn [fst]. rewrite Z.sub_diag. lia.
  - assert (Hlt : ez < e) by lia.
    by destruct (proj1 (shl_align_spec m e ez) Hlt) as [-> _].
Qed.

Lemma same_value_same_float (mx my : positive) (ex ey ez : Z) :
  is_valid (S754_finite false mx ex) = true →
  is_valid (S754_finite false my ey) = true →
  ez <= ex → ez <= ey →
  Zpos mx * 2 ^ (ex - ez) = Zpos my * 2 ^ (ey - ez) →
  mx = my ∧ ex = ey.
Proof.
  intros [Hx _]%valid_finite [Hy _]%valid_finite Hex Hey H.
  assert (Hpx : 0 < Zpos mx * 2 ^ (ex - ez))
    by (apply Z.mul_pos_pos; [lia|apply Z.pow_pos_nonneg; lia]).
  destruct (Zpos mx * 2 ^ (ex - ez)) as [|p|p] eqn:Hp; [lia| |lia].
  pose proof (digits2_pos_shift mx p (ex - ez)) as Hdx.
  pose proof (digits2_pos_shift my p (ey - ez)) as Hdy.
  rewrite Hdx in Hdy by (lia || done).
  assert (Hd : Zpos (digits2_pos mx) + ex = Zpos (digits2_pos my) + ey).
  { assert (Zpos (digits2_pos mx) + (ex - ez) = Zpos (digits2_pos my) + (ey - ez))
      by (apply Hdy; lia). lia. }
  assert (He : ex = ey) by lia. subst ey. split; [|done].
  assert (0 < 2 ^ (ex - ez)) by (apply Z.pow_pos_nonneg; lia).
  assert (Zpos mx = Zpos my) by nia. congruence.
Qed.

Lemma fsub_finite_zero (sx sy : bool) (mx my : positive) (ex ey : Z) :
  is_valid (S754_finite sx mx ex) = true →
  is_valid (S754_finite sy my ey) = true →
  feq (fsub (S754_finite sx mx ex) (S754_finite sy my ey)) (S754_zero false)
    = true →
  sx = sy ∧ mx = my ∧ ex = ey.
Proof.
  intros Hvx Hvy. unfold fsub, SFsub.
  set (ez := Z.min ex ey).
  rewrite !shl_align_fst by lia.
  pose proof (valid_finite _ _ _ Hvx) as [Hex _].
  pose proof (valid_finite _ _ _ Hvy) as [Hey _].
  assert (HX : 0 < Zpos mx * 2 ^ (ex - ez))
    by (apply Z.mul_pos_pos; [lia|apply Z.pow_pos_nonneg; lia]).
  assert (HY : 0 < Zpos my * 2 ^ (ey - ez))
    by (apply Z.mul_pos_pos; [lia|apply Z.pow_pos_nonneg; lia]).
  destruct (cond_Zopp sx (Zpos mx * 2 ^ (ex - ez)) -
            cond_Zopp sy (Zpos my * 2 ^ (ey - ez))) as [|p|p] eqn:HD;
    cbn [binary_normalize].
  - intros _.
    assert (sx = sy ∧ Zpos mx * 2 ^ (ex - ez) = Zpos my * 2 ^ (ey - ez))
      as [-> HXY] by (destruct sx, sy; cbn [cond_Zopp] in HD; lia).
    split; [done|].
    eapply (same_value_same_float mx my ex ey ez); try done; try lia.
  - rewrite binary_round_nonzero by lia. done.
  - rewrite binary_round_nonzero by lia. done.
Qed.

(** Comparisons *)
Lemma feq_same_side (a b lat : float) :
  feq a b = true → fgt a lat = fgt b lat.
Proof.
  unfold feq, fgt, SFeqb, SFltb.
  destruct a as [sa|sa| |sa ma ea], b as [sb|sb| |sb mb eb];
    cbn [SFcompare]; try discriminate; try (by destruct lat);
    try (by destruct sa, sb); try (by destruct sa); try (by destruct sb).
  destruct sa, sb; try discriminate;
    destruct (ea ?= eb) eqn:He; try discriminate;
    apply Z.compare_eq in He; subst eb;
    rewrite Pos.compare_cont_spec; cbn [Pos.switch_Eq];
    destruct (ma ?= mb)%positive eqn:Hm; try discriminate;
    apply Pos.compare_eq in Hm; by subst mb.
Qed.

Lemma fsub_zero_same_side (yi yj lat : float) :
  is_valid yi = true → is_valid yj = true →
  feq (fsub yj yi) (S754_zero false) = true →
  fgt yi lat = fgt yj lat.
Proof.
  intros Hi Hj H.
  destruct yj as [sj|sj| |sj mj ej], yi as [si|si| |si mi ei];
    try (by destruct sj, si); try (by destruct sj); try (by destruct si);
    try done.
  apply fsub_finite_zero in H as (-> & -> & ->); done.
Qed.

(** *** The containment test never raises *)

Lemma crossing_degenerate (lat lon : float) (vi vj : vertex) :
  feq vi.1 vj.1 = true → crossing lat lon vi vj = Ok false.
Proof.
  destruct vi as [yi xi], vj as [yj xj]. cbn [fst]. intros H.
  unfold crossing. rewrite (feq_same_side yi yj lat H).
  by rewrite eqb_reflx.
Qed.

Lemma crossing_total (lat lon : float) (vi vj : vertex) :
  is_valid vi.1 = true → is_valid vj.1 = true →
  ∃ b, crossing lat lon vi vj = Ok b.
Proof.
  destruct vi as [yi xi], vj as [yj xj]. cbn [fst]. intros Hi Hj.
  unfold crossing.
  destruct (eqb (fgt yi lat) (fgt yj lat)) eqn:Hc; cbn [negb]; [by eexists|].
  unfold fdiv.
  destruct (feq (fsub yj yi) (S754_zero false)) eqn:Hz.
  - rewrite (fsub_zero_same_side yi yj lat Hi Hj Hz), eqb_reflx in Hc. done.
  - cbn. by eexists.
Qed.

Lemma edge_step_eq (lat lon : float) (polygon : list vertex)
    (inside : bool) (i j : nat) (vi vj : vertex) (c : bool) :
  polygon !! i = Some vi → polygon !! j = Some vj →
  crossing lat lon vi vj = Ok c →
  edge_step lat lon polygon (inside, j) i
    = Ok (if c then negb inside else inside, i).
Proof.
  intros Hi Hj Hc. unfold edge_step, index. rewrite Hi, Hj. cbn.
  rewrite Hc. done.
Qed.

Lemma for_each_edges_total (lat lon : float) (polygon : list vertex) :
  Forall (λ v, is_valid v.1 = true) polygon →
  ∀ (l : list nat) (st : bool * nat),
    Forall (λ i, (i < length polygon)%nat) l →
    (l ≠ [] → (st.2 < length polygon)%nat) →
    ∃ st', for_each (edge_step lat lon polygon) st l = Ok st'.
Proof.
  intros Hv l. induction l as [|i l IH]; intros [inside j] Hl Hj.
  - by eexists.
  - apply Forall_cons in Hl as [Hi Hl]. cbn [snd] in Hj.
    destruct (lookup_lt_is_Some_2 polygon i Hi) as [vi Hvi].
    destruct (lookup_lt_is_Some_2 polygon j) as [vj Hvj]; [by apply Hj|].
    destruct (crossing_total lat lon vi vj) as [c Hc].
    { eapply Forall_lookup_1 in Hv; [|exact Hvi]. done. }
    { eapply Forall_lookup_1 in Hv; [|exact Hvj]. done. }
    cbn [for_each]. rewrite (edge_step_eq _ _ _ _ _ _ vi vj c) by done.
    apply IH; [done|]. intros _. done.
Qed.

Lemma point_in_polygon_total (lat lon : float) (polygon : list vertex) :
  Forall (λ v, is_valid v.1 = true) polygon →
  ∃ b, point_in_polygon lat lon polygon = Ok b.
Proof.
  intros Hv. unfold point_in_polygon.
  destruct (for_each_edges_total lat lon polygon Hv
              (seq 0 (length polygon)) (false, (length polygon - 1)%nat))
    as [st Hst].
  - apply Forall_forall. intros i Hi%elem_of_seq. lia.
  - cbn [snd]. destruct polygon; [done|]. cbn [length]. lia.
  - rewrite Hst. cbn. by eexists.
Qed.

Lemma point_in_any_polygon_total (lat lon : float)
    (polygons : list (list vertex)) :
  Forall (Forall (λ v, is_valid v.1 = true)) polygons →
  ∃ b, point_in_any_polygon lat lon polygons = Ok b.
Proof.
  induction 1 as [|poly rest Hp _ IH]; [by eexists|].
  cbn [point_in_any_polygon].
  destruct (point_in_polygon_total lat lon poly Hp) as [b ->]. cbn.
  destruct b; [by eexists|done].
Qed.

(** *** The scan variables advance *)

Lemma fadd_progress (E : Z) (m : positive) (y : float) :
  -1074 <= E → 2 ^ 52 <= Zpos m → ge_pow2 E y = true →
  fadd (S754_finite false m E) y = S754_infinity false ∨
  ∃ m' e', fadd (S754_finite false m E) y = S754_finite false m' e'
           ∧ (E < e' ∨ (e' = E ∧ Zpos m < Zpos m')).
Proof.
  intros HE Hm Hy.
  destruct y as [sy|[]| |[] my ey]; try discriminate; [by left|].
  cbn [ge_pow2] in Hy. apply Z.leb_le in Hy.
  unfold fadd, SFadd. set (ez := Z.min E ey).
  rewrite !shl_align_fst by lia. cbn [cond_Zopp].
  assert (HX : 0 < Zpos m * 2 ^ (E - ez))
    by (apply Z.mul_pos_pos; [lia|apply Z.pow_pos_nonneg; lia]).
  assert (HY : 2 ^ (E - ez) <= Zpos my * 2 ^ (ey - ez)).
  { destruct (Z.le_ge_cases E ey) as [Hle|Hle].
    - replace (E - ez) with 0 by lia. rewrite Z.pow_0_r.
      assert (0 < 2 ^ (ey - ez)) by (apply Z.pow_pos_nonneg; lia). nia.
    - replace (ey - ez) with 0 by lia. replace (E - ez) with (E - ey) by lia.
      lia. }
  assert (Hk : 0 < 2 ^ (E - ez)) by (apply Z.pow_pos_nonneg; lia).
  destruct (Zpos m * 2 ^ (E - ez)) as [|X|X] eqn:HXe; [lia| |lia].
  destruct (Zpos X + Zpos my * 2 ^ (ey - ez)) as [|p|p] eqn:Hp; [lia| |lia].
  cbn [binary_normalize].
  (* the sum has at least 53 + E - ez digits *)
  assert (Hdm : 53 <= Zpos (digits2_pos m)).
  { pose proof (digits2_pos_bounds m) as [_ Hu].
    destruct (Z.le_gt_cases 53 (Zpos (digits2_pos m))) as [|Hlt]; [done|].
    assert (2 ^ Zpos (digits2_pos m) <= 2 ^ 52)
      by (apply Z.pow_le_mono_r; lia). lia. }
  assert (HdX : Zpos (digits2_pos X) = Zpos (digits2_pos m) + (E - ez))
    by (apply digits2_pos_shift; [lia|done]).
  assert (Hdp : Zpos (digits2_pos X) <= Zpos (digits2_pos p))
    by (apply digits2_pos_le; lia).
  set (d := Zpos (digits2_pos p)) in *.
  assert (Hf : fexp prec emax (d + ez) = d + ez - 53)
    by (rewrite fexp_eq; lia).
  pose proof (digits2_pos_bounds p) as [Hlp _]. fold d in Hlp.
  assert (Hm1 : 1 <= Zpos p / 2 ^ (d + ez - 53 - ez)).
  { apply Z.div_le_lower_bound; [apply Z.pow_pos_nonneg; lia|].
    rewrite Z.mul_1_r. etrans; [|exact Hlp]. apply Z.pow_le_mono_r; lia. }
  pose proof (binary_round_shr false p ez) as Hr. cbv zeta in Hr.
  fold d in Hr. rewrite Hf in Hr.
  destruct Hr as (m3 & e3 & Hr & He3 & Hm3 & _); [lia|lia|].
  rewrite Hr. destruct (e3 <=? emax - prec); [|by left].
  right. exists m3, e3. split; [done|].
  destruct (Z.eq_dec e3 E) as [->|Hne]; [|left; lia].
  right. split; [done|].
  assert (Hd53 : d + ez - 53 = E) by lia.
  specialize (Hm3 (eq_sym Hd53)). rewrite Hd53 in Hm3.
  apply Z.lt_le_trans with (Zpos m + 1); [lia|].
  etrans; [|exact Hm3].
  apply Z.div_le_lower_bound; [done|]. nia.
Qed.

Lemma fle_finite_same_exp (m m' : positive) (E : Z) :
  fle (S754_finite false m E) (S754_finite false m' E) = true →
  Zpos m <= Zpos m'.
Proof.
  unfold fle, SFleb. cbn [SFcompare]. rewrite Z.compare_refl.
  rewrite Pos.compare_cont_spec. cbn [Pos.switch_Eq].
  destruct (Pos.compare_spec m m') as [->|Hc|Hc]; try discriminate;
    intros _; lia.
Qed.

Lemma fle_finite_gt_exp (m m' : positive) (e E : Z) :
  E < e → fle (S754_finite false m e) (S754_finite false m' E) = false.
Proof.
  intros H. unfold fle, SFleb. cbn [SFcompare].
  destruct (e ?= E) eqn:Hc; [| |done].
  - apply Z.compare_eq in Hc. lia.
  - rewrite Z.compare_lt_iff in Hc. lia.
Qed.

Lemma scanned_terminates (E : Z) (mmax : positive) (step : float) :
  -1074 <= E → ge_pow2 E step = true →
  ∀ (k fuel : nat) (m : positive),
    2 ^ 52 <= Zpos m → Zpos mmax + 1 - Zpos m <= Z.of_nat k →
    (k < fuel)%nat →
    is_Some (scanned fuel step (S754_finite false m E)
                     (S754_finite false mmax E)).
Proof.
  intros HE Hstep k. induction k as [|k IH]; intros fuel m Hm Hk Hfuel;
    (destruct fuel as [|fuel]; [lia|]); cbn [scanned].
  - destruct (fle _ _) eqn:Hle; [|done].
    apply fle_finite_same_exp in Hle. lia.
  - destruct (fle _ _) eqn:Hle; [|done].
    apply fle_finite_same_exp in Hle.
    destruct (fadd_progress E m step HE Hm Hstep)
      as [->|(m' & e' & -> & [He'|[-> Hm']])].
    + destruct fuel as [|fuel]; [lia|]. done.
    + destruct fuel as [|fuel]; [lia|]. cbn [scanned].
      by rewrite fle_finite_gt_exp.
    + destruct (IH fuel m') as [l ->]; [lia|lia|lia|]. done.
Qed.

(** *** The order on floats *)

Lemma pos_compare_cont_Eq (m m' : positive) :
  Pos.compare_cont Eq m m' = (m ?= m')%positive.
Proof. reflexivity. Qed.

Ltac order_cases :=
  repeat match goal with
  | |- context [Pos.compare_cont Eq ?a ?b] =>
      rewrite (pos_compare_cont_Eq a b);
      destruct (Pos.compare_spec a b); subst
  | H : context [Pos.compare_cont Eq ?a ?b] |- _ =>
      rewrite (pos_compare_cont_Eq a b) in H;
      destruct (Pos.compare_spec a b); subst
  | |- context [Z.compare ?a ?b] => destruct (Z.compare_spec a b); subst
  | H : context [Z.compare ?a ?b] |- _ => destruct (Z.compare_spec a b); subst
  end;
  cbn in *; try done; try lia.

Lemma flt_asym (a b : float) : flt a b = true → flt b a = false.
Proof.
  unfold flt, SFltb.
  destruct a as [sa|sa| |sa ma ea], b as [sb|sb| |sb mb eb];
    cbn [SFcompare]; try done;
    try (by destruct sa, sb); try (by destruct sa); try (by destruct sb).
  destruct sa, sb; try done; order_cases.
Qed.

Lemma flt_trans (a b c : float) :
  flt a b = true → flt b c = true → flt a c = true.
Proof.
  unfold flt, SFltb.
  destruct a as [sa|sa| |sa ma ea], b as [sb|sb| |sb mb eb],
           c as [sc|sc| |sc mc ec];
    cbn [SFcompare]; try done;
    try (by destruct sa, sb, sc); try (by destruct sa, sb);
    try (by destruct sa, sc); try (by destruct sb, sc);
    try (by destruct sa); try (by destruct sb); try (by destruct sc).
  destruct sa, sb, sc; try done; order_cases.
Qed.

(** *** Vertical and horizontal edges *)

Lemma fsub_diag (x : float) :
  is_finite x = true → fsub x x = S754_zero false.
Proof.
  destruct x as [[]|s| |s m e]; try done. intros _.
  unfold fsub, SFsub. by rewrite Z.sub_diag.
Qed.

Lemma fsub_not_nan (a b : float) :
  is_valid a = true → is_valid b = true →
  is_finite a = true → is_finite b = true →
  fsub a b ≠ S754_nan.
Proof.
  intros Ha Hb Hfa Hfb.
  destruct a as [sa|sa| |sa ma ea], b as [sb|sb| |sb mb eb]; try done.
  - by destruct sa, sb.
  - apply valid_finite in Ha as [Ha _]. apply valid_finite in Hb as [Hb _].
    unfold fsub, SFsub.
    destruct (cond_Zopp sa _ - cond_Zopp sb _) as [|p|p];
      cbn [binary_normalize]; [done|..].
    + destruct (binary_round_rounds false p (Z.min ea eb)) as (m1 & H);
        [lia|]. by eapply rounds_to_not_nan.
    + destruct (binary_round_rounds true p (Z.min ea eb)) as (m1 & H);
        [lia|]. by eapply rounds_to_not_nan.
Qed.

(** A difference of numbers below [2^1022] does not overflow. *)
Lemma fsub_below_2_1022 (a b : float) :
  is_valid a = true → is_valid b = true →
  below_2_1022 a = true → below_2_1022 b = true →
  is_finite (fsub a b) = true.
Proof.
  intros Ha Hb Hsa Hsb.
  destruct a as [sa|sa| |sa ma ea], b as [sb|sb| |sb mb eb]; try done.
  - by destruct sa, sb.
  - cbn [below_2_1022] in Hsa, Hsb. apply Z.leb_le in Hsa, Hsb.
    apply valid_finite in Ha as [Ha _]. apply valid_finite in Hb as [Hb _].
    pose proof (digits2_pos_bounds ma) as [_ Hua].
    pose proof (digits2_pos_bounds mb) as [_ Hub].
    unfold fsub, SFsub. set (ez := Z.min ea eb).
    rewrite !shl_align_fst by lia.
    assert (HX : 0 < Zpos ma * 2 ^ (ea - ez) < 2 ^ (1022 - ez)).
    { assert (0 < 2 ^ (ea - ez)) by (apply Z.pow_pos_nonneg; lia).
      split; [lia|].
      apply Z.lt_le_trans with (2 ^ Zpos (digits2_pos ma) * 2 ^ (ea - ez));
        [nia|].
      rewrite <-Z.pow_add_r by lia. apply Z.pow_le_mono_r; lia. }
    assert (HY : 0 < Zpos mb * 2 ^ (eb - ez) < 2 ^ (1022 - ez)).
    { assert (0 < 2 ^ (eb - ez)) by (apply Z.pow_pos_nonneg; lia).
      split; [lia|].
      apply Z.lt_le_trans with (2 ^ Zpos (digits2_pos mb) * 2 ^ (eb - ez));
        [nia|].
      rewrite <-Z.pow_add_r by lia. apply Z.pow_le_mono_r; lia. }
    set (X := Zpos ma * 2 ^ (ea - ez)) in *.
    set (Y := Zpos mb * 2 ^ (eb - ez)) in *.
    clearbody X Y. clear Hua Hub.
    assert (Hp : ∀ (s : bool) (p : positive),
              Zpos p < 2 ^ (1023 - ez) →
              is_finite (binary_round prec emax s p ez) = true).
    { intros s p Hlt.
      destruct (binary_round_rounds s p ez) as (m1 & m3 & e3 & -> & _ & _ & _ & He3);
        [lia|].
      pose proof (digits2_pos_bounds p) as [Hl _].
      assert (Hd : Zpos (digits2_pos p) <= 1023 - ez).
      { destruct (Z.le_gt_cases (Zpos (digits2_pos p)) (1023 - ez)) as [|Hgt];
          [done|].
        assert (2 ^ (1023 - ez) <= 2 ^ (Zpos (digits2_pos p) - 1))
          by (apply Z.pow_le_mono_r; lia). lia. }
      rewrite fexp_eq in He3.
      replace (e3 <=? emax - prec) with true; [done|].
      symmetry. apply Z.leb_le. unfold emax, prec. lia. }
    assert (H2 : 2 ^ (1023 - ez) = 2 * 2 ^ (1022 - ez)).
    { replace (1023 - ez) with (Z.succ (1022 - ez)) by lia.
      apply Z.pow_succ_r. lia. }
    destruct (cond_Zopp sa X - cond_Zopp sb Y) as [|p|p] eqn:HD;
      cbn [binary_normalize]; [done|apply Hp|apply Hp];
      destruct sa, sb; cbn [cond_Zopp] in HD; lia.
Qed.

Lemma crossing_same_lat (lat lon y xi xj : float) :
  crossing lat lon (y, xi) (y, xj) = Ok false.
Proof. unfold crossing. by rewrite eqb_reflx. Qed.

(** On a vertical edge the interpolated longitude is the longitude of the
    edge, as long as the latitude difference to the point is finite. *)
Lemma crossing_vertical (lat lon yi yj x : float) :
  is_valid yi = true → is_valid yj = true →
  is_finite yi = true → is_finite yj = true → is_finite x = true →
  is_finite (fsub lat yi) = true →
  crossing lat lon (yi, x) (yj, x)
    = Ok (negb (eqb (fgt yi lat) (fgt yj lat)) && flt lon x).
Proof.
  intros Hvi Hvj Hfi Hfj Hfx Hd. unfold crossing.
  destruct (eqb (fgt yi lat) (fgt yj lat)) eqn:Hc; cbn [negb andb]; [done|].
  unfold fdiv.
  destruct (feq (fsub yj yi) (S754_zero false)) eqn:Hz.
  { rewrite (fsub_zero_same_side yi yj lat Hvi Hvj Hz), eqb_reflx in Hc.
    done. }
  cbn [mbind outcome_bind bind]. f_equal.
  rewrite (fsub_diag x Hfx).
  pose proof (fsub_not_nan yj yi Hvj Hvi Hfj Hfi) as Hn.
  destruct (fsub lat yi) as [s1|s1| |s1 m1 e1]; try done;
    destruct (fsub yj yi) as [s2|s2| |s2 m2 e2]; try done;
    destruct x as [sx|sx| |sx mx ex]; try done;
    destruct lon as [sl|sl| |sl ml el]; try done;
    by destruct s1, s2, sx.
Qed.

Lemma point_in_polygon_4 (lat lon : float) (v0 v1 v2 v3 : vertex)
    (c0 c1 c2 c3 : bool) :
  crossing lat lon v0 v3 = Ok c0 → crossing lat lon v1 v0 = Ok c1 →
  crossing lat lon v2 v1 = Ok c2 → crossing lat lon v3 v2 = Ok c3 →
  point_in_polygon lat lon [v0; v1; v2; v3]
    = Ok (xorb (xorb (xorb c0 c1) c2) c3).
Proof.
  intros H0 H1 H2 H3. unfold point_in_polygon.
  cbn [length seq for_each Nat.sub].
  rewrite (edge_step_eq _ _ _ _ 0 3 v0 v3 c0) by done.
  cbn [mbind outcome_bind bind].
  rewrite (edge_step_eq _ _ _ _ 1 0 v1 v0 c1) by done.
  cbn [mbind outcome_bind bind].
  rewrite (edge_step_eq _ _ _ _ 2 1 v2 v1 c2) by done.
  cbn [mbind outcome_bind bind].
  rewrite (edge_step_eq _ _ _ _ 3 2 v3 v2 c3) by done.
  cbn [mbind outcome_bind bind fst]. by destruct c0, c1, c2, c3.
Qed.

Lemma rectangle_ring_test (y0 y1 x0 x1 lat lon : float)
    (k : nat) (backwards : bool) :
  is_valid y0 = true → is_valid y1 = true →
  is_finite y0 = true → is_finite y1 = true →
  is_finite x0 = true → is_finite x1 = true →
  is_finite (fsub lat y0) = true → is_finite (fsub lat y1) = true →
  point_in_polygon lat lon (ring k backwards (rectangle y0 y1 x0 x1))
    = Ok (negb (eqb (fgt y0 lat) (fgt y1 lat))
          && xorb (flt lon x0) (flt lon x1)).
Proof.
  intros Hv0 Hv1 Hf0 Hf1 Hfx0 Hfx1 Hd0 Hd1.
  unfold ring, rectangle, rotate.
  assert (Hk : (k `mod` 4 < 4)%nat) by (apply Nat.mod_upper_bound; lia).
  destruct backwards; cbn [reverse rev_append length];
    destruct (k `mod` 4)%nat as [|[|[|[|r]]]]; try lia;
    cbn [drop take app];
    (erewrite point_in_polygon_4;
       [|first [apply crossing_same_lat | by apply crossing_vertical]..]);
    f_equal;
    by destruct (fgt y0 lat), (fgt y1 lat), (flt lon x0), (flt lon x1).
Qed.

(** *** A lower bound on a quotient *)

Lemma SFdiv_core_binary_spec (m1 m2 : positive) (e1 e2 : Z) :
  ∃ l,
    let e' := Z.min (fexp prec emax (Zpos (digits2_pos m1) + e1
                                     - (Zpos (digits2_pos m2) + e2)))
                    (e1 - e2) in
    SFdiv_core_binary prec emax (Zpos m1) e1 (Zpos m2) e2
      = (Zpos m1 * 2 ^ (e1 - e2 - e') / Zpos m2, e', l).
Proof.
  unfold SFdiv_core_binary. cbn [Zdigits2].
  set (e' := Z.min _ _).
  assert (Hs : 0 <= e1 - e2 - e') by (subst e'; lia).
  set (m' := match e1 - e2 - e' with
             | 0 => Zpos m1
             | Zpos _ => Z.shiftl (Zpos m1) (e1 - e2 - e')
             | Zneg _ => 0
             end).
  assert (Hm' : m' = Zpos m1 * 2 ^ (e1 - e2 - e')).
  { subst m'. destruct (e1 - e2 - e') as [|p|p] eqn:Hsp; [|  |lia].
    - rewrite Z.pow_0_r. lia.
    - by rewrite Z.shiftl_mul_pow2 by lia. }
  unfold Z.div. rewrite <-Hm'.
  destruct (Z.div_eucl m' (Zpos m2)) as [q r]. by eexists.
Qed.

Lemma pow2_split (a b : Z) : 0 <= a → 0 <= b → 2 ^ (a + b) = 2 ^ a * 2 ^ b.
Proof. intros. by rewrite Z.pow_add_r. Qed.

(** The quotient of [ms * 2^es] by [mD * 2^eD] is at least [2^E] when the
    dividend is at least [2^E] times the divisor. *)
Lemma SFdiv_ge_pow2 (E : Z) (ms mD : positive) (es eD : Z) :
  -1074 <= E →
  Zpos mD * 2 ^ Z.max 0 (E + eD - es) <= Zpos ms * 2 ^ Z.max 0 (es - eD - E) →
  ge_pow2 E (SFdiv prec emax (S754_finite false ms es) (S754_finite false mD eD))
    = true.
Proof.
  intros HE Hv. cbn [SFdiv xorb].
  destruct (SFdiv_core_binary_spec ms mD es eD) as [l Hcore].
  cbv zeta in Hcore. rewrite Hcore. clear Hcore. rewrite fexp_eq.
  pose proof (digits2_pos_bounds ms) as [Hsl _].
  pose proof (digits2_pos_bounds mD) as [_ HDu].
  set (ds := Zpos (digits2_pos ms)) in *.
  set (dD := Zpos (digits2_pos mD)) in *.
  assert (Hds : 1 <= ds) by (subst ds; lia).
  assert (HdD : 1 <= dD) by (subst dD; lia).
  clearbody ds dD.
  set (e' := Z.min (Z.max (ds + es - (dD + eD) - 53) (-1074)) (es - eD)).
  assert (He' : e' <= es - eD) by (subst e'; lia).
  assert (Hfe : E < e' → e' <= ds + es - (dD + eD) - 53) by (subst e'; lia).
  clearbody e'.
  set (q := Zpos ms * 2 ^ (es - eD - e') / Zpos mD).
  (* the quotient mantissa is large enough *)
  assert (Hq1 : e' <= E → 2 ^ (E - e') <= q).
  { clear Hfe Hsl HDu. intros Hle. apply Z.div_le_lower_bound; [lia|].
    destruct (Z.le_ge_cases 0 (es - eD - E)) as [Ht|Ht].
    - rewrite (Z.max_l 0 (E + eD - es)), (Z.max_r 0 (es - eD - E)) in Hv by lia.
      rewrite Z.pow_0_r in Hv.
      replace (es - eD - e') with ((es - eD - E) + (E - e')) by lia.
      rewrite pow2_split by lia.
      assert (0 < 2 ^ (E - e')) by (apply Z.pow_pos_nonneg; lia). nia.
    - rewrite (Z.max_r 0 (E + eD - es)), (Z.max_l 0 (es - eD - E)) in Hv by lia.
      rewrite Z.pow_0_r in Hv.
      replace (E - e') with ((E + eD - es) + (es - eD - e')) by lia.
      rewrite pow2_split by lia.
      assert (0 < 2 ^ (es - eD - e')) by (apply Z.pow_pos_nonneg; lia). nia. }
  clear Hv.
  assert (Hq2 : E < e' → 2 ^ 52 <= q).
  { clear Hq1. intros Hlt. specialize (Hfe Hlt).
    apply Z.div_le_lower_bound; [lia|].
    assert (Hp : 2 ^ (dD + 52) <= Zpos ms * 2 ^ (es - eD - e')).
    { etrans; [|apply Z.mul_le_mono_nonneg_r; [|exact Hsl]];
        [|apply Z.pow_nonneg; lia].
      rewrite <-Z.pow_add_r by lia. apply Z.pow_le_mono_r; lia. }
    etrans; [|exact Hp]. rewrite pow2_split by lia.
    apply Z.mul_le_mono_nonneg_r; lia. }
  clear Hfe Hsl HDu Hds HdD He'.
  assert (Hq : 1 <= q).
  { destruct (Z.le_gt_cases e' E) as [H|H].
    - etrans; [|by apply Hq1].
      assert (0 < 2 ^ (E - e')) by (apply Z.pow_pos_nonneg; lia). lia.
    - etrans; [|by apply Hq2]. lia. }
  clearbody q.
  destruct q as [|qp|qp]; [lia| |lia]. clear Hq.
  pose proof (digits2_pos_bounds qp) as [Hql Hqu].
  pose proof (binary_round_aux_pos false qp e' l) as Hr. cbv zeta in Hr.
  rewrite fexp_eq in Hr.
  set (dq := Zpos (digits2_pos qp)) in *.
  assert (Hdq0 : 1 <= dq) by (subst dq; lia).
  clearbody dq.
  assert (Hdq1 : e' <= E → E - e' + 1 <= dq).
  { intros Hle. specialize (Hq1 Hle).
    destruct (Z.le_gt_cases (E - e' + 1) dq) as [|Hgt]; [done|].
    assert (2 ^ dq <= 2 ^ (E - e')) by (apply Z.pow_le_mono_r; lia). lia. }
  clear Hqu Hq2.
  set (e1 := Z.max e' (Z.max (dq + e' - 53) (-1074))) in *.
  assert (He1a : e' <= e1) by (subst e1; lia).
  assert (He1b : dq + e' - 53 <= e1) by (subst e1; lia).
  assert (He1c : e1 - e' <= dq - 1 ∨ e1 = -1074) by (subst e1; lia).
  clearbody e1.
  (* the mantissa after the first shift *)
  assert (Hm1a : e1 <= E → 2 ^ (E - e1) <= Zpos qp / 2 ^ (e1 - e')).
  { intros H1. apply Z.div_le_lower_bound; [apply Z.pow_pos_nonneg; lia|].
    rewrite <-Z.pow_add_r by lia.
    replace (e1 - e' + (E - e1)) with (E - e') by lia. apply Hq1. lia. }
  assert (Hm1b : 1 <= Zpos qp / 2 ^ (e1 - e')).
  { destruct (Z.le_gt_cases e1 E) as [H1|H1].
    - etrans; [|by apply Hm1a].
      assert (0 < 2 ^ (E - e1)) by (apply Z.pow_pos_nonneg; lia). lia.
    - apply Z.div_le_lower_bound; [apply Z.pow_pos_nonneg; lia|].
      rewrite Z.mul_1_r. etrans; [|exact Hql].
      apply Z.pow_le_mono_r; [lia|]. destruct He1c as [|He1c]; [done|].
      assert (Hle : e' <= E) by lia. specialize (Hdq1 Hle). lia. }
  clear Hq1 Hql He1c.
  destruct Hr as (m3 & e3 & -> & He3 & Hm3 & Hc & _); [lia|].
  destruct (e3 <=? emax - prec); [|done].
  cbn [ge_pow2]. apply Z.leb_le.
  destruct (Z.le_gt_cases (E - e3) 0) as [Hneg|Hpos].
  { destruct (Z.eq_dec (E - e3) 0) as [->|Hne]; [cbn; lia|].
    rewrite Z.pow_neg_r by lia. lia. }
  destruct (Z.eq_dec e3 e1) as [->|Hne].
  - specialize (Hm3 eq_refl). etrans; [|exact Hm3]. apply Hm1a. lia.
  - assert (Hlt : e1 < e3) by lia. specialize (Hc Hlt).
    etrans; [|exact Hc]. apply Z.pow_le_mono_r; [lia|].
    assert (Hle : e' <= E) by lia. specialize (Hdq1 Hle). lia.
Qed.



(** *** The scan and the values of its variables *)

Lemma POLYGONS_valid : Forall (Forall (λ v : vertex, is_valid v.1 = true)) POLYGONS.
Proof.
  unfold POLYGONS, MAIN_ISLAND, SENTOSA, JURONG_ISLAND, PULAU_UBIN,
    PULAU_TEKONG.
  repeat (apply Forall_cons; split); try apply Forall_nil;
    vm_compute; reflexivity.
Qed.

Lemma point_in_any_polygon_on_land (lat lon : float) :
  point_in_any_polygon lat lon POLYGONS = Ok (on_land lat lon).
Proof.
  unfold on_land.
  destruct (point_in_any_polygon_total lat lon POLYGONS POLYGONS_valid)
    as [b ->].
  by destruct b.
Qed.

Lemma row_points_cons (lat lon : float) (cols : list float) :
  row_points lat (lon :: cols) =
  (if on_land lat lon then [(py_round6 lat, py_round6 lon)] else [])
    ++ row_points lat cols.
Proof.
  unfold row_points. rewrite filter_cons.
  destruct (on_land lat lon).
  - by rewrite decide_True.
  - by rewrite decide_False.
Qed.

Lemma scan_row_scanned (step lat : float) (fuel : nat) :
  ∀ (lon : float) (points : list point) (cols : list float),
    scanned fuel step lon lon_max = Some cols →
    scan_row fuel step lat lon points = Ok (points ++ row_points lat cols).
Proof.
  induction fuel as [|fuel IH]; intros lon points cols; [done|].
  cbn [scanned scan_row]. destruct (fle lon lon_max).
  - destruct (scanned fuel step (fadd lon step) lon_max) as [cols'|] eqn:Hc;
      [|done].
    intros [= <-]. rewrite point_in_any_polygon_on_land.
    cbn [mbind outcome_bind bind].
    rewrite (IH _ _ cols' Hc), row_points_cons.
    destruct (on_land lat lon); [by rewrite <-app_assoc|done].
  - intros [= <-]. by rewrite app_nil_r.
Qed.

Lemma scan_rows_scanned (step_lat step_lon : float) (fuel : nat)
    (cols : list float) :
  scanned fuel step_lon lon_min lon_max = Some cols →
  ∀ (n : nat) (lat : float) (points : list point) (rows : list float),
    scanned n step_lat lat lat_max = Some rows →
    scan_rows fuel n step_lat step_lon lat points
      = Ok (points ++ concat (map (λ lat, row_points lat cols) rows)).
Proof.
  intros Hcols n. induction n as [|n IH]; intros lat points rows; [done|].
  cbn [scanned scan_rows]. destruct (fle lat lat_max).
  - destruct (scanned n step_lat (fadd lat step_lat) lat_max) as [rows'|] eqn:Hr;
      [|done].
    intros [= <-]. rewrite (scan_row_scanned _ _ _ _ _ cols Hcols).
    cbn [mbind outcome_bind bind].
    rewrite (IH _ _ rows' Hr). cbn [map concat]. by rewrite <-app_assoc.
  - intros [= <-]. by rewrite app_nil_r.
Qed.

Lemma lat_step_eq (spacing_m : float) :
  lat_step spacing_m = Ok (SFdiv prec emax spacing_m (of_Z 111320)).
Proof. reflexivity. Qed.

Lemma lon_step_eq (spacing_m : float) :
  lon_step spacing_m =
  Ok (SFdiv prec emax spacing_m (fmul (of_Z 111320) cos_lat_center)).
Proof. reflexivity. Qed.

Lemma generate_grid_scanned (fuel : nat) (spacing_m step_lat step_lon : float)
    (rows cols : list float) :
  lat_step spacing_m = Ok step_lat → lon_step spacing_m = Ok step_lon →
  scanned fuel step_lat lat_min lat_max = Some rows →
  scanned fuel step_lon lon_min lon_max = Some cols →
  generate_grid fuel spacing_m
    = Ok (concat (map (λ lat, row_points lat cols) rows)).
Proof.
  intros Hsl Hso Hrows Hcols. unfold generate_grid. rewrite Hsl, Hso.
  cbn [mbind outcome_bind bind].
  by rewrite (scan_rows_scanned _ _ _ cols Hcols _ _ _ rows Hrows).
Qed.

Lemma lat_min_eq : lat_min = S754_finite false 5404319552844595 (-52).
Proof. vm_compute. reflexivity. Qed.
Lemma lat_max_eq : lat_max = S754_finite false 6620291452234629 (-52).
Proof. vm_compute. reflexivity. Qed.
Lemma lon_min_eq : lon_min = S754_finite false 7289498209364214 (-46).
Proof. vm_compute. reflexivity. Qed.
Lemma lon_max_eq : lon_max = S754_finite false 7323275206569492 (-46).
Proof. vm_compute. reflexivity. Qed.

Lemma generate_grid_terminates (spacing_m step_lat step_lon : float) :
  lat_step spacing_m = Ok step_lat → lon_step spacing_m = Ok step_lon →
  ge_pow2 (-52) step_lat = true → ge_pow2 (-46) step_lon = true →
  ∃ fuel rows cols,
    scanned fuel step_lat lat_min lat_max = Some rows ∧
    scanned fuel step_lon lon_min lon_max = Some cols ∧
    generate_grid fuel spacing_m
      = Ok (concat (map (λ lat, row_points lat cols) rows)).
Proof.
  intros Hsl Hso Hlat Hlon.
  set (klat := Z.to_nat (6620291452234629 + 1 - 5404319552844595)).
  set (klon := Z.to_nat (7323275206569492 + 1 - 7289498209364214)).
  destruct (scanned_terminates (-52) 6620291452234629 step_lat
              ltac:(lia) Hlat klat (S klat) 5404319552844595)
    as [rows Hrows]; [lia|lia|lia|].
  destruct (scanned_terminates (-46) 7323275206569492 step_lon
              ltac:(lia) Hlon klon (S klat) 7289498209364214)
    as [cols Hcols]; [lia|lia|lia|].
  rewrite <-lat_min_eq, <-lat_max_eq in Hrows.
  rewrite <-lon_min_eq, <-lon_max_eq in Hcols.
  exists (S klat), rows, cols. split; [done|]. split; [done|].
  by apply (generate_grid_scanned _ _ step_lat step_lon).
Qed.

(** *** More fuel does not change a completed run *)

Lemma scan_row_fuel_mono (step lat : float) (fuel : nat) :
  ∀ (fuel' : nat) (lon : float) (points : list point),
    (fuel <= fuel')%nat →
    scan_row fuel step lat lon points ≠ OutOfFuel →
    scan_row fuel' step lat lon points = scan_row fuel step lat lon points.
Proof.
  induction fuel as [|fuel IH]; intros fuel' lon points Hle Hne; [done|].
  destruct fuel' as [|fuel']; [lia|].
  cbn [scan_row] in *. destruct (fle lon lon_max); [|done].
  destruct (point_in_any_polygon lat lon POLYGONS) as [b| |]; [|done..].
  cbn [mbind outcome_bind bind] in *. apply IH; [lia|done].
Qed.

Lemma scan_rows_fuel_mono (step_lat step_lon : float) (fuel fuel' : nat) :
  (fuel <= fuel')%nat →
  ∀ (n n' : nat) (lat : float) (points : list point),
    (n <= n')%nat →
    scan_rows fuel n step_lat step_lon lat points ≠ OutOfFuel →
    scan_rows fuel' n' step_lat step_lon lat points
      = scan_rows fuel n step_lat step_lon lat points.
Proof.
  intros Hfuel n. induction n as [|n IH]; intros n' lat points Hle Hne; [done|].
  destruct n' as [|n']; [lia|].
  cbn [scan_rows] in *. destruct (fle lat lat_max); [|done].
  destruct (scan_row fuel step_lon lat lon_min points) as [pts|e|] eqn:Hrow;
    [| |done].
  - rewrite (scan_row_fuel_mono _ _ fuel fuel') by (done || congruence).
    rewrite Hrow. cbn [mbind outcome_bind bind] in *. apply IH; [lia|done].
  - rewrite (scan_row_fuel_mono _ _ fuel fuel') by (done || congruence).
    by rewrite Hrow.
Qed.

Lemma generate_grid_fuel_mono (fuel fuel' : nat) (spacing_m : float) :
  (fuel <= fuel')%nat →
  generate_grid fuel spacing_m ≠ OutOfFuel →
  generate_grid fuel' spacing_m = generate_grid fuel spacing_m.
Proof.
  intros Hle. unfold generate_grid.
  destruct (lat_step spacing_m) as [sl| |]; [|done..].
  destruct (lon_step spacing_m) as [so| |]; [|done..].
  cbn [mbind outcome_bind bind]. by apply scan_rows_fuel_mono.
Qed.

(** *** Every output point is a rounded point of the land *)

Lemma scan_row_rounded_land (step lat : float) (fuel : nat) :
  fle lat lat_max = true →
  ∀ (lon : float) (points points' : list point),
    Forall rounded_land_point points →
    scan_row fuel step lat lon points = Ok points' →
    Forall rounded_land_point points'.
Proof.
  intros Hlat. induction fuel as [|fuel IH]; intros lon points points' Hp;
    [done|].
  cbn [scan_row]. destruct (fle lon lon_max) eqn:Hlon; [|by intros [= <-]].
  destruct (point_in_any_polygon lat lon POLYGONS) as [b| |] eqn:Hb; [|done..].
  cbn [mbind outcome_bind bind]. apply IH.
  destruct b; [|done]. apply Forall_app. split; [done|].
  apply Forall_singleton. by exists lat, lon.
Qed.

Lemma scan_rows_rounded_land (step_lat step_lon : float) (fuel n : nat) :
  ∀ (lat : float) (points points' : list point),
    Forall rounded_land_point points →
    scan_rows fuel n step_lat step_lon lat points = Ok points' →
    Forall rounded_land_point points'.
Proof.
  induction n as [|n IH]; intros lat points points' Hp; [done|].
  cbn [scan_rows]. destruct (fle lat lat_max) eqn:Hlat; [|by intros [= <-]].
  destruct (scan_row fuel step_lon lat lon_min points) as [pts| |] eqn:Hrow;
    [|done..].
  cbn [mbind outcome_bind bind]. apply IH.
  by eapply scan_row_rounded_land.
Qed.

(** *** A step of zero never leaves the first point *)




(** ** The claims about the grid generator *)





(** C4. For a polygon whose latitudes are binary64 numbers, the
    containment test returns a boolean for every point: no index is out of
    range and no division raises. The division of an edge is evaluated
    only when the two latitudes lie on different sides of the point, and
    then their difference is not zero; an edge whose two latitudes are
    equal leaves the inside flag as it is. *)
Theorem C4_point_in_polygon_total (lat lon : float) (polygon : list vertex) :
  Forall (λ v : vertex, is_valid v.1 = true) polygon →
  (∃ b, point_in_polygon lat lon polygon = Ok b) ∧
  (∀ vi vj, vi ∈ polygon → vj ∈ polygon →
     (∃ c, crossing lat lon vi vj = Ok c) ∧
     (fgt vi.1 lat ≠ fgt vj.1 lat →
      feq (fsub vj.1 vi.1) (S754_zero false) = false)) ∧
  (∀ inside i j vi vj,
     polygon !! i = Some vi → polygon !! j = Some vj →
     feq vi.1 vj.1 = true →
     edge_step lat lon polygon (inside, j) i = Ok (inside, i)).
Proof.
  intros Hv. split; [by apply point_in_polygon_total|]. split.
  - intros vi vj Hi Hj.
    assert (Hvi : is_valid vi.1 = true)
      by (rewrite Forall_forall in Hv; by apply Hv).
    assert (Hvj : is_valid vj.1 = true)
      by (rewrite Forall_forall in Hv; by apply Hv).
    split; [by apply crossing_total|].
    intros Hne. destruct (feq _ _) eqn:Hz; [|done].
    by apply (fsub_zero_same_side _ _ lat Hvi Hvj) in Hz.
  - intros inside i j vi vj Hi Hj Heq.
    by rewrite (edge_step_eq _ _ _ _ _ _ vi vj false)
      by (done || by apply crossing_degenerate).
Qed.

Lemma C4_point_in_polygon_total_witness :
  let polygon := [v 1000 0; v 1000 2000; v 3000 1000] in
  (∃ b, point_in_polygon (dec 15 1) (dec 1 0) polygon = Ok b) ∧
  (∀ vi vj, vi ∈ polygon → vj ∈ polygon →
     (∃ c, crossing (dec 15 1) (dec 1 0) vi vj = Ok c) ∧
     (fgt vi.1 (dec 15 1) ≠ fgt vj.1 (dec 15 1) →
      feq (fsub vj.1 vi.1) (S754_zero false) = false)) ∧
  (∀ inside i j vi vj,
     polygon !! i = Some vi → polygon !! j = Some vj →
     feq vi.1 vj.1 = true →
     edge_step (dec 15 1) (dec 1 0) polygon (inside, j) i = Ok (inside, i)).
Proof.
  apply (C4_point_in_polygon_total (dec 15 1) (dec 1 0)
           [v 1000 0; v 1000 2000; v 3000 1000]).
  repeat (apply Forall_cons; split); try apply Forall_nil;
    vm_compute; reflexivity.
Defined.

(** C5 (amended). For an axis-aligned rectangle with finite corners, in
    any of its eight ring orders, and a point whose latitude differences
    to the two latitudes of the rectangle are finite (they do not
    overflow), the test answers true when the point is strictly inside and
    false when it is strictly outside. *)
Theorem C5_rectangle_inside_outside (y0 y1 x0 x1 lat lon : float)
    (k : nat) (backwards : bool) :
  is_valid y0 = true → is_valid y1 = true →
  is_finite y0 = true → is_finite y1 = true →
  is_finite x0 = true → is_finite x1 = true →
  flt y0 y1 = true → flt x0 x1 = true →
  is_finite (fsub lat y0) = true → is_finite (fsub lat y1) = true →
  let polygon := ring k backwards (rectangle y0 y1 x0 x1) in
  (flt y0 lat = true → flt lat y1 = true →
   flt x0 lon = true → flt lon x1 = true →
   point_in_polygon lat lon polygon = Ok true) ∧
  (flt lat y0 = true ∨ flt y1 lat = true ∨
   flt lon x0 = true ∨ flt x1 lon = true →
   point_in_polygon lat lon polygon = Ok false).
Proof.
  intros Hv0 Hv1 Hf0 Hf1 Hfx0 Hfx1 Hy Hx Hd0 Hd1 polygon. subst polygon.
  rewrite rectangle_ring_test by done.
  change (fgt y0 lat) with (flt lat y0). change (fgt y1 lat) with (flt lat y1).
  split.
  - intros Hy0 Hy1 Hx0 Hx1.
    rewrite (flt_asym _ _ Hy0), Hy1, (flt_asym _ _ Hx0), Hx1. done.
  - intros [H|[H|[H|H]]].
    + rewrite H, (flt_trans _ _ _ H Hy). done.
    + rewrite (flt_asym _ _ H).
      destruct (flt lat y0) eqn:H0; [|done].
      pose proof (flt_trans _ _ _ H0 Hy) as H1.
      by rewrite (flt_asym _ _ H) in H1.
    + rewrite H, (flt_trans _ _ _ H Hx). by rewrite andb_false_r.
    + rewrite (flt_asym _ _ H).
      destruct (flt lon x0) eqn:H0; [|by rewrite andb_false_r].
      pose proof (flt_trans _ _ _ H0 Hx) as H1.
      by rewrite (flt_asym _ _ H) in H1.
Qed.

Lemma C5_rectangle_inside_outside_witness :
  let polygon := ring 1 true (rectangle (dec 1240 3) (dec 1252 3)
                                        (dec 103825 3) (dec 103860 3)) in
  (flt (dec 1240 3) (dec 1245 3) = true →
   flt (dec 1245 3) (dec 1252 3) = true →
   flt (dec 103825 3) (dec 103840 3) = true →
   flt (dec 103840 3) (dec 103860 3) = true →
   point_in_polygon (dec 1245 3) (dec 103840 3) polygon = Ok true) ∧
  (flt (dec 1245 3) (dec 1240 3) = true ∨
   flt (dec 1252 3) (dec 1245 3) = true ∨
   flt (dec 103840 3) (dec 103825 3) = true ∨
   flt (dec 103860 3) (dec 103840 3) = true →
   point_in_polygon (dec 1245 3) (dec 103840 3) polygon = Ok false).
Proof.
  apply (C5_rectangle_inside_outside (dec 1240 3) (dec 1252 3)
           (dec 103825 3) (dec 103860 3) (dec 1245 3) (dec 103840 3) 1 true);
    vm_compute; reflexivity.
Defined.

(** C5 (as stated) fails when a latitude difference overflows: the point
    (1.5 * 2^1023, 1) is strictly inside the rectangle with latitudes
    -2^1023 and 1.75 * 2^1023 and longitudes 0 and 2, and the test answers
    false. *)
Lemma C5_overflow_inside_false :
  let y0 := of_Z (- 2 ^ 1023) in
  let y1 := of_Z (7 * 2 ^ 1021) in
  let x0 := of_Z 0 in
  let x1 := of_Z 2 in
  let lat := of_Z (3 * 2 ^ 1022) in
  let lon := of_Z 1 in
  forallb is_valid [y0; y1; x0; x1; lat; lon] = true ∧
  forallb is_finite [y0; y1; x0; x1; lat; lon] = true ∧
  flt y0 lat = true ∧ flt lat y1 = true ∧
  flt x0 lon = true ∧ flt lon x1 = true ∧
  point_in_polygon lat lon [(y0, x0); (y1, x0); (y1, x1); (y0, x1)]
    = Ok false.
Proof. vm_compute. repeat split. Qed.

(** C7. Two runs of [generate_grid] on the same spacing that both finish
    give the same outcome: the same points in the same order. The function
    reads nothing but its argument and the constants of the module. *)
Theorem C7_generate_grid_deterministic (fuel1 fuel2 : nat) (spacing_m : float)
    (r1 r2 : outcome (list point)) :
  generate_grid fuel1 spacing_m = r1 → r1 ≠ OutOfFuel →
  generate_grid fuel2 spacing_m = r2 → r2 ≠ OutOfFuel →
  r1 = r2.
Proof.
  intros <- H1 <- H2.
  rewrite <-(generate_grid_fuel_mono fuel1 (fuel1 `max` fuel2)) by (lia || done).
  rewrite <-(generate_grid_fuel_mono fuel2 (fuel1 `max` fuel2)) by (lia || done).
  done.
Qed.

Lemma C7_generate_grid_deterministic_witness :
  generate_grid 100 (of_Z 5000) = generate_grid 200 (of_Z 5000).
Proof.
  apply (C7_generate_grid_deterministic 100 200 (of_Z 5000));
    try reflexivity; vm_compute; discriminate.
Defined.




(** ** Further properties of the grid generator *)

(** *** Some polygon contains the point *)

Lemma point_in_any_polygon_true (lat lon : float)
    (polygons : list (list vertex)) :
  Forall (Forall (λ v : vertex, is_valid v.1 = true)) polygons →
  point_in_any_polygon lat lon polygons = Ok true ↔
  ∃ poly, poly ∈ polygons ∧ point_in_polygon lat lon poly = Ok true.
Proof.
  induction 1 as [|poly rest Hp _ IH].
  - split; [done|]. intros (p & Hp & _). by apply elem_of_nil in Hp.
  - cbn [point_in_any_polygon].
    destruct (point_in_polygon_total lat lon poly Hp) as [b Hb].
    rewrite Hb. cbn [mbind outcome_bind bind]. destruct b.
    + split; [|done]. intros _. exists poly. split; [by left|done].
    + rewrite IH. split.
      * intros (p & Hin & Ht). exists p. split; [by right|done].
      * intros (p & Hin & Ht). apply elem_of_cons in Hin as [->|Hin].
        -- congruence.
        -- by exists p.
Qed.

(** X7. For polygons whose latitudes are binary64 numbers,
    [point_in_any_polygon] answers true exactly when the test of one of
    the polygons answers true, false exactly when the test of every
    polygon answers false, and its answer does not depend on the order in
    which the polygons are listed. *)
Theorem X7_point_in_any_polygon_exists (lat lon : float)
    (polygons : list (list vertex)) :
  Forall (Forall (λ v : vertex, is_valid v.1 = true)) polygons →
  (point_in_any_polygon lat lon polygons = Ok true ↔
   ∃ poly, poly ∈ polygons ∧ point_in_polygon lat lon poly = Ok true) ∧
  (point_in_any_polygon lat lon polygons = Ok false ↔
   ∀ poly, poly ∈ polygons → point_in_polygon lat lon poly = Ok false) ∧
  (∀ polygons', polygons ≡ₚ polygons' →
     point_in_any_polygon lat lon polygons'
       = point_in_any_polygon lat lon polygons).
Proof.
  intros Hv.
  pose proof (point_in_any_polygon_true lat lon polygons Hv) as H1.
  split; [done|]. split.
  - destruct (point_in_any_polygon_total lat lon polygons Hv) as [b Hb].
    rewrite Hb. destruct b.
    + split; [done|]. intros Hall.
      destruct (proj1 H1 Hb) as (p & Hin & Ht). rewrite (Hall p Hin) in Ht.
      done.
    + split; [|done]. intros _ p Hin.
      rewrite Forall_forall in Hv.
      destruct (point_in_polygon_total lat lon p (Hv p Hin)) as [[] Hp];
        [|done].
      assert (Ok false = Ok true :> outcome bool); [|done].
      rewrite <-Hb. apply H1. by exists p.
  - intros polygons' HP.
    assert (Hv' : Forall (Forall (λ v : vertex, is_valid v.1 = true)) polygons')
      by (by rewrite <-HP).
    pose proof (point_in_any_polygon_true lat lon polygons' Hv') as H1'.
    destruct (point_in_any_polygon_total lat lon polygons Hv) as [b Hb].
    destruct (point_in_any_polygon_total lat lon polygons' Hv') as [b' Hb'].
    rewrite Hb, Hb' in *. f_equal.
    destruct b, b'; try done.
    + destruct (proj1 H1 eq_refl) as (p & Hin & Ht).
      rewrite HP in Hin.
      assert (Ok false = Ok true :> outcome bool); [|done].
      apply H1'. by exists p.
    + destruct (proj1 H1' eq_refl) as (p & Hin & Ht).
      rewrite <-HP in Hin.
      assert (Ok false = Ok true :> outcome bool); [|done].
      apply H1. by exists p.
Qed.

Lemma X7_point_in_any_polygon_exists_witness :
  (point_in_any_polygon (dec 135 2) (dec 1038 1) POLYGONS = Ok true ↔
   ∃ poly, poly ∈ POLYGONS ∧
           point_in_polygon (dec 135 2) (dec 1038 1) poly = Ok true) ∧
  (point_in_any_polygon (dec 135 2) (dec 1038 1) POLYGONS = Ok false ↔
   ∀ poly, poly ∈ POLYGONS →
           point_in_polygon (dec 135 2) (dec 1038 1) poly = Ok false) ∧
  (∀ polygons', POLYGONS ≡ₚ polygons' →
     point_in_any_polygon (dec 135 2) (dec 1038 1) polygons'
       = point_in_any_polygon (dec 135 2) (dec 1038 1) POLYGONS).
Proof.
  apply (X7_point_in_any_polygon_exists (dec 135 2) (dec 1038 1) POLYGONS).
  unfold POLYGONS, MAIN_ISLAND, SENTOSA, JURONG_ISLAND, PULAU_UBIN,
    PULAU_TEKONG.
  repeat (apply Forall_cons; split); try apply Forall_nil;
    vm_compute; reflexivity.
Defined.

(** *** The latitudes of a polygon bound the points it contains *)

Lemma for_each_same_side (lat lon : float) (polygon : list vertex) (b : bool) :
  Forall (λ v : vertex, fgt v.1 lat = b) polygon →
  ∀ (l : list nat) (inside : bool) (j : nat),
    Forall (λ i, (i < length polygon)%nat) l →
    (l ≠ [] → (j < length polygon)%nat) →
    ∃ j', for_each (edge_step lat lon polygon) (inside, j) l = Ok (inside, j').
Proof.
  intros Hv l. induction l as [|i l IH]; intros inside j Hl Hj.
  - by eexists.
  - apply Forall_cons in Hl as [Hi Hl].
    destruct (lookup_lt_is_Some_2 polygon i Hi) as [vi Hvi].
    destruct (lookup_lt_is_Some_2 polygon j) as [vj Hvj]; [by apply Hj|].
    assert (Hc : crossing lat lon vi vj = Ok false).
    { pose proof (Forall_lookup_1 _ _ _ _ Hv Hvi) as Hi'.
      pose proof (Forall_lookup_1 _ _ _ _ Hv Hvj) as Hj'.
      destruct vi as [yi xi], vj as [yj xj]. cbn [fst] in *.
      unfold crossing. rewrite Hi', Hj', eqb_reflx. done. }
    cbn [for_each]. rewrite (edge_step_eq _ _ _ _ _ _ vi vj false) by done.
    cbn [mbind outcome_bind bind]. apply IH; [done|]. intros _. done.
Qed.

Lemma point_in_polygon_same_side (lat lon : float) (polygon : list vertex)
    (b : bool) :
  Forall (λ v : vertex, fgt v.1 lat = b) polygon →
  point_in_polygon lat lon polygon = Ok false.
Proof.
  intros Hv. unfold point_in_polygon.
  destruct (for_each_same_side lat lon polygon b Hv
              (seq 0 (length polygon)) false (length polygon - 1)%nat)
    as [j' Hst].
  - apply Forall_forall. intros i Hi%elem_of_seq. lia.
  - destruct polygon; [done|]. cbn [length]. lia.
  - by rewrite Hst.
Qed.

Lemma fle_not_fle_flt (lo y lat : float) :
  fle lo y = true → fle lo lat = false → flt lat y = true ∨ lat = S754_nan.
Proof.
  unfold fle, flt, SFleb, SFltb.
  destruct lo as [sa|sa| |sa ma ea], y as [sb|sb| |sb mb eb],
           lat as [sc|sc| |sc mc ec];
    cbn [SFcompare]; try done; try (by right);
    try (by destruct sa, sb, sc; (done || by left));
    try (by destruct sa, sb; (done || by left));
    try (by destruct sa, sc; (done || by left));
    try (by destruct sb, sc; (done || by left));
    try (by destruct sa; (done || by left));
    try (by destruct sb; (done || by left));
    try (by destruct sc; (done || by left)).
  intros H1 H2. left. revert H1 H2.
  destruct sa, sb, sc; try done; order_cases.
Qed.

Lemma flt_fle_trans (a b c : float) :
  flt a b = true → fle b c = true → flt a c = true.
Proof.
  unfold fle, flt, SFleb, SFltb.
  destruct a as [sa|sa| |sa ma ea], b as [sb|sb| |sb mb eb],
           c as [sc|sc| |sc mc ec];
    cbn [SFcompare]; try done;
    try (by destruct sa, sb, sc); try (by destruct sa, sb);
    try (by destruct sa, sc); try (by destruct sb, sc);
    try (by destruct sa); try (by destruct sb); try (by destruct sc).
  destruct sa, sb, sc; try done; order_cases.
Qed.

Lemma point_in_polygon_between (lat lon lo hi : float)
    (polygon : list vertex) :
  Forall (λ v : vertex, fle lo v.1 = true ∧ fle v.1 hi = true) polygon →
  point_in_polygon lat lon polygon = Ok true →
  fle lo lat = true ∧ flt lat hi = true.
Proof.
  intros Hv Hin. split.
  - destruct (fle lo lat) eqn:Hlo; [done|].
    assert (Hnan : lat = S754_nan ∨ lat ≠ S754_nan)
      by (destruct lat; (by left) || by right).
    destruct Hnan as [->|Hnan].
    + rewrite (point_in_polygon_same_side _ lon polygon false) in Hin; [done|].
      apply Forall_forall. intros [y x] _. cbn [fst]. by destruct y as [|[]| |[]].
    + rewrite (point_in_polygon_same_side _ lon polygon true) in Hin; [done|].
      eapply Forall_impl; [exact Hv|]. intros [y x] [Hy _]. cbn [fst] in *.
      destruct (fle_not_fle_flt lo y lat Hy Hlo); done.
  - destruct (flt lat hi) eqn:Hhi; [done|].
    rewrite (point_in_polygon_same_side _ lon polygon false) in Hin; [done|].
    eapply Forall_impl; [exact Hv|]. intros [y x] [_ Hy]. cbn [fst] in *.
    change (fgt y lat) with (flt lat y).
    destruct (flt lat y) eqn:Hl; [|done].
    by rewrite (flt_fle_trans lat y hi Hl Hy) in Hhi.
Qed.

(** X8. A point whose latitude lies on the same side of every vertex of a
    polygon (no vertex latitude exceeds it, or every one does) is outside
    the polygon, whatever its longitude; so a point that the test puts
    inside a polygon whose vertex latitudes lie between [lo] and [hi] has
    a latitude of at least [lo] and below [hi]. *)
Theorem X8_point_in_polygon_latitude_extent (lat lon lo hi : float)
    (polygon : list vertex) :
  Forall (λ v : vertex, fle lo v.1 = true ∧ fle v.1 hi = true) polygon →
  ((∃ b, Forall (λ v : vertex, fgt v.1 lat = b) polygon) →
   point_in_polygon lat lon polygon = Ok false) ∧
  (point_in_polygon lat lon polygon = Ok true →
   fle lo lat = true ∧ flt lat hi = true).
Proof.
  intros Hv. split.
  - intros [b Hb]. by apply (point_in_polygon_same_side lat lon polygon b).
  - by apply point_in_polygon_between.
Qed.

Lemma X8_point_in_polygon_latitude_extent_witness :
  ((∃ b, Forall (λ v : vertex, fgt v.1 (dec 1245 3) = b) SENTOSA) →
   point_in_polygon (dec 1245 3) (dec 10384 2) SENTOSA = Ok false) ∧
  (point_in_polygon (dec 1245 3) (dec 10384 2) SENTOSA = Ok true →
   fle (dec 1240 3) (dec 1245 3) = true ∧
   flt (dec 1245 3) (dec 1252 3) = true).
Proof.
  apply (X8_point_in_polygon_latitude_extent
           (dec 1245 3) (dec 10384 2) (dec 1240 3) (dec 1252 3) SENTOSA).
  unfold SENTOSA.
  repeat (apply Forall_cons; split); try apply Forall_nil;
    split; vm_compute; reflexivity.
Defined.

(** *** The ring of edges *)

Lemma edge_step_crossing (lat lon : float) (polygon : list vertex)
    (inside : bool) (i j : nat) (vi vj : vertex) :
  polygon !! i = Some vi → polygon !! j = Some vj →
  edge_step lat lon polygon (inside, j) i
    = b ← toggle lat lon inside (vi, vj); Ok (b, i).
Proof.
  intros Hi Hj. unfold edge_step, index, toggle. rewrite Hi, Hj.
  cbn [mbind outcome_bind bind fst snd].
  by destruct (crossing lat lon vi vj).
Qed.

Lemma for_each_edge_step (lat lon : float) (polygon : list vertex) :
  ∀ (rest : list vertex) (i j : nat) (prev : vertex) (inside : bool),
    drop i polygon = rest → polygon !! j = Some prev →
    for_each (edge_step lat lon polygon) (inside, j) (seq i (length rest))
    = b ← for_each (toggle lat lon) inside (pairs_from prev rest);
      Ok (b, if rest is [] then j else (i + length rest - 1)%nat).
Proof.
  intros rest. induction rest as [|vi rest IH]; intros i j prev inside Hd Hj.
  - done.
  - assert (Hi : polygon !! i = Some vi).
    { rewrite <-(Nat.add_0_r i), <-lookup_drop, Hd. done. }
    assert (Hd' : drop (S i) polygon = rest).
    { rewrite <-(Nat.add_1_l i), Nat.add_comm, <-drop_drop, Hd. done. }
    cbn [length seq for_each pairs_from].
    rewrite (edge_step_crossing _ _ _ _ _ _ vi prev Hi Hj).
    destruct (toggle lat lon inside (vi, prev)) as [c|e|];
      cbn [mbind outcome_bind bind]; [|done..].
    rewrite (IH (S i) i vi _ Hd' Hi).
    destruct (for_each _ _ _) as [b|e|]; cbn [mbind outcome_bind bind];
      [|done..].
    f_equal. f_equal. destruct rest; cbn [length]; lia.
Qed.

Lemma point_in_polygon_edges (lat lon : float) (polygon : list vertex) :
  point_in_polygon lat lon polygon
  = for_each (toggle lat lon) false (edges polygon).
Proof.
  unfold point_in_polygon, edges.
  destruct (last polygon) as [vl|] eqn:Hl.
  - rewrite (for_each_edge_step lat lon polygon polygon 0 _ vl false);
      [| done | by rewrite Nat.sub_1_r, <-last_lookup ].
    by destruct (for_each _ _ _).
  - apply last_None in Hl as ->. done.
Qed.

Lemma crossing_Ok_or_ZeroDivisionError (lat lon : float) (vi vj : vertex) :
  (∃ c, crossing lat lon vi vj = Ok c) ∨
  crossing lat lon vi vj = Raise ZeroDivisionError.
Proof.
  destruct vi as [yi xi], vj as [yj xj]. unfold crossing, fdiv.
  destruct (negb _); [|left; by eexists].
  destruct (feq _ _); [by right|left; by eexists].
Qed.

Lemma toggle_cases (lat lon : float) (inside : bool) (e : vertex * vertex) :
  (∃ c : bool, crossing lat lon e.1 e.2 = Ok c ∧
               toggle lat lon inside e = Ok (xorb c inside)) ∨
  (crossing lat lon e.1 e.2 = Raise ZeroDivisionError ∧
   toggle lat lon inside e = Raise ZeroDivisionError).
Proof.
  unfold toggle.
  destruct (crossing_Ok_or_ZeroDivisionError lat lon e.1 e.2) as [[c ->]| ->].
  - left. exists c. split; [done|]. by destruct c.
  - by right.
Qed.

Lemma for_each_toggle_Permutation (lat lon : float)
    (es es' : list (vertex * vertex)) :
  es ≡ₚ es' →
  ∀ inside, for_each (toggle lat lon) inside es
            = for_each (toggle lat lon) inside es'.
Proof.
  induction 1 as [|e es es' _ IH|e1 e2 es|es1 es2 es3 _ IH1 _ IH2];
    intros inside.
  - done.
  - cbn [for_each]. destruct (toggle lat lon inside e); [|done..].
    cbn [mbind outcome_bind bind]. apply IH.
  - cbn [for_each].
    destruct (toggle_cases lat lon inside e1) as [(c1 & Hc1 & ->)|[Hc1 ->]],
             (toggle_cases lat lon inside e2) as [(c2 & Hc2 & ->)|[Hc2 ->]];
      cbn [mbind outcome_bind bind]; unfold toggle;
      rewrite ?Hc1, ?Hc2; cbn [mbind outcome_bind bind]; try done.
    by destruct c1, c2, inside.
  - by rewrite IH1, IH2.
Qed.

Lemma pairs_from_app (prev : vertex) (l1 l2 : list vertex) :
  pairs_from prev (l1 ++ l2)
  = pairs_from prev l1 ++ pairs_from (default prev (last l1)) l2.
Proof.
  revert prev. induction l1 as [|a l1 IH]; intros prev; [done|].
  cbn [app pairs_from]. rewrite IH. f_equal. f_equal.
  destruct l1 as [|b l1]; [done|]. rewrite last_cons_cons.
  by destruct (last (b :: l1)) eqn:E; [|apply last_None in E].
Qed.

Lemma edges_app_comm (l1 l2 : list vertex) :
  edges (l1 ++ l2) ≡ₚ edges (l2 ++ l1).
Proof.
  destruct (last l1) as [a|] eqn:E1; [|apply last_None in E1 as ->];
    [|by rewrite app_nil_r].
  destruct (last l2) as [b|] eqn:E2; [|apply last_None in E2 as ->];
    [|by rewrite app_nil_r].
  unfold edges.
  assert (H12 : last (l1 ++ l2) = Some b).
  { apply last_Some in E2 as [l2' ->]. by rewrite app_assoc, last_snoc. }
  assert (H21 : last (l2 ++ l1) = Some a).
  { apply last_Some in E1 as [l1' ->]. by rewrite app_assoc, last_snoc. }
  rewrite H12, H21, !pairs_from_app, E1, E2. cbn [default from_option id].
  apply Permutation_app_comm.
Qed.

Lemma edges_rotate (k : nat) (polygon : list vertex) :
  edges (rotate k polygon) ≡ₚ edges polygon.
Proof.
  unfold rotate. rewrite edges_app_comm. by rewrite take_drop.
Qed.

Lemma edges_closed (v0 : vertex) (l : list vertex) :
  edges ((v0 :: l) ++ [v0]) ≡ₚ (v0, v0) :: edges (v0 :: l).
Proof.
  unfold edges. rewrite last_snoc.
  destruct (last (v0 :: l)) as [vl|] eqn:El; [|by apply last_None in El].
  cbn [app pairs_from]. rewrite pairs_from_app. cbn [pairs_from].
  apply perm_skip.
  rewrite <-Permutation_cons_append. apply Permutation_cons; [|done].
  destruct l as [|b l]; [by injection El as ->|].
  rewrite last_cons_cons in El. by rewrite El.
Qed.

Lemma toggle_degenerate (lat lon : float) (inside : bool) (v0 : vertex) :
  toggle lat lon inside (v0, v0) = Ok inside.
Proof.
  unfold toggle. cbn [fst snd]. destruct v0 as [y x]. unfold crossing.
  by rewrite eqb_reflx.
Qed.

(** X9. The answer of [point_in_polygon] (a boolean or the exception) does
    not depend on the vertex at which the ring of the polygon starts, and
    closing the ring explicitly, by repeating its first vertex at the end
    as [MAIN_ISLAND] does, does not change it. *)
Theorem X9_point_in_polygon_ring (lat lon : float) (polygon : list vertex) :
  (∀ k, point_in_polygon lat lon (rotate k polygon)
        = point_in_polygon lat lon polygon) ∧
  (∀ v0 l, polygon = v0 :: l →
     point_in_polygon lat lon (polygon ++ [v0])
       = point_in_polygon lat lon polygon).
Proof.
  split.
  - intros k. rewrite !point_in_polygon_edges.
    apply for_each_toggle_Permutation, edges_rotate.
  - intros v0 l ->. rewrite !point_in_polygon_edges.
    rewrite (for_each_toggle_Permutation _ _ _ _ (edges_closed v0 l)).
    cbn [for_each]. by rewrite toggle_degenerate.
Qed.

(** *** The scan never raises *)

Lemma scan_row_never_raises (step lat : float) (fuel : nat) :
  ∀ lon points e, scan_row fuel step lat lon points ≠ Raise e.
Proof.
  induction fuel as [|fuel IH]; intros lon points e; [done|].
  cbn [scan_row]. destruct (fle lon lon_max); [|done].
  rewrite point_in_any_polygon_on_land. cbn [mbind outcome_bind bind].
  apply IH.
Qed.

Lemma scan_rows_never_raises (step_lat step_lon : float) (fuel n : nat) :
  ∀ lat points e, scan_rows fuel n step_lat step_lon lat points ≠ Raise e.
Proof.
  induction n as [|n IH]; intros lat points e; [done|].
  cbn [scan_rows]. destruct (fle lat lat_max); [|done].
  destruct (scan_row fuel step_lon lat lon_min points) as [pts|e'|] eqn:Hrow.
  - cbn [mbind outcome_bind bind]. apply IH.
  - by apply scan_row_never_raises in Hrow.
  - done.
Qed.

(** X10. [generate_grid] raises no exception, whatever the spacing and
    however many iterations it is allowed: the two step divisions have
    non-zero constant divisors, and the containment test on the five land
    polygons raises neither [ZeroDivisionError] nor [IndexError] at any
    point. *)
Theorem X10_generate_grid_never_raises (fuel : nat) (spacing_m : float) (e : exn) :
  generate_grid fuel spacing_m ≠ Raise e ∧
  (∀ lat lon, point_in_any_polygon lat lon POLYGONS ≠ Raise e) ∧
  lat_step spacing_m ≠ Raise e ∧ lon_step spacing_m ≠ Raise e.
Proof.
  split; [|split; [|split]].
  - unfold generate_grid. rewrite lat_step_eq, lon_step_eq.
    cbn [mbind outcome_bind bind]. apply scan_rows_never_raises.
  - intros lat lon. by rewrite point_in_any_polygon_on_land.
  - by rewrite lat_step_eq.
  - by rewrite lon_step_eq.
Qed.

(** *** The rows and columns of the scan *)

Lemma fadd_progress_by (E E' : Z) (m : positive) (y : float) :
  -1074 <= E → E <= E' → 2 ^ 52 <= Zpos m → ge_pow2 E' y = true →
  fadd (S754_finite false m E) y = S754_infinity false ∨
  ∃ m' e', fadd (S754_finite false m E) y = S754_finite false m' e'
           ∧ (E < e' ∨ (e' = E ∧ Zpos m + 2 ^ (E' - E) <= Zpos m')).
Proof.
  intros HE HE' Hm Hy.
  destruct y as [sy|[]| |[] my ey]; try discriminate; [by left|].
  cbn [ge_pow2] in Hy. apply Z.leb_le in Hy.
  unfold fadd, SFadd. set (ez := Z.min E ey).
  rewrite !shl_align_fst by lia. cbn [cond_Zopp].
  assert (HX : 0 < Zpos m * 2 ^ (E - ez))
    by (apply Z.mul_pos_pos; [lia|apply Z.pow_pos_nonneg; lia]).
  assert (HY : 2 ^ (E' - ez) <= Zpos my * 2 ^ (ey - ez)).
  { destruct (Z.le_ge_cases E' ey) as [Hle|Hle].
    - assert (2 ^ (E' - ez) <= 2 ^ (ey - ez))
        by (apply Z.pow_le_mono_r; lia).
      assert (0 < 2 ^ (ey - ez)) by (apply Z.pow_pos_nonneg; lia). nia.
    - replace (E' - ez) with ((E' - ey) + (ey - ez)) by lia.
      rewrite pow2_split by lia.
      apply Z.mul_le_mono_nonneg_r; [|done].
      apply Z.pow_nonneg. lia. }
  assert (Hk : 0 < 2 ^ (E - ez)) by (apply Z.pow_pos_nonneg; lia).
  assert (Hsplit : 2 ^ (E' - ez) = 2 ^ (E' - E) * 2 ^ (E - ez)).
  { rewrite <-pow2_split by lia. f_equal. lia. }
  assert (Hk' : 0 < 2 ^ (E' - E)) by (apply Z.pow_pos_nonneg; lia).
  destruct (Zpos m * 2 ^ (E - ez)) as [|X|X] eqn:HXe; [lia| |lia].
  destruct (Zpos X + Zpos my * 2 ^ (ey - ez)) as [|p|p] eqn:Hp; [lia| |lia].
  cbn [binary_normalize].
  assert (Hdm : 53 <= Zpos (digits2_pos m)).
  { pose proof (digits2_pos_bounds m) as [_ Hu].
    destruct (Z.le_gt_cases 53 (Zpos (digits2_pos m))) as [|Hlt]; [done|].
    assert (2 ^ Zpos (digits2_pos m) <= 2 ^ 52)
      by (apply Z.pow_le_mono_r; lia). lia. }
  assert (HdX : Zpos (digits2_pos X) = Zpos (digits2_pos m) + (E - ez))
    by (apply digits2_pos_shift; [lia|done]).
  assert (Hdp : Zpos (digits2_pos X) <= Zpos (digits2_pos p))
    by (apply digits2_pos_le; lia).
  set (d := Zpos (digits2_pos p)) in *.
  assert (Hf : fexp prec emax (d + ez) = d + ez - 53)
    by (rewrite fexp_eq; lia).
  pose proof (digits2_pos_bounds p) as [Hlp _]. fold d in Hlp.
  assert (Hm1 : 1 <= Zpos p / 2 ^ (d + ez - 53 - ez)).
  { apply Z.div_le_lower_bound; [apply Z.pow_pos_nonneg; lia|].
    rewrite Z.mul_1_r. etrans; [|exact Hlp]. apply Z.pow_le_mono_r; lia. }
  pose proof (binary_round_shr false p ez) as Hr. cbv zeta in Hr.
  fold d in Hr. rewrite Hf in Hr.
  destruct Hr as (m3 & e3 & Hr & He3 & Hm3 & _); [lia|lia|].
  rewrite Hr. destruct (e3 <=? emax - prec); [|by left].
  right. exists m3, e3. split; [done|].
  destruct (Z.eq_dec e3 E) as [->|Hne]; [|left; lia].
  right. split; [done|].
  assert (Hd53 : d + ez - 53 = E) by lia.
  specialize (Hm3 (eq_sym Hd53)). rewrite Hd53 in Hm3.
  etrans; [|exact Hm3].
  apply Z.div_le_lower_bound; [done|]. nia.
Qed.

Lemma spaced_mono (K mmax lo lo' : Z) (ms : list positive) :
  lo' <= lo → spaced K mmax lo ms → spaced K mmax lo' ms.
Proof. destruct ms as [|mi ms]; [done|]. cbn. intros ? [? ?]. split; [lia|done]. Qed.

Lemma spaced_length (K mmax : Z) (ms : list positive) :
  0 < K → ∀ lo, spaced K mmax lo ms →
  Z.of_nat (length ms) <= Z.max 0 ((mmax - lo) / K + 1).
Proof.
  intros HK. induction ms as [|mi ms IH]; intros lo Hs; [cbn; lia|].
  destruct Hs as [Hmi Hs]. specialize (IH _ Hs).
  cbn [length]. rewrite Nat2Z.inj_succ.
  replace (mmax - (Zpos mi + K)) with ((mmax - Zpos mi) + (-1) * K) in IH by lia.
  rewrite Z.div_add in IH by lia.
  assert (0 <= (mmax - Zpos mi) / K) by (apply Z.div_pos; lia).
  assert ((mmax - Zpos mi) / K <= (mmax - lo) / K)
    by (apply Z.div_le_mono; lia).
  lia.
Qed.

Lemma spaced_Forall (K mmax : Z) (ms : list positive) :
  0 <= K → ∀ lo, spaced K mmax lo ms →
  Forall (λ mi, lo <= Zpos mi <= mmax) ms.
Proof.
  intros HK. induction ms as [|mi ms IH]; intros lo Hs; [done|].
  destruct Hs as [Hmi Hs]. constructor; [done|].
  eapply Forall_impl; [exact (IH _ Hs)|]. cbn. lia.
Qed.

Lemma flt_finite_same_exp (m m' : positive) (E : Z) :
  Zpos m < Zpos m' →
  flt (S754_finite false m E) (S754_finite false m' E) = true.
Proof.
  intros H. unfold flt, SFltb. cbn [SFcompare]. rewrite Z.compare_refl.
  rewrite pos_compare_cont_Eq.
  by rewrite (proj2 (Pos.compare_lt_iff m m')) by lia.
Qed.

Lemma fle_finite_same_exp_2 (m m' : positive) (E : Z) :
  Zpos m <= Zpos m' →
  fle (S754_finite false m E) (S754_finite false m' E) = true.
Proof.
  intros H. unfold fle, SFleb. cbn [SFcompare]. rewrite Z.compare_refl.
  rewrite pos_compare_cont_Eq.
  destruct (Pos.compare_spec m m'); try done. lia.
Qed.

Lemma spaced_ascending (K mmax E : Z) (ms : list positive) :
  0 < K → ∀ lo, spaced K mmax lo ms →
  ascending (map (λ mi, S754_finite false mi E) ms).
Proof.
  intros HK. induction ms as [|mi ms IH]; intros lo Hs i j a b Hij Hi Hj.
  - done.
  - destruct Hs as [Hmi Hs]. destruct j as [|j]; [lia|].
    cbn in Hj. destruct i as [|i].
    + injection Hi as <-.
      apply list_lookup_fmap_Some in Hj as (mj & -> & Hj).
      pose proof (spaced_Forall K mmax ms ltac:(lia) _ Hs) as HF.
      eapply Forall_lookup_1 in HF; [|exact Hj]. cbn in HF.
      apply flt_finite_same_exp. lia.
    + cbn in Hi. eapply (IH _ Hs i j); [lia|done..].
Qed.

Lemma scanned_spaced (E E' : Z) (mmax : positive) (step : float) :
  -1074 <= E → E <= E' → ge_pow2 E' step = true →
  ∀ (fuel : nat) (m : positive) (l : list float),
    2 ^ 52 <= Zpos m →
    scanned fuel step (S754_finite false m E) (S754_finite false mmax E)
      = Some l →
    ∃ ms, l = map (λ mi, S754_finite false mi E) ms ∧
          spaced (2 ^ (E' - E)) (Zpos mmax) (Zpos m) ms ∧
          (Zpos m <= Zpos mmax → head ms = Some m).
Proof.
  intros HE HE' Hstep fuel.
  induction fuel as [|fuel IH]; intros m l Hm; [done|].
  cbn [scanned]. destruct (fle _ _) eqn:Hle.
  - apply fle_finite_same_exp in Hle.
    destruct (scanned fuel step _ _) as [rest|] eqn:Hrest; [|done].
    intros [= <-].
    assert (H0 : rest = [] → ∃ ms,
      S754_finite false m E :: rest = map (λ mi, S754_finite false mi E) ms ∧
      spaced (2 ^ (E' - E)) (Zpos mmax) (Zpos m) ms ∧
      (Zpos m <= Zpos mmax → head ms = Some m)).
    { intros ->. exists [m]. cbn. repeat split; (done || lia). }
    destruct (fadd_progress_by E E' m step HE HE' Hm Hstep)
      as [Hf|(m' & e' & Hf & [He'|[-> Hm']])]; rewrite Hf in Hrest.
    + apply H0. destruct fuel as [|fuel]; [done|].
      cbn in Hrest. by injection Hrest as <-.
    + apply H0. destruct fuel as [|fuel]; [done|].
      cbn [scanned] in Hrest. rewrite fle_finite_gt_exp in Hrest by done.
      by injection Hrest as <-.
    + assert (0 < 2 ^ (E' - E)) by (apply Z.pow_pos_nonneg; lia).
      destruct (IH m' rest ltac:(lia) Hrest) as (ms & -> & Hs & _).
      exists (m :: ms). cbn. repeat split; try (done || lia).
      eapply spaced_mono; [|exact Hs]. lia.
  - intros [= <-]. exists []. split; [done|]. split; [done|].
    intros H. by rewrite fle_finite_same_exp_2 in Hle.
Qed.

Lemma ge_pow2_mono (E E' : Z) (y : float) :
  E <= E' → ge_pow2 E' y = true → ge_pow2 E y = true.
Proof.
  intros HE. destruct y as [|[]| |[] m e]; try done. cbn [ge_pow2].
  rewrite !Z.leb_le. intros H. etrans; [|exact H].
  destruct (Z.le_gt_cases 0 (E - e)).
  - apply Z.pow_le_mono_r; lia.
  - rewrite Z.pow_neg_r by lia. apply Z.pow_nonneg. lia.
Qed.

Lemma spacing_above (j : Z) (s : float) :
  -1022 <= j → is_valid s = true → fle (pow2 j) s = true →
  s = S754_infinity false ∨
  ∃ ms es, s = S754_finite false ms es ∧ 2 ^ 52 <= Zpos ms ∧ j - 52 <= es.
Proof.
  intros Hj Hv Hle.
  destruct s as [[]|[]| |[] ms es]; try (cbn in Hle; discriminate);
    [by left|].
  right. exists ms, es. split; [done|].
  apply valid_finite in Hv as [Hv _].
  pose proof (digits2_pos_bounds ms) as [Hl _].
  revert Hle. unfold fle, SFleb, pow2. cbn [SFcompare].
  destruct (Z.compare_spec (j - 52) es) as [<-|Hlt|Hgt]; [| |done].
  - rewrite pos_compare_cont_Eq.
    destruct (Pos.compare_spec 4503599627370496 ms) as [<-|Hm|Hm];
      [| |done]; intros _; lia.
  - intros _. split; [|lia].
    assert (Hd : Zpos (digits2_pos ms) = 53) by lia.
    rewrite Hd in Hl. exact Hl.
Qed.

Lemma steps_above_shape (j : Z) (ms : positive) (es : Z) :
  -1022 <= j → 2 ^ 52 <= Zpos ms → j - 52 <= es →
  ge_pow2 (j - 17)
    (SFdiv prec emax (S754_finite false ms es) (of_Z 111320)) = true ∧
  ge_pow2 (j - 17)
    (SFdiv prec emax (S754_finite false ms es)
       (fmul (of_Z 111320) cos_lat_center)) = true.
Proof.
  intros Hj Hm He.
  replace (of_Z 111320) with (S754_finite false 7649852150251520 (-36))
    by (vm_compute; reflexivity).
  replace (fmul _ cos_lat_center)
    with (S754_finite false 7647728782457847 (-36))
    by (vm_compute; reflexivity).
  assert (Hp : 2 ^ 1 <= 2 ^ (es - -36 - (j - 17)))
    by (apply Z.pow_le_mono_r; lia).
  split; apply SFdiv_ge_pow2; try lia.
  - rewrite Z.max_l, Z.max_r by lia. rewrite Z.pow_0_r. nia.
  - rewrite Z.max_l, Z.max_r by lia. rewrite Z.pow_0_r. nia.
Qed.

Lemma steps_above (j : Z) (s : float) :
  -1022 <= j → is_valid s = true → fle (pow2 j) s = true →
  ge_pow2 (j - 17) (SFdiv prec emax s (of_Z 111320)) = true ∧
  ge_pow2 (j - 17)
    (SFdiv prec emax s (fmul (of_Z 111320) cos_lat_center)) = true.
Proof.
  intros Hj Hv Hle.
  destruct (spacing_above j s Hj Hv Hle) as [->|(ms & es & -> & Hm & He)];
    [done|].
  by apply steps_above_shape.
Qed.

Lemma length_row_points (lat : float) (cols : list float) :
  (length (row_points lat cols) <= length cols)%nat.
Proof. unfold row_points. rewrite length_map. apply length_filter. Qed.

Lemma length_grid (rows cols : list float) :
  (length (concat (map (λ lat, row_points lat cols) rows))
   <= length rows * length cols)%nat.
Proof.
  induction rows as [|lat rows IH]; [done|].
  cbn [map concat length]. rewrite length_app.
  pose proof (length_row_points lat cols). lia.
Qed.

(** X11. For a spacing of at least [2^j] metres, [j >= -29], the run
    finishes and its output is row-major: the kept points of the first
    row, then those of the second, and so on, each row in the order of
    its columns, where the rows are the latitudes the outer loop scans
    with the latitude step and the columns the longitudes the inner loop
    scans with the longitude step. The rows start at [lat_min], the
    columns at [lon_min],
    both are strictly increasing and stay inside the bounding box; there
    are at most [1215971899390034 / 2^(j+35) + 1] rows and
    [33776997205278 / 2^(j+29) + 1] columns (the extent of the box in
    units in the last place, divided by the least step), and at most rows
    times columns points. *)
Theorem X11_generate_grid_row_major (j : Z) (spacing_m : float) :
  -29 <= j → is_valid spacing_m = true → fle (pow2 j) spacing_m = true →
  ∃ fuel points rows cols step_lat step_lon,
    lat_step spacing_m = Ok step_lat ∧ lon_step spacing_m = Ok step_lon ∧
    scanned fuel step_lat lat_min lat_max = Some rows ∧
    scanned fuel step_lon lon_min lon_max = Some cols ∧
    generate_grid fuel spacing_m = Ok points ∧
    points = concat (map (λ lat, row_points lat cols) rows) ∧
    head rows = Some lat_min ∧ head cols = Some lon_min ∧
    ascending rows ∧ ascending cols ∧
    Forall (λ lat, fle lat_min lat = true ∧ fle lat lat_max = true) rows ∧
    Forall (λ lon, fle lon_min lon = true ∧ fle lon lon_max = true) cols ∧
    Z.of_nat (length rows) <= 1215971899390034 / 2 ^ (j + 35) + 1 ∧
    Z.of_nat (length cols) <= 33776997205278 / 2 ^ (j + 29) + 1 ∧
    (length points <= length rows * length cols)%nat.
Proof.
  intros Hj Hv Hle.
  destruct (steps_above j spacing_m ltac:(lia) Hv Hle) as [Hlat Hlon].
  destruct (generate_grid_terminates spacing_m _ _
              (lat_step_eq _) (lon_step_eq _))
    as (fuel & rows & cols & Hrows & Hcols & Hgrid).
  { apply (ge_pow2_mono _ (j - 17)); [lia|done]. }
  { apply (ge_pow2_mono _ (j - 17)); [lia|done]. }
  exists fuel, (concat (map (λ lat, row_points lat cols) rows)), rows, cols.
  eexists _, _. split; [apply lat_step_eq|]. split; [apply lon_step_eq|].
  do 4 (split; [done|]).
  rewrite lat_min_eq, lat_max_eq in Hrows |- *.
  rewrite lon_min_eq, lon_max_eq in Hcols |- *.
  destruct (scanned_spaced (-52) (j - 17) 6620291452234629 _
              ltac:(lia) ltac:(lia) Hlat fuel 5404319552844595 _
              ltac:(lia) Hrows) as (mr & -> & Hsr & Hhr).
  destruct (scanned_spaced (-46) (j - 17) 7323275206569492 _
              ltac:(lia) ltac:(lia) Hlon fuel 7289498209364214 _
              ltac:(lia) Hcols) as (mc & -> & Hsc & Hhc).
  assert (HKr : 0 < 2 ^ (j - 17 - -52)) by (apply Z.pow_pos_nonneg; lia).
  assert (HKc : 0 < 2 ^ (j - 17 - -46)) by (apply Z.pow_pos_nonneg; lia).
  split; [|split; [|split; [|split; [|split; [|split; [|split; [|split]]]]]]].
  - destruct mr as [|m0 mr]; [by specialize (Hhr ltac:(lia))|].
    specialize (Hhr ltac:(lia)). cbn in Hhr. by injection Hhr as ->.
  - destruct mc as [|m0 mc]; [by specialize (Hhc ltac:(lia))|].
    specialize (Hhc ltac:(lia)). cbn in Hhc. by injection Hhc as ->.
  - exact (spaced_ascending _ _ _ _ HKr _ Hsr).
  - exact (spaced_ascending _ _ _ _ HKc _ Hsc).
  - apply Forall_fmap.
    eapply Forall_impl; [exact (spaced_Forall _ _ _ (Z.lt_le_incl _ _ HKr) _ Hsr)|].
    intros m [H1 H2]. split; by apply fle_finite_same_exp_2.
  - apply Forall_fmap.
    eapply Forall_impl; [exact (spaced_Forall _ _ _ (Z.lt_le_incl _ _ HKc) _ Hsc)|].
    intros m [H1 H2]. split; by apply fle_finite_same_exp_2.
  - rewrite length_map.
    pose proof (spaced_length _ _ _ HKr _ Hsr) as Hl.
    replace (j - 17 - -52) with (j + 35) in Hl, HKr by lia.
    change (Zpos 6620291452234629 - Zpos 5404319552844595)
      with 1215971899390034 in Hl.
    assert (H0 : 0 <= 1215971899390034 / 2 ^ (j + 35))
      by (apply Z.div_pos; [done|exact HKr]).
    revert Hl H0. generalize (1215971899390034 / 2 ^ (j + 35)).
    generalize (Z.of_nat (length mr)). clear. intros n q. lia.
  - rewrite length_map.
    pose proof (spaced_length _ _ _ HKc _ Hsc) as Hl.
    replace (j - 17 - -46) with (j + 29) in Hl, HKc by lia.
    change (Zpos 7323275206569492 - Zpos 7289498209364214)
      with 33776997205278 in Hl.
    assert (H0 : 0 <= 33776997205278 / 2 ^ (j + 29))
      by (apply Z.div_pos; [done|exact HKc]).
    revert Hl H0. generalize (33776997205278 / 2 ^ (j + 29)).
    generalize (Z.of_nat (length mc)). clear. intros n q. lia.
  - apply length_grid.
Qed.

Lemma X11_generate_grid_row_major_witness :
  ∃ fuel points rows cols step_lat step_lon,
    lat_step (of_Z 300) = Ok step_lat ∧ lon_step (of_Z 300) = Ok step_lon ∧
    scanned fuel step_lat lat_min lat_max = Some rows ∧
    scanned fuel step_lon lon_min lon_max = Some cols ∧
    generate_grid fuel (of_Z 300) = Ok points ∧
    points = concat (map (λ lat, row_points lat cols) rows) ∧
    head rows = Some lat_min ∧ head cols = Some lon_min ∧
    ascending rows ∧ ascending cols ∧
    Forall (λ lat, fle lat_min lat = true ∧ fle lat lat_max = true) rows ∧
    Forall (λ lon, fle lon_min lon = true ∧ fle lon lon_max = true) cols ∧
    Z.of_nat (length rows) <= 1215971899390034 / 2 ^ (8 + 35) + 1 ∧
    Z.of_nat (length cols) <= 33776997205278 / 2 ^ (8 + 29) + 1 ∧
    (length points <= length rows * length cols)%nat.
Proof.
  apply (X11_generate_grid_row_major 8 (of_Z 300)).
  - lia.
  - vm_compute. reflexivity.
  - vm_compute. reflexivity.
Defined.

Lemma generate_grid_coarse (fuel : nat) (spacing_m : float) :
  (2 <= fuel)%nat →
  ge_pow2 (-1) (SFdiv prec emax spacing_m (of_Z 111320)) = true →
  ge_pow2 (-1) (SFdiv prec emax spacing_m
                  (fmul (of_Z 111320) cos_lat_center)) = true →
  generate_grid fuel spacing_m = Ok [].
Proof.
  intros Hfuel Hlat Hlon.
  set (step_lat := SFdiv prec emax spacing_m (of_Z 111320)) in *.
  set (step_lon := SFdiv prec emax spacing_m
                     (fmul (of_Z 111320) cos_lat_center)) in *.
  assert (Hrows : scanned 2 step_lat lat_min lat_max = Some [lat_min]).
  { rewrite lat_min_eq, lat_max_eq. cbn [scanned].
    rewrite fle_finite_same_exp_2 by lia.
    destruct (fadd_progress_by (-52) (-1) 5404319552844595 step_lat
                ltac:(lia) ltac:(lia) ltac:(lia) Hlat)
      as [->|(m' & e' & -> & [He'|[-> Hm']])]; [done| |].
    - by rewrite fle_finite_gt_exp.
    - destruct (fle (S754_finite false m' (-52)) _) eqn:Hc; [|done].
      apply fle_finite_same_exp in Hc.
      change (2 ^ (-1 - -52)) with 2251799813685248 in Hm'. lia. }
  assert (Hcols : scanned 2 step_lon lon_min lon_max = Some [lon_min]).
  { rewrite lon_min_eq, lon_max_eq. cbn [scanned].
    rewrite fle_finite_same_exp_2 by lia.
    destruct (fadd_progress_by (-46) (-1) 7289498209364214 step_lon
                ltac:(lia) ltac:(lia) ltac:(lia) Hlon)
      as [->|(m' & e' & -> & [He'|[-> Hm']])]; [done| |].
    - by rewrite fle_finite_gt_exp.
    - destruct (fle (S754_finite false m' (-46)) _) eqn:Hc; [|done].
      apply fle_finite_same_exp in Hc.
      change (2 ^ (-1 - -46)) with 35184372088832 in Hm'. lia. }
  pose proof (generate_grid_scanned 2 spacing_m step_lat step_lon _ _
                (lat_step_eq _) (lon_step_eq _) Hrows Hcols) as Hgrid.
  rewrite (generate_grid_fuel_mono 2 fuel) by (try lia; by rewrite Hgrid).
  rewrite Hgrid. cbn [map concat]. rewrite app_nil_r. unfold row_points.
  rewrite filter_cons, filter_nil.
  replace (on_land lat_min lon_min) with false by (vm_compute; reflexivity).
  done.
Qed.

(** X12. For every spacing of at least 65536 metres ([+inf] included) the
    grid is empty: the scan visits the single point [(lat_min, lon_min)],
    the south-west corner of the bounding box, which is not on land. *)
Theorem X12_generate_grid_coarse_empty (fuel : nat) (spacing_m : float) :
  (2 <= fuel)%nat →
  is_valid spacing_m = true → fle (pow2 16) spacing_m = true →
  generate_grid fuel spacing_m = Ok [].
Proof.
  intros Hfuel Hv Hle.
  destruct (steps_above 16 spacing_m ltac:(lia) Hv Hle) as [Hlat Hlon].
  change (16 - 17) with (-1) in Hlat, Hlon.
  by apply generate_grid_coarse.
Qed.

Lemma X12_generate_grid_coarse_empty_witness :
  generate_grid 2 (of_Z 100000) = Ok [].
Proof.
  apply (X12_generate_grid_coarse_empty 2 (of_Z 100000)).
  - lia.
  - vm_compute. reflexivity.
  - vm_compute. reflexivity.
Defined.

(** *** The latitudes of the output *)





(** *** A spacing that is not positive *)

Lemma binary_round_aux_within (s : bool) (M : positive) (e : Z) (lx : location) :
  let e1 := Z.max e (fexp prec emax (Zpos (digits2_pos M) + e)) in
  let m1 := Zpos M / 2 ^ (e1 - e) in
  rounds_within s e1 m1 (binary_round_aux prec emax s (Zpos M) e lx).
Proof.
  intros e1 m1. unfold binary_round_aux.
  pose proof (shr_fexp_spec (Zpos M) e lx) as [H1 H2]; [done|].
  destruct (shr_fexp prec emax (Zpos M) e lx) as [mrs' e'].
  cbn [fst snd Zdigits2] in H1, H2.
  assert (He' : e' = e1) by (subst e1; lia).
  assert (Hmrs : shr_m mrs' = m1).
  { rewrite H1. unfold m1. f_equal. f_equal. subst e1. lia. }
  clear H1 H2.
  assert (Hm1 : 0 <= m1).
  { unfold m1. apply Z.div_pos; [lia|]. apply Z.pow_pos_nonneg; lia. }
  assert (Hm1u : m1 < 2 ^ 53).
  { pose proof (digits2_pos_bounds M) as [_ Hu].
    unfold m1. apply Z.div_lt_upper_bound; [apply Z.pow_pos_nonneg; lia|].
    rewrite <-Z.pow_add_r by lia. eapply Z.lt_le_trans; [exact Hu|].
    apply Z.pow_le_mono_r; [lia|]. subst e1. rewrite fexp_eq. lia. }
  pose proof (round_nearest_even_bounds (shr_m mrs') (loc_of_shr_record mrs'))
    as Hr.
  set (m2 := round_nearest_even (shr_m mrs') (loc_of_shr_record mrs')) in *.
  rewrite Hmrs in Hr.
  pose proof (shr_fexp_spec m2 e' loc_Exact) as [H1 H2]; [lia|].
  destruct (shr_fexp prec emax m2 e' loc_Exact) as [mrs'' e''].
  cbn [fst snd] in H1, H2.
  destruct m2 as [|p2|p2] eqn:Hm2; [|  |lia].
  { cbn [Zdigits2] in H1. rewrite Z.div_0_l in H1
      by (apply Z.pow_nonzero; lia). rewrite H1. by left. }
  right.
  cbn [Zdigits2] in H1, H2.
  pose proof (digits2_pos_bounds p2) as [Hd2 Hd2u].
  assert (Hd54 : Zpos (digits2_pos p2) <= 54).
  { destruct (Z.le_gt_cases (Zpos (digits2_pos p2)) 54) as [|Hgt]; [done|].
    assert (2 ^ 54 <= 2 ^ (Zpos (digits2_pos p2) - 1))
      by (apply Z.pow_le_mono_r; lia). lia. }
  assert (Hemin : -1074 <= e').
  { rewrite He'. subst e1. rewrite fexp_eq. lia. }
  rewrite fexp_eq in H1, H2.
  set (d2 := Zpos (digits2_pos p2)) in *.
  destruct (Z.le_gt_cases (Z.max (d2 + e' - 53) (-1074) - e') 0) as [Hn|Hn].
  - rewrite Z.max_l in H1, H2 by lia.
    rewrite Z.pow_0_r, Z.div_1_r in H1. rewrite H1.
    exists p2, e''. split; [done|].
    assert (He'' : e'' = e1) by lia.
    rewrite He'', Z.sub_diag, Z.pow_0_r.
    assert (Hp2 : Zpos p2 < 2 ^ 53).
    { eapply Z.lt_le_trans; [exact Hd2u|]. apply Z.pow_le_mono_r; lia. }
    repeat split; lia.
  - rewrite Z.max_r in H1, H2 by lia.
    assert (Hn2 : Z.max (d2 + e' - 53) (-1074) - e' = 1) by lia.
    rewrite Hn2 in H1, H2.
    assert (Hp2 : Zpos p2 = 2 ^ 53).
    { assert (2 ^ 53 <= 2 ^ (d2 - 1)) by (apply Z.pow_le_mono_r; lia). lia. }
    rewrite Hp2 in H1. change (2 ^ 53 / 2 ^ 1) with (2 ^ 52) in H1.
    destruct (shr_m mrs'') as [|p3|p3]; [lia| |lia].
    exists p3, e''. split; [done|].
    assert (He'' : e'' = e1 + 1) by lia.
    rewrite He''. replace (e1 + 1 - e1) with 1 by lia.
    repeat split; lia.
Qed.

Lemma binary_round_within (s : bool) (M : positive) (e : Z) :
  let f := fexp prec emax (Zpos (digits2_pos M) + e) in
  rounds_within s f
    (Zpos M * 2 ^ Z.max 0 (e - f) / 2 ^ Z.max 0 (f - e))
    (binary_round prec emax s M e).
Proof.
  intros f. unfold binary_round. fold f.
  destruct (Z.lt_ge_cases f e) as [Hf|Hf].
  - destruct (proj1 (shl_align_spec M e f) Hf) as [Hm He].
    destruct (shl_align M e f) as [mz ez]. cbn [fst snd] in Hm, He. subst ez.
    pose proof (binary_round_aux_within s mz f loc_Exact) as H. cbv zeta in H.
    rewrite (digits2_pos_shift M mz (e - f)) in H by (lia || done).
    replace (Zpos (digits2_pos M) + (e - f) + f)
      with (Zpos (digits2_pos M) + e) in H by lia.
    fold f in H. rewrite Z.max_id, Z.sub_diag, Z.pow_0_r, Z.div_1_r in H.
    rewrite Z.max_r, Z.max_l by lia. rewrite Z.pow_0_r, Z.div_1_r.
    by rewrite <-Hm.
  - rewrite (proj2 (shl_align_spec M e f) Hf).
    pose proof (binary_round_aux_within s M e loc_Exact) as H. cbv zeta in H.
    fold f in H. rewrite Z.max_r in H by exact Hf.
    rewrite Z.max_l, Z.max_r by lia. by rewrite Z.pow_0_r, Z.mul_1_r.
Qed.

Lemma rounds_within_sign (e1 m1 : Z) (r : float) :
  rounds_within true e1 m1 r → non_positive r = true.
Proof.
  intros [->|(m3 & e3 & -> & _)]; [done|]. by destruct (e3 <=? emax - prec).
Qed.

Lemma binary_round_aux_sign (m e : Z) (l : location) :
  0 <= m → non_positive (binary_round_aux prec emax true m e l) = true.
Proof.
  intros Hm. destruct m as [|M|M]; [| |lia].
  - unfold binary_round_aux.
    pose proof (shr_fexp_spec 0 e l) as [H1 _]; [done|].
    destruct (shr_fexp prec emax 0 e l) as [mrs' e'].
    cbn [fst] in H1. rewrite Z.div_0_l in H1 by (apply Z.pow_nonzero; lia).
    pose proof (round_nearest_even_bounds (shr_m mrs') (loc_of_shr_record mrs'))
      as Hr.
    set (m2 := round_nearest_even (shr_m mrs') (loc_of_shr_record mrs')) in *.
    pose proof (shr_fexp_spec m2 e' loc_Exact) as [H2 _]; [lia|].
    destruct (shr_fexp prec emax m2 e' loc_Exact) as [mrs'' e''].
    cbn [fst] in H2.
    assert (0 <= shr_m mrs'').
    { rewrite H2. apply Z.div_pos; [lia|]. apply Z.pow_pos_nonneg; lia. }
    destruct (shr_m mrs''); [done| |lia]. by destruct (e'' <=? emax - prec).
  - eapply rounds_within_sign. apply binary_round_aux_within.
Qed.

Lemma SFdiv_non_positive (s : float) (mD : positive) (eD : Z) :
  non_positive s = true →
  non_positive (SFdiv prec emax s (S754_finite false mD eD)) = true.
Proof.
  destruct s as [sx|[]| |[] ms es]; try done. intros _. cbn [SFdiv xorb].
  destruct (SFdiv_core_binary_spec ms mD es eD) as [l Hcore].
  cbv zeta in Hcore. rewrite Hcore. apply binary_round_aux_sign.
  apply Z.div_pos; [|lia].
  apply Z.mul_nonneg_nonneg; [lia|]. apply Z.pow_nonneg. lia.
Qed.

Lemma fadd_non_positive (x y : float) :
  non_positive x = true → non_positive y = true →
  non_positive (fadd x y) = true.
Proof.
  destruct x as [sx|[]| |[] mx ex], y as [sy|[]| |[] my ey]; try done.
  - by destruct sx, sy.
  - intros _ _. unfold fadd, SFadd. cbn [cond_Zopp].
    set (X := Zpos (fst (shl_align mx ex (Z.min ex ey)))).
    set (Y := Zpos (fst (shl_align my ey (Z.min ex ey)))).
    destruct (- X + - Y) as [|p|p] eqn:Hp; [done|lia|].
    cbn [binary_normalize]. eapply rounds_within_sign, binary_round_within.
Qed.

Lemma binary_round_at_most (M p : positive) (E ez : Z) :
  Zpos M < 2 ^ 53 → -1074 <= E <= 971 →
  (∀ c, c <= ez → c <= E → Zpos p * 2 ^ (ez - c) < Zpos M * 2 ^ (E - c)) →
  let r := binary_round prec emax false p ez in
  r = S754_zero false ∨ at_most M E r.
Proof.
  intros HM HE Hv r.
  pose proof (binary_round_within false p ez) as H. cbv zeta in H. fold r in H.
  set (d := Zpos (digits2_pos p)) in *.
  set (f := fexp prec emax (d + ez)) in *.
  pose proof (digits2_pos_bounds p) as [Hd _]. fold d in Hd.
  assert (Hd1 : 1 <= d) by (subst d; lia).
  assert (HfE : f <= E).
  { unfold f. rewrite fexp_eq.
    set (c := Z.min ez E).
    specialize (Hv c ltac:(lia) ltac:(lia)).
    assert (H1 : 2 ^ (d - 1) * 2 ^ (ez - c) < 2 ^ 53 * 2 ^ (E - c)).
    { assert (0 < 2 ^ (ez - c)) by (apply Z.pow_pos_nonneg; lia).
      assert (0 < 2 ^ (E - c)) by (apply Z.pow_pos_nonneg; lia). nia. }
    rewrite <-!Z.pow_add_r in H1 by lia.
    apply Z.pow_lt_mono_r_iff in H1; lia. }
  assert (Hfmin : -1074 <= f) by (unfold f; rewrite fexp_eq; lia).
  set (m1 := Zpos p * 2 ^ Z.max 0 (ez - f) / 2 ^ Z.max 0 (f - ez)) in *.
  assert (Hm1 : m1 + 1 <= Zpos M * 2 ^ (E - f)).
  { destruct (Z.le_ge_cases f ez) as [Hle|Hle].
    - unfold m1. rewrite Z.max_r, Z.max_l by lia.
      rewrite Z.pow_0_r, Z.div_1_r.
      specialize (Hv f ltac:(lia) ltac:(lia)). lia.
    - unfold m1. rewrite Z.max_l, Z.max_r by lia.
      rewrite Z.pow_0_r, Z.mul_1_r.
      specialize (Hv ez ltac:(lia) ltac:(lia)).
      rewrite Z.sub_diag, Z.pow_0_r, Z.mul_1_r in Hv.
      assert (Zpos p / 2 ^ (f - ez) < Zpos M * 2 ^ (E - f)); [|lia].
      apply Z.div_lt_upper_bound; [apply Z.pow_pos_nonneg; lia|].
      replace (E - ez) with ((f - ez) + (E - f)) in Hv by lia.
      rewrite pow2_split in Hv by lia. lia. }
  clearbody m1.
  destruct H as [->|(m3 & e3 & Hr & He3 & Hm3 & Hm3u & Hcarry)]; [by left|].
  right.
  assert (Hk : 0 < 2 ^ (E - f)) by (apply Z.pow_pos_nonneg; lia).
  assert (He3E : e3 <= E).
  { destruct (Z.le_gt_cases e3 E) as [|Hgt]; [done|].
    assert (e3 = f + 1 ∧ f = E) as [-> ->] by lia.
    specialize (Hcarry ltac:(lia)).
    replace (E + 1 - E) with 1 in Hm3 by lia.
    rewrite Z.sub_diag, Z.pow_0_r in Hm1.
    change (2 ^ 1) with 2 in Hm3. lia. }
  rewrite Hr. rewrite (proj2 (Z.leb_le e3 (emax - prec))) by (unfold emax, prec; lia).
  cbn [at_most]. split; [done|]. split; [lia|].
  destruct (Z.eq_dec e3 E) as [->|Hne]; [|left; lia].
  right. split; [done|].
  assert (Zpos m3 * 2 ^ (E - f) <= Zpos M * 2 ^ (E - f)) by lia.
  nia.
Qed.

Lemma fadd_at_most (M : positive) (E : Z) (x y : float) :
  2 ^ 52 <= Zpos M < 2 ^ 53 → -1074 <= E <= 971 →
  at_most M E x → non_positive y = true →
  non_positive (fadd x y) = true ∨ at_most M E (fadd x y).
Proof.
  intros HM HE Hx Hy.
  destruct x as [|[]| |[] m e]; try done.
  destruct Hx as (Hm & He & Hme).
  destruct y as [sy|[]| |[] my ey]; try done.
  - right. cbn. done.
  - by left.
  - unfold fadd, SFadd. set (ez := Z.min e ey).
    rewrite !shl_align_fst by lia. cbn [cond_Zopp].
    destruct (Zpos m * 2 ^ (e - ez) + - (Zpos my * 2 ^ (ey - ez)))
      as [|p|p] eqn:Hp.
    + by left.
    + cbn [binary_normalize].
      destruct (binary_round_at_most M p E ez ltac:(lia) HE) as [->|H];
        [|by left|by right].
      intros c Hc HcE.
      assert (Hp' : Zpos p < Zpos m * 2 ^ (e - ez)).
      { assert (0 < Zpos my * 2 ^ (ey - ez)); [|lia].
        apply Z.mul_pos_pos; [lia|]. apply Z.pow_pos_nonneg; lia. }
      assert (H1 : Zpos p * 2 ^ (ez - c) < Zpos m * 2 ^ (e - c)).
      { replace (e - c) with ((e - ez) + (ez - c)) by lia.
        rewrite pow2_split by lia.
        assert (0 < 2 ^ (ez - c)) by (apply Z.pow_pos_nonneg; lia). nia. }
      eapply Z.lt_le_trans; [exact H1|].
      destruct Hme as [Hlt|[-> Hle]].
      * replace (E - c) with ((E - e) + (e - c)) by lia.
        rewrite pow2_split by lia.
        assert (HB : 0 < 2 ^ (e - c)) by (apply Z.pow_pos_nonneg; lia).
        assert (HA : 2 ^ 1 <= 2 ^ (E - e)) by (apply Z.pow_le_mono_r; lia).
        change (2 ^ 1) with 2 in HA.
        rewrite Z.mul_assoc. etrans.
        { apply (Z.mul_le_mono_nonneg_r _ (2 ^ 53)); lia. }
        apply Z.mul_le_mono_nonneg_r; [lia|].
        change (2 ^ 53) with (2 ^ 52 * 2).
        apply Z.mul_le_mono_nonneg; lia.
      * apply Z.mul_le_mono_nonneg_r; [|lia].
        apply Z.pow_nonneg. lia.
    + left. cbn [binary_normalize].
      eapply rounds_within_sign, binary_round_within.
Qed.

Lemma fle_non_positive (x : float) (m : positive) (e : Z) :
  non_positive x = true → fle x (S754_finite false m e) = true.
Proof. by destruct x as [|[]| |[]]. Qed.

Lemma fle_at_most (M M' : positive) (E : Z) (x : float) :
  Zpos M <= Zpos M' → at_most M E x →
  fle x (S754_finite false M' E) = true.
Proof.
  intros HM. destruct x as [|[]| |[] m e]; try done.
  intros (_ & _ & Hme). unfold fle, SFleb. cbn [SFcompare].
  destruct Hme as [Hlt|[-> Hle]].
  - by rewrite (proj2 (Z.compare_lt_iff e E)).
  - rewrite Z.compare_refl, pos_compare_cont_Eq.
    destruct (Pos.compare_spec m M'); try done. lia.
Qed.

Lemma scan_row_stuck (step lat : float) (fuel : nat) :
  non_positive step = true →
  ∀ lon points,
    non_positive lon = true ∨ at_most 7289498209364214 (-46) lon →
    scan_row fuel step lat lon points = OutOfFuel.
Proof.
  intros Hstep. induction fuel as [|fuel IH]; intros lon points Hlon; [done|].
  cbn [scan_row].
  assert (Hle : fle lon lon_max = true).
  { rewrite lon_max_eq. destruct Hlon as [Hlon|Hlon].
    - by apply fle_non_positive.
    - apply (fle_at_most 7289498209364214); [lia|done]. }
  rewrite Hle, point_in_any_polygon_on_land. cbn [mbind outcome_bind bind].
  apply IH. destruct Hlon as [Hlon|Hlon].
  - left. by apply fadd_non_positive.
  - apply fadd_at_most; (done || lia).
Qed.

Lemma generate_grid_stuck (fuel : nat) (spacing_m : float) :
  non_positive spacing_m = true →
  generate_grid fuel spacing_m = OutOfFuel.
Proof.
  intros Hs. unfold generate_grid.
  rewrite lat_step_eq, lon_step_eq. cbn [mbind outcome_bind bind].
  destruct fuel as [|fuel]; [done|]. cbn [scan_rows].
  replace (fle lat_min lat_max) with true by (vm_compute; reflexivity).
  rewrite scan_row_stuck; [done| |].
  - replace (fmul (of_Z 111320) cos_lat_center)
      with (S754_finite false 7647728782457847 (-36))
      by (vm_compute; reflexivity).
    by apply SFdiv_non_positive.
  - right. rewrite lon_min_eq. cbn. lia.
Qed.

(** X14. For a spacing that is zero, negative or [-inf], [generate_grid]
    never returns, however many iterations it is allowed: both steps are
    zero, negative or [-inf], the longitude of the first row never exceeds
    [lon_min], and the inner loop never ends. *)
Theorem X14_generate_grid_non_positive_spacing (fuel : nat)
    (spacing_m : float) :
  non_positive spacing_m = true →
  generate_grid fuel spacing_m = OutOfFuel ∧
  ¬ ∃ points, generate_grid fuel spacing_m = Ok points.
Proof.
  intros Hs. rewrite (generate_grid_stuck fuel spacing_m Hs).
  split; [done|]. by intros [points ?].
Qed.

Lemma X14_generate_grid_non_positive_spacing_witness :
  generate_grid 50 (of_Z (-250)) = OutOfFuel ∧
  ¬ ∃ points, generate_grid 50 (of_Z (-250)) = Ok points.
Proof.
  apply (X14_generate_grid_non_positive_spacing 50 (of_Z (-250))).
  vm_compute. reflexivity.
Defined.

End GridFacts.

(** ** Facts about the command line of the grid generator *)

Module GridMainFacts.
Import Grid GridFacts GridMain.

Local Open Scope Z_scope.

(** *** The float of an integer spacing *)

Lemma binary_round_int (s : bool) (p : positive) :
  ∃ m3 e3,
    binary_round prec emax s p 0
      = (if e3 <=? emax - prec then S754_finite s m3 e3 else S754_infinity s)
    ∧ 2 ^ 52 <= Zpos m3
    ∧ Zpos (digits2_pos p) - 53 <= e3 <= Zpos (digits2_pos p) - 52.
Proof.
  pose proof (digits2_pos_bounds p) as [Hl Hu].
  set (d := Zpos (digits2_pos p)) in *.
  assert (Hd : 1 <= d) by (subst d; lia).
  assert (Hf : fexp prec emax (d + 0) = d - 53) by (rewrite fexp_eq; lia).
  destruct (Z.lt_ge_cases (d - 53) 0) as [Hneg|Hpos].
  - pose proof (binary_round_shl s p 0) as H. cbv zeta in H. fold d in H.
    rewrite Hf in H. destruct (H Hneg) as (m3 & e3 & Hr & H1 & H2 & H3 & H4).
    exists m3, e3. split; [done|]. split; [|lia].
    destruct (Z.eq_dec e3 (d - 53)) as [He|He]; [|apply H3; lia].
    etrans; [|apply (H2 He)].
    replace 52 with ((d - 1) + (0 - (d - 53))) by lia.
    rewrite pow2_split by lia.
    apply Z.mul_le_mono_nonneg_r; [|exact Hl]. apply Z.pow_nonneg. lia.
  - pose proof (binary_round_shr s p 0) as H. cbv zeta in H. fold d in H.
    rewrite Hf in H.
    assert (Hm1 : 2 ^ 52 <= Zpos p / 2 ^ (d - 53 - 0)).
    { apply Z.div_le_lower_bound; [apply Z.pow_pos_nonneg; lia|].
      rewrite <-pow2_split by lia. etrans; [|exact Hl].
      apply Z.pow_le_mono_r; lia. }
    destruct H as (m3 & e3 & Hr & H1 & H2 & H3 & H4); [lia|lia|].
    exists m3, e3. split; [done|]. split; [|lia].
    destruct (Z.eq_dec e3 (d - 53)) as [He|He]; [|apply H3; lia].
    etrans; [exact Hm1|]. by apply H2.
Qed.

Lemma digits2_pos_ge (p : positive) (j : Z) :
  0 <= j → 2 ^ j <= Zpos p → j + 1 <= Zpos (digits2_pos p).
Proof.
  intros Hj Hp. pose proof (digits2_pos_bounds p) as [_ Hu].
  assert (H : 2 ^ j < 2 ^ Zpos (digits2_pos p)) by lia.
  apply Z.pow_lt_mono_r_iff in H; lia.
Qed.

Lemma digits2_pos_lt (p : positive) (j : Z) :
  0 <= j → Zpos p < 2 ^ j → Zpos (digits2_pos p) <= j.
Proof.
  intros Hj Hp. pose proof (digits2_pos_bounds p) as [Hl _].
  assert (H : 2 ^ (Zpos (digits2_pos p) - 1) < 2 ^ j) by lia.
  apply Z.pow_lt_mono_r_iff in H; lia.
Qed.

(** The float of a positive integer below [2^1023], at least [2^j]. *)
Lemma float_of_int_positive (n j : Z) :
  0 <= j → 2 ^ j <= n → n < 2 ^ 1023 →
  ∃ ms es, float_of_int n = Some (S754_finite false ms es)
           ∧ 2 ^ 52 <= Zpos ms ∧ j - 52 <= es.
Proof.
  intros Hj Hn Hu.
  assert (0 < 2 ^ j) by (apply Z.pow_pos_nonneg; lia).
  destruct n as [|p|p]; [lia| |lia].
  unfold float_of_int, of_Z. cbn [binary_normalize].
  destruct (binary_round_int false p) as (m3 & e3 & -> & Hm & He).
  pose proof (digits2_pos_ge p j Hj Hn).
  pose proof (digits2_pos_lt p 1023 ltac:(lia) Hu).
  rewrite (proj2 (Z.leb_le e3 (emax - prec))) by (unfold emax, prec; lia).
  cbn [is_finite]. exists m3, e3. repeat split; (done || lia).
Qed.

(** The float of a negative integer above [-2^1023]. *)
Lemma float_of_int_negative (n : Z) :
  - 2 ^ 1023 < n → n < 0 →
  ∃ x, float_of_int n = Some x ∧ non_positive x = true.
Proof.
  intros Hl Hn. destruct n as [|p|p]; [lia|lia|].
  unfold float_of_int, of_Z. cbn [binary_normalize].
  destruct (binary_round_int true p) as (m3 & e3 & -> & Hm & He).
  pose proof (digits2_pos_lt p 1023 ltac:(lia) ltac:(lia)).
  rewrite (proj2 (Z.leb_le e3 (emax - prec))) by (unfold emax, prec; lia).
  cbn [is_finite]. by eexists.
Qed.

(** An integer of magnitude [2^1024] or more has no float. *)
Lemma float_of_int_overflow (n : Z) :
  2 ^ 1024 <= Z.abs n → float_of_int n = None.
Proof.
  intros Hn. unfold float_of_int, of_Z.
  destruct n as [|p|p]; [done| |]; cbn [binary_normalize Z.abs] in *.
  - destruct (binary_round_int false p) as (m3 & e3 & -> & Hm & He).
    pose proof (digits2_pos_ge p 1024 ltac:(lia) Hn).
    by rewrite (proj2 (Z.leb_gt e3 (emax - prec))) by (unfold emax, prec; lia).
  - destruct (binary_round_int true p) as (m3 & e3 & -> & Hm & He).
    pose proof (digits2_pos_ge p 1024 ltac:(lia) Hn).
    by rewrite (proj2 (Z.leb_gt e3 (emax - prec))) by (unfold emax, prec; lia).
Qed.

(** *** The order on floats that are not NaN *)

Lemma fle_refl (x : float) : is_nan x = false → fle x x = true.
Proof.
  destruct x as [s|[]| |[] m e]; try done; intros _;
    unfold fle, SFleb; cbn [SFcompare]; rewrite Z.compare_refl;
    rewrite pos_compare_cont_Eq, Pos.compare_refl; done.
Qed.

Lemma fle_not_nan (a b : float) :
  fle a b = true → is_nan a = false ∧ is_nan b = false.
Proof. by destruct a as [|[]| |[]], b as [|[]| |[]]. Qed.

Lemma flt_fle (a b : float) : flt a b = true → fle a b = true.
Proof.
  unfold flt, fle, SFltb, SFleb. by destruct (SFcompare a b) as [[]|].
Qed.

Lemma fle_total (a b : float) :
  is_nan a = false → is_nan b = false → flt a b = false → fle b a = true.
Proof.
  unfold fle, flt, SFleb, SFltb.
  destruct a as [sa|sa| |sa ma ea], b as [sb|sb| |sb mb eb];
    cbn [SFcompare is_nan]; try done;
    try (by destruct sa, sb); try (by destruct sa); try (by destruct sb).
  intros _ _. destruct sa, sb; try done; order_cases.
Qed.

Lemma fle_trans (a b c : float) :
  fle a b = true → fle b c = true → fle a c = true.
Proof.
  unfold fle, SFleb.
  destruct a as [sa|sa| |sa ma ea], b as [sb|sb| |sb mb eb],
           c as [sc|sc| |sc mc ec];
    cbn [SFcompare]; try done;
    try (by destruct sa, sb, sc); try (by destruct sa, sb);
    try (by destruct sa, sc); try (by destruct sb, sc);
    try (by destruct sa); try (by destruct sb); try (by destruct sc).
  destruct sa, sb, sc; try done; order_cases.
Qed.

Lemma fold_min_spec (l : list float) : ∀ (x : float) (seen : list float),
  Forall (λ y, is_nan y = false) l →
  x ∈ seen → Forall (λ y, fle x y = true) seen →
  let r := fold_left (λ cur item, if flt item cur then item else cur) l x in
  r ∈ seen ++ l ∧ Forall (λ y, fle r y = true) (seen ++ l).
Proof.
  induction l as [|item l IH]; intros x seen Hl Hx Hseen.
  - cbn. by rewrite app_nil_r.
  - apply Forall_cons in Hl as [Hitem Hl]. cbn [fold_left].
    replace (seen ++ item :: l) with ((seen ++ [item]) ++ l)
      by (by rewrite <-app_assoc).
    assert (Hxn : is_nan x = false).
    { rewrite Forall_forall in Hseen. by destruct (fle_not_nan x x (Hseen x Hx)). }
    destruct (flt item x) eqn:Hlt.
    + apply IH; [done|set_solver|].
      apply Forall_app. split.
      * eapply Forall_impl; [exact Hseen|]. cbn. intros y Hy.
        apply flt_fle. by apply (flt_fle_trans item x y).
      * apply Forall_singleton. by apply fle_refl.
    + apply IH; [done|set_solver|].
      apply Forall_app. split; [done|].
      apply Forall_singleton. by apply fle_total.
Qed.

Lemma fold_max_spec (l : list float) : ∀ (x : float) (seen : list float),
  Forall (λ y, is_nan y = false) l →
  x ∈ seen → Forall (λ y, fle y x = true) seen →
  let r := fold_left (λ cur item, if fgt item cur then item else cur) l x in
  r ∈ seen ++ l ∧ Forall (λ y, fle y r = true) (seen ++ l).
Proof.
  induction l as [|item l IH]; intros x seen Hl Hx Hseen.
  - cbn. by rewrite app_nil_r.
  - apply Forall_cons in Hl as [Hitem Hl]. cbn [fold_left].
    replace (seen ++ item :: l) with ((seen ++ [item]) ++ l)
      by (by rewrite <-app_assoc).
    assert (Hxn : is_nan x = false).
    { rewrite Forall_forall in Hseen. by destruct (fle_not_nan x x (Hseen x Hx)). }
    change (fgt item x) with (flt x item).
    destruct (flt x item) eqn:Hlt.
    + apply IH; [done|set_solver|].
      apply Forall_app. split.
      * eapply Forall_impl; [exact Hseen|]. cbn. intros y Hy.
        apply (fle_trans y x item); [done|by apply flt_fle].
      * apply Forall_singleton. by apply fle_refl.
    + apply IH; [done|set_solver|].
      apply Forall_app. split; [done|].
      apply Forall_singleton. by apply fle_total.
Qed.

Lemma py_min_spec (l : list float) (x : float) :
  Forall (λ y, is_nan y = false) l → py_min l = Some x →
  x ∈ l ∧ Forall (λ y, fle x y = true) l.
Proof.
  destruct l as [|a l]; [done|]. intros [Ha Hl]%Forall_cons [= <-].
  apply (fold_min_spec l a [a] Hl); [set_solver|].
  apply Forall_singleton. by apply fle_refl.
Qed.

Lemma py_max_spec (l : list float) (x : float) :
  Forall (λ y, is_nan y = false) l → py_max l = Some x →
  x ∈ l ∧ Forall (λ y, fle y x = true) l.
Proof.
  destruct l as [|a l]; [done|]. intros [Ha Hl]%Forall_cons [= <-].
  apply (fold_max_spec l a [a] Hl); [set_solver|].
  apply Forall_singleton. by apply fle_refl.
Qed.

Lemma binary_round_aux_not_nan (s : bool) (m e : Z) (l : location) :
  0 <= m → is_nan (binary_round_aux prec emax s m e l) = false.
Proof.
  intros Hm. unfold binary_round_aux.
  pose proof (shr_fexp_spec m e l Hm) as [H1 _].
  destruct (shr_fexp prec emax m e l) as [mrs' e'].
  cbn [fst] in H1.
  assert (H0 : 0 <= shr_m mrs').
  { rewrite H1. apply Z.div_pos; [lia|]. apply Z.pow_pos_nonneg; lia. }
  pose proof (round_nearest_even_bounds (shr_m mrs') (loc_of_shr_record mrs'))
    as Hr.
  set (m2 := round_nearest_even (shr_m mrs') (loc_of_shr_record mrs')) in *.
  pose proof (shr_fexp_spec m2 e' loc_Exact) as [H2 _]; [lia|].
  destruct (shr_fexp prec emax m2 e' loc_Exact) as [mrs'' e''].
  cbn [fst] in H2.
  assert (0 <= shr_m mrs'').
  { rewrite H2. apply Z.div_pos; [lia|]. apply Z.pow_pos_nonneg; lia. }
  destruct (shr_m mrs''); [done| |lia]. by destruct (e'' <=? emax - prec).
Qed.

Lemma py_round6_nan (x : float) : is_nan (py_round6 x) = is_nan x.
Proof.
  destruct x as [s|s| |s m e]; try done. unfold py_round6.
  destruct (if 0 <=? e then _ else _) as [|p|p]; try done.
  cbn [SFdiv is_nan].
  destruct (SFdiv_core_binary_spec p 1000000 0 0) as [l Hcore].
  cbv zeta in Hcore. rewrite Hcore. apply binary_round_aux_not_nan.
  apply Z.div_pos; [|lia].
  apply Z.mul_nonneg_nonneg; [lia|]. apply Z.pow_nonneg. lia.
Qed.

Lemma rounded_land_point_not_nan (p : point) :
  rounded_land_point p → is_nan p.1 = false ∧ is_nan p.2 = false.
Proof.
  intros (lat & lon & -> & _ & Hlat & Hlon). cbn [fst snd].
  rewrite !py_round6_nan.
  destruct (fle_not_nan _ _ Hlat), (fle_not_nan _ _ Hlon). done.
Qed.

(** *** The report of [--count] *)

Lemma report_empty (spacing : Z) :
  report spacing [] = Run [GridSpacing spacing; TotalLandPoints 0]
                          (Fails ValueError).
Proof. reflexivity. Qed.

Lemma report_cons (spacing : Z) (p : point) (points : list point) :
  ∃ lat_lo lat_hi lon_lo lon_hi,
    py_min (map fst (p :: points)) = Some lat_lo ∧
    py_max (map fst (p :: points)) = Some lat_hi ∧
    py_min (map snd (p :: points)) = Some lon_lo ∧
    py_max (map snd (p :: points)) = Some lon_hi ∧
    report spacing (p :: points) =
      Run [GridSpacing spacing; TotalLandPoints (length (p :: points));
           LatitudeRange lat_lo lat_hi; LongitudeRange lon_lo lon_hi;
           EstimatedScrapeTime
             (int_truediv (Z.of_nat (length (p :: points)) * 2) 3600)
             (int_truediv (Z.of_nat (length (p :: points)) * 4) 3600)]
          Returns.
Proof. unfold report. cbn [map py_min py_max]. by eexists _, _, _, _. Qed.

(** ** Properties of the command line of the grid generator *)

(** X15. With an integer spacing that is zero or negative (above
    [-2^1023]), [main] never finishes and prints nothing, with or without
    [--count]: [argparse] accepts the value and [generate_grid] does not
    return. *)
Theorem X15_main_non_positive_spacing (fuel : nat) (count : bool) (spacing : Z) :
  - 2 ^ 1023 < spacing → spacing <= 0 →
  main fuel count spacing = Run [] Unfinished.
Proof.
  intros Hl Hu. unfold main.
  destruct (Z.eq_dec spacing 0) as [->|Hne].
  - change (float_of_int 0) with (Some (S754_zero false)). cbv iota beta.
    by rewrite (generate_grid_stuck fuel (S754_zero false)).
  - destruct (float_of_int_negative spacing Hl ltac:(lia)) as (x & -> & Hx).
    by rewrite (generate_grid_stuck fuel x Hx).
Qed.

Lemma X15_main_non_positive_spacing_witness :
  main 50 true (-250) = Run [] Unfinished.
Proof. apply (X15_main_non_positive_spacing 50 true (-250)); lia. Defined.

(** X16. With an integer spacing of magnitude [2^1024] or more, [main]
    ends with [OverflowError] before anything is printed: the spacing has
    no float, and the first division of [generate_grid] raises. *)
Theorem X16_main_overflow (fuel : nat) (count : bool) (spacing : Z) :
  2 ^ 1024 <= Z.abs spacing →
  main fuel count spacing = Run [] (Fails OverflowError).
Proof. intros H. unfold main. by rewrite float_of_int_overflow. Qed.

Lemma X16_main_overflow_witness :
  main 5 false (2 ^ 1024) = Run [] (Fails OverflowError).
Proof. apply (X16_main_overflow 5 false (2 ^ 1024)). lia. Defined.

(** X17. With an integer spacing from 1 to below [2^1023], [main]
    finishes once the loops are allowed enough iterations: without
    [--count] it prints one line for each point of the grid, in order, and
    returns; with [--count] it prints the report and returns when the grid
    has a point, and ends with the [ValueError] of [min] of an empty list,
    after the first two lines of the report, when the grid is empty. *)
Theorem X17_main_positive_spacing (count : bool) (spacing : Z) :
  1 <= spacing → spacing < 2 ^ 1023 →
  ∃ fuel0 points spacing_m,
    float_of_int spacing = Some spacing_m ∧
    ∀ fuel, (fuel0 <= fuel)%nat →
      generate_grid fuel spacing_m = Ok points ∧
      main fuel count spacing =
        (if count then report spacing points
         else Run (map (λ p : point, Coordinates p.1 p.2) points) Returns) ∧
      (ends (main fuel count spacing) = Fails ValueError ↔
       count = true ∧ points = []) ∧
      (ends (main fuel count spacing) = Returns ↔
       count = false ∨ points ≠ []).
Proof.
  intros Hl Hu.
  destruct (float_of_int_positive spacing 0 ltac:(lia) Hl Hu)
    as (ms & es & Hf & Hm & He).
  destruct (steps_above_shape 0 ms es ltac:(lia) Hm He) as [Hlat Hlon].
  destruct (generate_grid_terminates (S754_finite false ms es) _ _
              (lat_step_eq _) (lon_step_eq _))
    as (fuel0 & rows & cols & _ & _ & Hgrid).
  { apply (ge_pow2_mono _ (0 - 17)); [lia|done]. }
  { apply (ge_pow2_mono _ (0 - 17)); [lia|done]. }
  eexists fuel0, _, _. split; [exact Hf|].
  intros fuel Hfuel.
  assert (Hg : generate_grid fuel (S754_finite false ms es)
               = Ok (concat (map (λ lat, row_points lat cols) rows))).
  { rewrite (generate_grid_fuel_mono fuel0 fuel) by (done || by rewrite Hgrid).
    done. }
  split; [done|]. unfold main. rewrite Hf, Hg.
  split; [done|].
  destruct count.
  - destruct (concat _) as [|p points].
    + rewrite report_empty. cbn. split; split; try done.
      * intros [|]; done.
    + destruct (report_cons spacing p points)
        as (a & b & c & d & _ & _ & _ & _ & ->).
      cbn [ends]. split; split; try done.
      * by intros [_ ?].
      * intros _. by right.
  - cbn [ends]. split; split; try done.
    + by intros [? _].
    + intros _. by left.
Qed.

Lemma X17_main_positive_spacing_witness :
  ∃ fuel0 points spacing_m,
    float_of_int 5000 = Some spacing_m ∧
    ∀ fuel, (fuel0 <= fuel)%nat →
      generate_grid fuel spacing_m = Ok points ∧
      main fuel true 5000 = report 5000 points ∧
      (ends (main fuel true 5000) = Fails ValueError ↔
       true = true ∧ points = []) ∧
      (ends (main fuel true 5000) = Returns ↔ true = false ∨ points ≠ []).
Proof. apply (X17_main_positive_spacing true 5000); lia. Defined.

(** X18. With an integer spacing from 65536 to below [2^1023] the grid is
    empty: [main --count] prints the spacing and a total of 0 points and
    ends with [ValueError]; without [--count], [main] prints nothing and
    returns. *)
Theorem X18_main_coarse_spacing (fuel : nat) (spacing : Z) :
  (2 <= fuel)%nat → 65536 <= spacing → spacing < 2 ^ 1023 →
  main fuel true spacing
    = Run [GridSpacing spacing; TotalLandPoints 0] (Fails ValueError) ∧
  main fuel false spacing = Run [] Returns.
Proof.
  intros Hfuel Hl Hu. unfold main.
  destruct (float_of_int_positive spacing 16 ltac:(lia) Hl Hu)
    as (ms & es & -> & Hm & He).
  destruct (steps_above_shape 16 ms es ltac:(lia) Hm He) as [Hlat Hlon].
  change (16 - 17) with (-1) in Hlat, Hlon.
  rewrite (generate_grid_coarse fuel _ Hfuel Hlat Hlon). done.
Qed.

Lemma X18_main_coarse_spacing_witness :
  main 2 true 100000
    = Run [GridSpacing 100000; TotalLandPoints 0] (Fails ValueError) ∧
  main 2 false 100000 = Run [] Returns.
Proof. apply (X18_main_coarse_spacing 2 100000); lia. Defined.

(** X19. For a grid that is not empty, the report of [--count] has its
    five lines and returns; the latitude range and the longitude range it
    prints are attained by points of the grid and bound every point of
    the grid (no coordinate of the grid is NaN, so [min] and [max] are the
    least and the greatest value). *)
Theorem X19_report_ranges (fuel : nat) (spacing_m : float) (spacing : Z)
    (points : list point) :
  generate_grid fuel spacing_m = Ok points → points ≠ [] →
  ∃ lat_lo lat_hi lon_lo lon_hi,
    report spacing points =
      Run [GridSpacing spacing; TotalLandPoints (length points);
           LatitudeRange lat_lo lat_hi; LongitudeRange lon_lo lon_hi;
           EstimatedScrapeTime
             (int_truediv (Z.of_nat (length points) * 2) 3600)
             (int_truediv (Z.of_nat (length points) * 4) 3600)]
          Returns ∧
    lat_lo ∈ map fst points ∧ lat_hi ∈ map fst points ∧
    lon_lo ∈ map snd points ∧ lon_hi ∈ map snd points ∧
    Forall (λ p : point,
              fle lat_lo p.1 = true ∧ fle p.1 lat_hi = true ∧
              fle lon_lo p.2 = true ∧ fle p.2 lon_hi = true) points.
Proof.
  intros Hgrid Hne.
  assert (Hland : Forall rounded_land_point points).
  { revert Hgrid. unfold generate_grid.
    destruct (lat_step spacing_m) as [sl| |]; [|done..].
    destruct (lon_step spacing_m) as [so| |]; [|done..].
    cbn [mbind outcome_bind bind]. by apply scan_rows_rounded_land. }
  assert (Hlats : Forall (λ y, is_nan y = false) (map fst points)).
  { apply Forall_fmap. eapply Forall_impl; [exact Hland|].
    intros p Hp. by destruct (rounded_land_point_not_nan p Hp). }
  assert (Hlons : Forall (λ y, is_nan y = false) (map snd points)).
  { apply Forall_fmap. eapply Forall_impl; [exact Hland|].
    intros p Hp. by destruct (rounded_land_point_not_nan p Hp). }
  destruct points as [|p points]; [done|].
  destruct (report_cons spacing p points)
    as (a & b & c & d & Ha & Hb & Hc & Hd & Hrep).
  exists a, b, c, d. split; [done|].
  destruct (py_min_spec _ _ Hlats Ha) as [Ha1 Ha2].
  destruct (py_max_spec _ _ Hlats Hb) as [Hb1 Hb2].
  destruct (py_min_spec _ _ Hlons Hc) as [Hc1 Hc2].
  destruct (py_max_spec _ _ Hlons Hd) as [Hd1 Hd2].
  do 4 (split; [done|]).
  rewrite Forall_fmap in Ha2, Hb2, Hc2, Hd2.
  rewrite Forall_forall in Ha2, Hb2, Hc2, Hd2.
  apply Forall_forall. intros q Hq.
  repeat split; [by apply Ha2|by apply Hb2|by apply Hc2|by apply Hd2].
Qed.

Lemma X19_report_ranges_witness :
  ∃ points,
    generate_grid 100 (of_Z 5000) = Ok points ∧
    ∃ lat_lo lat_hi lon_lo lon_hi,
      report 5000 points =
        Run [GridSpacing 5000; TotalLandPoints (length points);
             LatitudeRange lat_lo lat_hi; LongitudeRange lon_lo lon_hi;
             EstimatedScrapeTime
               (int_truediv (Z.of_nat (length points) * 2) 3600)
               (int_truediv (Z.of_nat (length points) * 4) 3600)]
            Returns ∧
      lat_lo ∈ map fst points ∧ lat_hi ∈ map fst points ∧
      lon_lo ∈ map snd points ∧ lon_hi ∈ map snd points ∧
      Forall (λ p : point,
                fle lat_lo p.1 = true ∧ fle p.1 lat_hi = true ∧
                fle lon_lo p.2 = true ∧ fle p.2 lon_hi = true) points.
Proof.
  eexists. split; [vm_compute; reflexivity|].
  apply (X19_report_ranges 100 (of_Z 5000) 5000).
  - vm_compute. reflexivity.
  - discriminate.
Defined.

End GridMainFacts.

(** ** Facts about the deduplicator on the records of a file *)

Module DedupFileFacts.
Import Dedup DedupFacts DedupFile.

(** *** The reading loop on records that are not short *)

Lemma read_row_not_short (fieldnames : list pystr) (r : record) :
  (length fieldnames <= length r)%nat →
  read_row fieldnames r = embed fieldnames r.
Proof.
  intros Hl. unfold read_row, embed, row_of. f_equal.
  rewrite drop_ge by done. rewrite app_nil_r.
  rewrite <-list_to_map_fmap, fmap_reverse. f_equal. f_equal.
  clear Hl. revert r. induction fieldnames as [|k ks IH]; intros [|x r];
    try done.
  cbn. by rewrite IH.
Qed.

Lemma get_strip_embed (fieldnames : list pystr) (r : record) (k : pystr) :
  get_strip (embed fieldnames r) k = Ok (py_strip (get (row_of fieldnames r) k)).
Proof.
  unfold get_strip, embed, get. cbn [named]. rewrite lookup_fmap.
  by destruct (row_of fieldnames r !! k).
Qed.

Lemma row_key_embed (fieldnames : list pystr) (r : record) :
  row_key (embed fieldnames r) = Ok (derive_key (row_of fieldnames r)).
Proof.
  unfold row_key, derive_key. rewrite !get_strip_embed.
  cbn [mbind result_bind].
  destruct (truthy (py_strip (get _ (str "data_id")))); [done|].
  by destruct (truthy _ && truthy _ && truthy _).
Qed.

Lemma file_step_embed (so : bool) (fieldnames : list pystr) (st : state)
    (kept : list record) (r : record) :
  (so = false → kept_rows st = row_of fieldnames <$> kept) →
  ∃ kept',
    file_step so (lift fieldnames st kept) (embed fieldnames r)
      = Ok (lift fieldnames (step so st (row_of fieldnames r)) kept') ∧
    (so = false →
     kept_rows (step so st (row_of fieldnames r))
       = row_of fieldnames <$> kept') ∧
    (so = false →
     kept' = kept ++
       match derive_key (row_of fieldnames r) with
       | Some k => if decide (k ∈ seen st) then [] else [r]
       | None => []
       end) ∧
    (so = true → kept' = kept).
Proof.
  intros Hk. unfold file_step. rewrite row_key_embed.
  cbn [mbind result_bind]. unfold step.
  destruct (derive_key (row_of fieldnames r)) as [k|]; cbn [lift f_seen seen].
  - destruct (decide (k ∈ seen st)).
    + exists kept. rewrite app_nil_r. repeat split; done.
    + destruct so.
      * exists kept. repeat split; done.
      * exists (kept ++ [r]). unfold lift. cbn.
        rewrite fmap_app. repeat split; try done.
        intros _. rewrite fmap_app, Hk by done. done.
  - exists kept. rewrite app_nil_r. repeat split; done.
Qed.

Lemma file_run_not_short (so : bool) (fieldnames : list pystr)
    (data : list record) :
  Forall (λ r, r = [] ∨ (length fieldnames <= length r)%nat) data →
  ∀ (st : state) (kept : list record),
    (so = false → kept_rows st = row_of fieldnames <$> kept) →
    ∃ kept',
      file_run so fieldnames (lift fieldnames st kept) data
        = Ok (lift fieldnames
                (Dedup.run so st (row_of fieldnames <$> data_records data)) kept') ∧
      (so = false →
       kept_rows (Dedup.run so st (row_of fieldnames <$> data_records data))
         = row_of fieldnames <$> kept') ∧
      (so = true → kept' = kept).
Proof.
  induction 1 as [|r data Hr _ IH]; intros st kept Hk.
  - exists kept. done.
  - unfold data_records. rewrite filter_cons. cbn [file_run].
    destruct r as [|x r].
    + rewrite decide_False by (by intros []).
      apply IH. done.
    + rewrite decide_True by done. cbn [fmap list_fmap].
      destruct Hr as [Hr|Hr]; [done|].
      rewrite read_row_not_short by done.
      destruct (file_step_embed so fieldnames st kept (x :: r) Hk)
        as (kept1 & -> & Hk1 & _ & Hso).
      cbn [mbind result_bind].
      destruct (IH _ kept1 Hk1) as (kept' & -> & Hk' & Hso').
      exists kept'. rewrite run_cons. repeat split; try done.
      intros ->. by rewrite Hso', Hso.
Qed.

Lemma file_run_app (so : bool) (fieldnames : list pystr)
    (d1 d2 : list record) : ∀ st,
  file_run so fieldnames st (d1 ++ d2)
  = st' ← file_run so fieldnames st d1; file_run so fieldnames st' d2.
Proof.
  induction d1 as [|r d1 IH]; intros st; [done|].
  cbn [app file_run]. destruct r as [|x r]; [apply IH|].
  destruct (file_step so st (read_row fieldnames (x :: r))) as [st'|e];
    cbn [mbind result_bind]; [apply IH|done].
Qed.

Lemma file_run_data_records (so : bool) (fieldnames : list pystr)
    (data : list record) : ∀ st,
  file_run so fieldnames st data
  = file_run so fieldnames st (data_records data).
Proof.
  unfold data_records.
  induction data as [|r data IH]; intros st; [done|].
  rewrite filter_cons. destruct r as [|x r].
  - rewrite decide_False by (by intros []). cbn [file_run]. apply IH.
  - rewrite decide_True by done. cbn [file_run].
    destruct (file_step so st (read_row fieldnames (x :: r))) as [st'|e];
      cbn [mbind result_bind]; [apply IH|done].
Qed.

Lemma first_records_snoc (fieldnames : list pystr) (data : list record)
    (r : record) :
  first_records fieldnames (data ++ [r])
  = first_records fieldnames data ++
    match derive_key (row_of fieldnames r) with
    | Some k =>
        if decide (k ∈ seen (Dedup.dedup false (row_of fieldnames <$> data)))
        then [] else [r]
    | None => []
    end.
Proof.
  unfold first_records.
  rewrite fmap_app, length_app, Nat.add_comm. cbn [length Nat.add fmap list_fmap].
  rewrite seq_S, filter_app, omap_app. cbn [Nat.add]. f_equal.
  - apply omap_filter_ext. intros i Hi. apply elem_of_seq in Hi.
    rewrite is_first_occurrence_app_l by (rewrite length_fmap; lia).
    split; [done|]. intros _. by rewrite lookup_app_l by lia.
  - rewrite filter_cons, filter_nil.
    pose proof (is_first_occurrence_last (row_of fieldnames <$> data)
                  (row_of fieldnames r)) as Hlast.
    rewrite length_fmap in Hlast. rewrite Hlast.
    destruct (derive_key (row_of fieldnames r)) as [k|].
    + destruct (decide (k ∈ seen (Dedup.dedup false (row_of fieldnames <$> data)))).
      * rewrite bool_decide_eq_false_2 by tauto.
        by rewrite decide_False by (by intros []).
      * rewrite bool_decide_eq_true_2 by done.
        rewrite decide_True by done. cbn. by rewrite list_lookup_middle.
    + by rewrite decide_False by (by intros []).
Qed.

Lemma file_run_first_records (fieldnames : list pystr) (data : list record) :
  Forall (λ r, r ≠ [] ∧ (length fieldnames <= length r)%nat) data →
  file_run false fieldnames file_init data
  = Ok (lift fieldnames (Dedup.dedup false (row_of fieldnames <$> data))
          (first_records fieldnames data)) ∧
  kept_rows (Dedup.dedup false (row_of fieldnames <$> data))
  = row_of fieldnames <$> first_records fieldnames data.
Proof.
  induction data as [|r data IH] using rev_ind; intros Hd.
  - done.
  - apply Forall_app in Hd as [Hd [[Hr Hl] _]%Forall_cons].
    destruct (IH Hd) as [IH1 IH2].
    rewrite file_run_app, IH1. cbn [mbind result_bind file_run].
    destruct r as [|x r]; [done|].
    rewrite read_row_not_short by done.
    destruct (file_step_embed false fieldnames _ _ (x :: r) (λ _, IH2))
      as (kept' & -> & Hk1 & Hk2 & _).
    cbn [mbind result_bind].
    rewrite fmap_app. cbn [fmap list_fmap]. rewrite dedup_snoc.
    rewrite first_records_snoc, <-Hk2 by done. split; [done|].
    by apply Hk1.
Qed.

Lemma row_of_lookup (fieldnames : list pystr) (r : record) (i : nat)
    (k s : pystr) :
  NoDup fieldnames → (length fieldnames <= length r)%nat →
  fieldnames !! i = Some k → r !! i = Some s →
  row_of fieldnames r !! k = Some s.
Proof.
  intros HN Hl Hk Hs. unfold row_of.
  apply elem_of_list_to_map.
  - rewrite fmap_reverse, fst_zip by done. by rewrite reverse_Permutation.
  - apply elem_of_reverse, list_elem_of_lookup. exists i.
    rewrite lookup_zip_with, Hk, Hs. done.
Qed.

Lemma row_of_dom (fieldnames : list pystr) (r : record) :
  dom (row_of fieldnames r) ⊆ (list_to_set fieldnames : gset (list N)).
Proof.
  unfold row_of. rewrite dom_list_to_map_L. intros k.
  rewrite !elem_of_list_to_set, fmap_reverse, elem_of_reverse.
  intros ((k' & s) & -> & Hin)%list_elem_of_fmap. cbn.
  apply list_elem_of_lookup in Hin as [i Hi].
  rewrite lookup_zip_with in Hi.
  destruct (fieldnames !! i) as [k''|] eqn:Hk; [|done].
  destruct (r !! i); [|done]. injection Hi as -> _.
  eapply list_elem_of_lookup_2, Hk.
Qed.

Lemma write_row_rectangular (fieldnames : list pystr) (r : record) :
  NoDup fieldnames → length r = length fieldnames →
  write_row fieldnames (embed fieldnames r) = Ok r.
Proof.
  intros HN Hl. unfold write_row, embed. cbn [named rest].
  rewrite (proj2 (Nat.ltb_ge _ _)) by lia.
  rewrite bool_decide_eq_true_2 by (rewrite dom_fmap_L; apply row_of_dom).
  rewrite bool_decide_eq_true_2 by done. cbn [andb]. f_equal.
  apply list_eq. intros i. rewrite list_lookup_fmap.
  destruct (fieldnames !! i) as [k|] eqn:Hk; cbn.
  - destruct (lookup_lt_is_Some_2 r i) as [s Hs].
    { apply lookup_lt_Some in Hk. lia. }
    rewrite Hs, lookup_fmap.
    by rewrite (row_of_lookup fieldnames r i k s) by (done || lia).
  - symmetry. apply lookup_ge_None. apply lookup_ge_None in Hk. lia.
Qed.

Lemma write_row_long (fieldnames : list pystr) (r : record) :
  (length fieldnames < length r)%nat →
  write_row fieldnames (embed fieldnames r) = Raise ValueError.
Proof.
  intros Hl. unfold write_row, embed. cbn [named rest].
  rewrite (proj2 (Nat.ltb_lt _ _)) by lia.
  rewrite (bool_decide_eq_false_2 (Some _ = None)) by done.
  by rewrite andb_false_r.
Qed.

Lemma write_rows_rectangular (fieldnames : list pystr) (keep : list record) :
  NoDup fieldnames →
  Forall (λ r, length r = length fieldnames) keep →
  ∀ written,
    write_rows fieldnames written (embed fieldnames <$> keep)
    = (written ++ keep, None).
Proof.
  intros HN. induction 1 as [|r keep Hr _ IH]; intros written.
  - cbn. by rewrite app_nil_r.
  - cbn [fmap list_fmap write_rows].
    rewrite write_row_rectangular by done. rewrite IH.
    by rewrite <-app_assoc.
Qed.

Lemma write_rows_long (fieldnames : list pystr)
    (ok : list record) (bad : record) (more : list record) :
  NoDup fieldnames →
  Forall (λ r, length r = length fieldnames) ok →
  (length fieldnames < length bad)%nat →
  ∀ written,
    write_rows fieldnames written (embed fieldnames <$> (ok ++ bad :: more))
    = (written ++ ok, Some ValueError).
Proof.
  intros HN. induction 1 as [|r ok Hr _ IH]; intros Hbad written.
  - cbn [app fmap list_fmap write_rows].
    rewrite write_row_long by done. by rewrite app_nil_r.
  - cbn [app fmap list_fmap write_rows].
    rewrite write_row_rectangular by done. rewrite IH by done.
    by rewrite <-app_assoc.
Qed.

Lemma first_records_elem_of (fieldnames : list pystr) (data : list record)
    (r : record) :
  r ∈ first_records fieldnames data → r ∈ data.
Proof.
  unfold first_records. intros (i & _ & Hi)%list_elem_of_omap.
  by eapply list_elem_of_lookup_2.
Qed.

Lemma data_records_Forall (P : record → Prop) (data : list record) :
  Forall (λ r, r = [] ∨ P r) data →
  Forall (λ r, r ≠ [] ∧ P r) (data_records data).
Proof.
  intros H. unfold data_records. apply Forall_forall.
  intros r [Hr Hin]%list_elem_of_filter. split; [done|].
  rewrite Forall_forall in H. by destruct (H r Hin).
Qed.

Lemma lift_init (fieldnames : list pystr) :
  file_init = lift fieldnames init [].
Proof. reflexivity. Qed.

Lemma data_records_idemp (data : list record) :
  data_records (data_records data) = data_records data.
Proof.
  unfold data_records. induction data as [|r data IH]; [done|].
  rewrite filter_cons. destruct (decide (r ≠ [])); [|done].
  rewrite filter_cons, decide_True by done. by rewrite IH.
Qed.

Lemma file_run_stats_only (header : list pystr) (data : list record) :
  Forall (λ r, r = [] ∨ (length header <= length r)%nat) data →
  file_run true header file_init data
  = Ok (lift header (Dedup.dedup true (row_of header <$> data_records data))
          []).
Proof.
  intros Hd.
  destruct (file_run_not_short true header data Hd init [])
    as (kept' & Hrun & _ & Hk); [intros _; reflexivity|].
  rewrite (lift_init header), Hrun. by rewrite Hk.
Qed.

Lemma file_run_writing (header : list pystr) (data : list record) :
  Forall (λ r, r = [] ∨ (length header <= length r)%nat) data →
  file_run false header file_init data
  = Ok (lift header (Dedup.dedup false (row_of header <$> data_records data))
          (first_records header (data_records data))).
Proof.
  intros Hd. rewrite file_run_data_records.
  apply file_run_first_records. by apply data_records_Forall.
Qed.

(** *** A record shorter than the header *)

Lemma read_row_missing (fieldnames : list pystr) (r : record) (k : pystr) :
  k ∈ drop (length r) fieldnames →
  named (read_row fieldnames r) !! k = Some None.
Proof.
  intros Hk. unfold read_row. cbn [named].
  rewrite reverse_app, list_to_map_app.
  apply lookup_union_Some_l.
  apply elem_of_list_to_map_1'.
  - intros y Hy. apply elem_of_reverse, list_elem_of_fmap in Hy
      as (k' & Heq & _). by injection Heq as _ <-.
  - apply elem_of_reverse, list_elem_of_fmap. by exists k.
Qed.


Lemma get_strip_missing (fieldnames : list pystr) (r : record) (k : pystr) :
  k ∈ drop (length r) fieldnames →
  get_strip (read_row fieldnames r) k = Raise AttributeError.
Proof.
  intros Hk. unfold get_strip.
  rewrite (read_row_missing fieldnames r k Hk). reflexivity.
Qed.

Lemma row_key_raise (d : dict_row) (e : error) :
  get_strip d (str "data_id") = Raise e → row_key d = Raise e.
Proof. intros H. unfold row_key. rewrite H. reflexivity. Qed.

Lemma file_step_raise (so : bool) (st : file_state) (d : dict_row) (e : error) :
  row_key d = Raise e → file_step so st d = Raise e.
Proof. intros H. unfold file_step. rewrite H. reflexivity. Qed.

(** *** A record whose key derivation ends in the key-less branch *)

Lemma row_key_no_key (d : dict_row) (title lat lon : pystr) :
  get_strip d (str "data_id") = Ok [] →
  get_strip d (str "title") = Ok title →
  get_strip d (str "latitude") = Ok lat →
  get_strip d (str "longitude") = Ok lon →
  title = [] ∨ lat = [] ∨ lon = [] →
  row_key d = Ok None.
Proof.
  intros Hd Ht Hla Hlo Hempty. unfold row_key.
  rewrite Hd, Ht, Hla, Hlo. cbn [mbind result_bind truthy].
  destruct Hempty as [->|[->| ->]]; cbn [truthy andb]; [done| |].
  - by destruct (truthy title).
  - by destruct (truthy title), (truthy lat).
Qed.

Lemma file_step_no_key (so : bool) (st : file_state) (d : dict_row) :
  row_key d = Ok None → file_step so st d = Ok (count_no_key st).
Proof. intros H. unfold file_step. rewrite H. reflexivity. Qed.

Lemma file_step_count_no_key (so : bool) (st : file_state) (d : dict_row) :
  file_step so (count_no_key st) d
  = st' ← file_step so st d; Ok (count_no_key st').
Proof.
  unfold file_step. destruct (row_key d) as [[key|]|e];
    cbn [mbind result_bind]; [|done..].
  cbn [count_no_key f_seen]. by destruct (decide (key ∈ f_seen st)).
Qed.

Lemma file_run_count_no_key (so : bool) (fieldnames : list pystr)
    (data : list record) : ∀ st,
  file_run so fieldnames (count_no_key st) data
  = st' ← file_run so fieldnames st data; Ok (count_no_key st').
Proof.
  induction data as [|r data IH]; intros st; [done|].
  cbn [file_run]. destruct r as [|x r]; [apply IH|].
  rewrite file_step_count_no_key.
  destruct (file_step so st (read_row fieldnames (x :: r))) as [st'|e];
    cbn [mbind result_bind]; [apply IH|done].
Qed.

Lemma file_run_no_key (so : bool) (fieldnames : list pystr)
    (pre post : list record) (r : record) (st : file_state) :
  r ≠ [] → row_key (read_row fieldnames r) = Ok None →
  file_run so fieldnames st (pre ++ r :: post)
  = st' ← file_run so fieldnames st (pre ++ post); Ok (count_no_key st').
Proof.
  intros Hr Hk. rewrite !file_run_app.
  destruct (file_run so fieldnames st pre) as [st1|e];
    cbn [mbind result_bind]; [|done].
  destruct r as [|x r]; [done|]. cbn [file_run].
  rewrite (file_step_no_key so st1 _ Hk). cbn [mbind result_bind].
  apply file_run_count_no_key.
Qed.

(** *** How a run ends and what it writes *)

Lemma dedup_ends (records : list record) (output : option pystr) (so : bool) :
  ends (DedupFile.dedup records output so) = Exits 1 ↔
  records = [] ∨ head records = Some [].
Proof.
  unfold DedupFile.dedup. destruct records as [|[|k ks] data].
  - cbn. split; [by left|done].
  - cbn. split; [by right|done].
  - destruct (file_run so (k :: ks) file_init data) as [st|e].
    + destruct so, output as [[|c path]|]; cbn [ends];
        try (split; [done|by intros [|]]).
      destruct (write_rows _ _ _) as [written [e|]]; cbn [ends];
        (split; [done|by intros [|]]).
    + cbn [ends]. split; [done|by intros [|]].
Qed.

Lemma dedup_file_written (records : list record) (output : option pystr)
    (so : bool) (path : pystr) (written : list record) :
  file (DedupFile.dedup records output so) = Some (path, written) →
  so = false ∧ output = Some path ∧ path ≠ [] ∧
  ∃ header, head records = Some header ∧ head written = Some header.
Proof.
  unfold DedupFile.dedup. destruct records as [|[|k ks] data]; [done..|].
  destruct (file_run so (k :: ks) file_init data) as [st|e]; [|done].
  destruct so, output as [[|c p]|]; try done.
  assert (Hw : ∀ ds w, ∃ w', (write_rows (k :: ks) w ds).1 = w ++ w').
  { induction ds as [|d ds IH]; intros w.
    - exists []. by rewrite app_nil_r.
    - cbn [write_rows]. destruct (write_row (k :: ks) d) as [r|e].
      + destruct (IH (w ++ [r])) as [w' ->]. exists (r :: w').
        by rewrite <-app_assoc.
      + exists []. by rewrite app_nil_r. }
  destruct (Hw (f_rows st) [k :: ks]) as [w' Hw'].
  destruct (write_rows (k :: ks) [k :: ks] (f_rows st)) as [w [e|]];
    cbn [fst] in Hw'; subst w; cbn [file]; intros [= <- <-];
    (repeat split; [done|by eexists]).
Qed.

Lemma dedup_returns_written (records : list record) (c : N) (path : pystr) :
  ends (DedupFile.dedup records (Some (c :: path)) false) = Returns →
  ∃ written,
    file (DedupFile.dedup records (Some (c :: path)) false)
      = Some (c :: path, written).
Proof.
  unfold DedupFile.dedup. destruct records as [|[|k ks] data]; [done..|].
  destruct (file_run false (k :: ks) file_init data) as [st|e]; [|done].
  destruct (write_rows _ _ _) as [written [e|]]; [done|].
  intros _. by eexists.
Qed.

(** ** Properties of the deduplicator on the records of a file *)

(** X20. For a file whose header is not blank and has no repeated name and
    whose records are blank or have as many fields as the header, [dedup]
    returns normally. The rows it processes are the records that are not
    blank (blank records are not counted), the statistics it prints are
    those of the pass over these rows, and when it writes (an output path
    is given and [stats_only] is false) the output file holds the header
    followed by the first record of each key, field by field as in the
    input and in input order; otherwise no file is opened. *)
Theorem X20_dedup_file_rectangular (header : list pystr)
    (data : list record) (output_path : option pystr) (so : bool) :
  header ≠ [] → NoDup header →
  Forall (λ r, r = [] ∨ length r = length header) data →
  let rows := row_of header <$> data_records data in
  let st := Dedup.dedup so rows in
  let stats :=
    stats_lines (rows_total st) (rows_kept st) (rows_dup st) (rows_no_key st) in
  DedupFile.dedup (header :: data) output_path so =
    match so, output_path with
    | false, Some ((_ :: _) as path) =>
        Run (WrittenTo path :: stats) []
            (Some (path, header :: first_records header (data_records data)))
            Returns
    | _, _ => Run stats [] None Returns
    end.
Proof.
  intros Hne HN Hd. cbn zeta.
  assert (Hd' : Forall (λ r, r = [] ∨ (length header <= length r)%nat) data).
  { eapply Forall_impl; [exact Hd|]. intros r [->| ->]; [by left|by right]. }
  pose proof (file_run_writing header data Hd') as Hw.
  pose proof (file_run_stats_only header data Hd') as Hs.
  unfold DedupFile.dedup. destruct header as [|k ks]; [by destruct Hne|].
  destruct so.
  - rewrite Hs. by destruct output_path as [[|]|].
  - rewrite Hw. cbn [lift f_total f_kept f_dup f_no_key f_rows].
    destruct output_path as [[|c path]|]; [reflexivity| |reflexivity].
    rewrite write_rows_rectangular; [reflexivity|done|].
    apply Forall_forall. intros r Hr%first_records_elem_of.
    apply list_elem_of_filter in Hr as [Hr Hin].
    rewrite Forall_forall in Hd. by destruct (Hd r Hin).
Qed.

Lemma X20_dedup_file_rectangular_witness :
  DedupFile.dedup
    ([str "data_id"; str "title"]
     :: [[str "D1"; str "A"]; []; [str "D1"; str "B"]; [str "D2"; str "C"]])
    (Some (str "out.csv")) false
  = Run (WrittenTo (str "out.csv")
         :: stats_lines
              (rows_total (Dedup.dedup false
                 (row_of [str "data_id"; str "title"] <$>
                  data_records [[str "D1"; str "A"]; [];
                                [str "D1"; str "B"]; [str "D2"; str "C"]])))
              (rows_kept (Dedup.dedup false
                 (row_of [str "data_id"; str "title"] <$>
                  data_records [[str "D1"; str "A"]; [];
                                [str "D1"; str "B"]; [str "D2"; str "C"]])))
              (rows_dup (Dedup.dedup false
                 (row_of [str "data_id"; str "title"] <$>
                  data_records [[str "D1"; str "A"]; [];
                                [str "D1"; str "B"]; [str "D2"; str "C"]])))
              (rows_no_key (Dedup.dedup false
                 (row_of [str "data_id"; str "title"] <$>
                  data_records [[str "D1"; str "A"]; [];
                                [str "D1"; str "B"]; [str "D2"; str "C"]]))))
        []
        (Some (str "out.csv",
               [str "data_id"; str "title"]
               :: first_records [str "data_id"; str "title"]
                    (data_records [[str "D1"; str "A"]; [];
                                   [str "D1"; str "B"]; [str "D2"; str "C"]])))
        Returns.
Proof.
  apply (X20_dedup_file_rectangular [str "data_id"; str "title"]
           [[str "D1"; str "A"]; []; [str "D1"; str "B"]; [str "D2"; str "C"]]
           (Some (str "out.csv")) false).
  - discriminate.
  - apply (bool_decide_unpack _). vm_compute. exact I.
  - repeat (apply Forall_cons; split); try apply Forall_nil;
      first [exact I | by left | by right].
Defined.

(** X21. A record that is not blank and so short that the column
    [data_id] lies beyond its last field, read after records that are
    blank or not shorter than the header, ends [dedup] with
    [AttributeError]: the reader binds the missing fields to [None], and
    [None] has no [strip]. Nothing is printed and no file is opened, in
    either mode. *)
Theorem X21_dedup_file_short_record (header : list pystr)
    (pre post : list record) (r : record)
    (output_path : option pystr) (so : bool) :
  header ≠ [] →
  Forall (λ r, r = [] ∨ (length header <= length r)%nat) pre →
  r ≠ [] → str "data_id" ∈ drop (length r) header →
  DedupFile.dedup (header :: pre ++ r :: post) output_path so
  = Run [] [] None (Fails AttributeError).
Proof.
  intros Hne Hpre Hr Hk.
  assert (Hrun : file_run so header file_init (pre ++ r :: post)
                 = Raise AttributeError).
  { rewrite file_run_app.
    destruct (file_run_not_short so header pre Hpre init [])
      as (kept' & Hrun & _); [intros _; reflexivity|].
    rewrite (lift_init header), Hrun. cbn [mbind result_bind file_run].
    destruct r as [|x r]; [by destruct Hr|].
    rewrite (file_step_raise so _ _ AttributeError); [reflexivity|].
    apply row_key_raise, get_strip_missing, Hk. }
  unfold DedupFile.dedup. destruct header as [|k ks]; [by destruct Hne|].
  rewrite Hrun. reflexivity.
Qed.

Lemma X21_dedup_file_short_record_witness :
  DedupFile.dedup
    ([str "title"; str "data_id"]
     :: [[str "A"; str "D1"]] ++ [str "B"] :: [[str "C"; str "D3"]])
    (Some (str "out.csv")) false
  = Run [] [] None (Fails AttributeError).
Proof.
  apply (X21_dedup_file_short_record [str "title"; str "data_id"]
           [[str "A"; str "D1"]] [[str "C"; str "D3"]] [str "B"]
           (Some (str "out.csv")) false).
  - discriminate.
  - repeat (apply Forall_cons; split); try apply Forall_nil;
      first [exact I | right; cbn; lia].
  - discriminate.
  - cbn. apply list_elem_of_singleton. reflexivity.
Defined.

(** X22. When the records are blank or not shorter than the header and a
    record that is kept has more fields than the header, the writing mode
    ends with [ValueError] (the writer refuses the row, which holds the
    surplus fields under a key that is no field name): the output file
    has been opened and holds the header and the kept records before that
    one, and nothing is printed. Statistics-only mode returns normally on
    the same input. *)
Theorem X22_dedup_file_long_record (header : list pystr) (data : list record)
    (ok more : list record) (bad : record) (c : N) (path : pystr) :
  header ≠ [] → NoDup header →
  Forall (λ r, r = [] ∨ (length header <= length r)%nat) data →
  first_records header (data_records data) = ok ++ bad :: more →
  Forall (λ r, length r = length header) ok →
  (length header < length bad)%nat →
  DedupFile.dedup (header :: data) (Some (c :: path)) false
    = Run [] [] (Some (c :: path, header :: ok)) (Fails ValueError) ∧
  ends (DedupFile.dedup (header :: data) (Some (c :: path)) true) = Returns.
Proof.
  intros Hne HN Hd Hfirst Hok Hbad.
  pose proof (file_run_writing header data Hd) as Hw.
  pose proof (file_run_stats_only header data Hd) as Hs.
  unfold DedupFile.dedup. destruct header as [|k ks]; [by destruct Hne|].
  rewrite Hw, Hs. cbn [lift f_total f_kept f_dup f_no_key f_rows].
  rewrite Hfirst, (write_rows_long (k :: ks) ok bad more HN Hok Hbad).
  split; reflexivity.
Qed.

Lemma X22_dedup_file_long_record_witness :
  DedupFile.dedup
    ([str "data_id"; str "title"]
     :: [[str "D1"; str "A"]; [str "D2"; str "B"; str "surplus"]])
    (Some (46 :: str "csv")) false
  = Run [] []
        (Some (46 :: str "csv",
               [str "data_id"; str "title"] :: [[str "D1"; str "A"]]))
        (Fails ValueError) ∧
  ends (DedupFile.dedup
          ([str "data_id"; str "title"]
           :: [[str "D1"; str "A"]; [str "D2"; str "B"; str "surplus"]])
          (Some (46 :: str "csv")) true) = Returns.
Proof.
  apply (X22_dedup_file_long_record [str "data_id"; str "title"]
           [[str "D1"; str "A"]; [str "D2"; str "B"; str "surplus"]]
           [[str "D1"; str "A"]] [] [str "D2"; str "B"; str "surplus"]
           46 (str "csv")).
  - discriminate.
  - apply (bool_decide_unpack _). vm_compute. exact I.
  - repeat (apply Forall_cons; split); try apply Forall_nil;
      first [exact I | right; cbn; lia].
  - vm_compute. reflexivity.
  - repeat (apply Forall_cons; split); try apply Forall_nil;
      first [exact I | reflexivity].
  - cbn. lia.
Defined.

(** X23. [main] ends with exit status 1 exactly when no output path is
    given (none, or the empty text) without [--stats-only], or the input
    has no header (no record, or a blank first record); the first case
    prints the usage error and reads nothing, the second prints the
    header error. A file is opened only without [--stats-only], at the
    given path, which is not empty, and its first record is the header;
    and a run without [--stats-only] that returns has written its file. *)
Theorem X23_main_exit_and_write (records : list record)
    (output : option pystr) (so : bool) :
  let no_output := bool_decide (output = None ∨ output = Some []) in
  let no_header := bool_decide (records = [] ∨ head records = Some []) in
  (ends (DedupFile.main records output so) = Exits 1 ↔
   (no_output = true ∧ so = false) ∨ no_header = true) ∧
  (no_output = true → so = false →
   DedupFile.main records output so = Run [] [NoOutputPath] None (Exits 1)) ∧
  (no_header = true → no_output = false ∨ so = true →
   DedupFile.main records output so = Run [] [NoHeaderRow] None (Exits 1)) ∧
  (∀ path written, file (DedupFile.main records output so) = Some (path, written) →
     so = false ∧ output = Some path ∧ path ≠ [] ∧
     ∃ header, head records = Some header ∧ head written = Some header) ∧
  (ends (DedupFile.main records output so) = Returns → so = false →
   ∃ path written, file (DedupFile.main records output so) = Some (path, written)).
Proof.
  cbn zeta.
  assert (Hmain : DedupFile.main records output so =
    if bool_decide (output = None ∨ output = Some []) && negb so
    then Run [] [NoOutputPath] None (Exits 1)
    else DedupFile.dedup records output so).
  { unfold DedupFile.main. destruct output as [[|c path]|], so;
      rewrite ?andb_false_r; reflexivity. }
  assert (Hhead : bool_decide (records = [] ∨ head records = Some []) = true
                  → DedupFile.dedup records output so
                    = Run [] [NoHeaderRow] None (Exits 1)).
  { intros H%bool_decide_eq_true. unfold DedupFile.dedup.
    destruct records as [|[|k ks] data]; try done. by destruct H. }
  rewrite Hmain.
  destruct (bool_decide (output = None ∨ output = Some [])) eqn:Ho;
    destruct so; cbn [andb negb].
  - split; [|split; [|split; [|split]]].
    + rewrite dedup_ends, bool_decide_eq_true. split; [by right|].
      by intros [[_ ?]|].
    + done.
    + intros H _. by apply Hhead.
    + intros path written H. by apply dedup_file_written in H as [? _].
    + done.
  - split; [|split; [|split; [|split]]]; try done.
    + split; [by left|done].
    + by intros _ [|].
  - split; [|split; [|split; [|split]]].
    + rewrite dedup_ends, bool_decide_eq_true. split; [by right|].
      by intros [[? _]|].
    + done.
    + intros H _. by apply Hhead.
    + intros path written H. by apply dedup_file_written in H as [? _].
    + done.
  - split; [|split; [|split; [|split]]].
    + rewrite dedup_ends, bool_decide_eq_true. split; [by right|].
      by intros [[? _]|].
    + done.
    + intros H _. by apply Hhead.
    + intros path written H. by apply dedup_file_written in H.
    + intros H _. destruct output as [[|c path]|].
      * apply bool_decide_eq_false in Ho. destruct Ho. by right.
      * destruct (dedup_returns_written records c path H) as [w Hw].
        by eexists _, _.
      * apply bool_decide_eq_false in Ho. destruct Ho. by left.
Qed.

(** C9. The record [,X,] under the header
    [data_id,title,longitude,latitude] meets the premise of the claim: its
    [data_id] and its [longitude] are empty. It is one field short, so the
    reader binds [latitude] to [None]; the default of
    [row.get("latitude", "")] is not used for a key that is bound, [strip]
    is called on [None], and the key derivation raises [AttributeError]
    (line 46). The record is not dropped and counted: [dedup] ends with
    the exception in either mode, whatever records follow, with no
    statistics printed and no output file opened. *)
Theorem C9_short_record_raises (post : list record)
    (output_path : option pystr) (so : bool) :
  get_strip (read_row [str "data_id"; str "title"; str "longitude";
                       str "latitude"] [str ""; str "X"; str ""])
            (str "data_id") = Ok [] ∧
  get_strip (read_row [str "data_id"; str "title"; str "longitude";
                       str "latitude"] [str ""; str "X"; str ""])
            (str "longitude") = Ok [] ∧
  get_strip (read_row [str "data_id"; str "title"; str "longitude";
                       str "latitude"] [str ""; str "X"; str ""])
            (str "latitude") = Raise AttributeError ∧
  row_key (read_row [str "data_id"; str "title"; str "longitude";
                     str "latitude"] [str ""; str "X"; str ""])
    = Raise AttributeError ∧
  DedupFile.dedup
    ([str "data_id"; str "title"; str "longitude"; str "latitude"]
     :: [str ""; str "X"; str ""] :: post) output_path so
  = Run [] [] None (Fails AttributeError).
Proof.
  assert (Hk : row_key (read_row [str "data_id"; str "title"; str "longitude";
                                  str "latitude"] [str ""; str "X"; str ""])
               = Raise AttributeError) by (vm_compute; reflexivity).
  do 3 (split; [vm_compute; reflexivity|]). split; [exact Hk|].
  unfold DedupFile.dedup. cbn [file_run].
  rewrite (file_step_raise so file_init _ AttributeError Hk). reflexivity.
Qed.

(** X24. A record that is not blank, whose four key fields are texts
    (none lies beyond the end of a short record), whose trimmed [data_id]
    is empty and one of whose trimmed [title], [latitude], [longitude] is
    empty, is dropped without error, wherever it stands among the records:
    the run ends as it ends without the record, with the same output file
    and the same error stream; the loop ends in the state it reaches
    without the record, with the total and the key-less counter one
    higher (so the Seen-Set, the kept rows and the other counters are
    those of the other records, none of which becomes a duplicate because
    of it), or with the same exception; a run that returns prints the
    statistics of that state. *)
Theorem X24_no_key_record_dropped (header : list pystr)
    (pre post : list record) (r : record) (title lat lon : pystr)
    (output_path : option pystr) (so : bool) :
  r ≠ [] →
  get_strip (read_row header r) (str "data_id") = Ok [] →
  get_strip (read_row header r) (str "title") = Ok title →
  get_strip (read_row header r) (str "latitude") = Ok lat →
  get_strip (read_row header r) (str "longitude") = Ok lon →
  title = [] ∨ lat = [] ∨ lon = [] →
  let with_r := DedupFile.dedup (header :: pre ++ r :: post) output_path so in
  let without := DedupFile.dedup (header :: pre ++ post) output_path so in
  ends with_r = ends without ∧
  file with_r = file without ∧
  stderr with_r = stderr without ∧
  (∀ e, file_run so header file_init (pre ++ post) = Raise e →
        file_run so header file_init (pre ++ r :: post) = Raise e) ∧
  ∀ st, file_run so header file_init (pre ++ post) = Ok st →
    file_run so header file_init (pre ++ r :: post) = Ok (count_no_key st) ∧
    (ends without = Returns →
     stdout with_r =
       match so, output_path with
       | false, Some ((_ :: _) as path) => [WrittenTo path]
       | _, _ => []
       end
       ++ stats_lines (S (f_total st)) (f_kept st) (f_dup st)
                      (S (f_no_key st))).
Proof.
  intros Hr Hd Ht Hla Hlo Hempty.
  pose proof (row_key_no_key _ _ _ _ Hd Ht Hla Hlo Hempty) as Hk.
  pose proof (file_run_no_key so header pre post r file_init Hr Hk) as Hrun.
  cbn zeta. unfold DedupFile.dedup. rewrite Hrun.
  destruct (file_run so header file_init (pre ++ post)) as [st|e];
    cbn [mbind result_bind].
  - cbn [count_no_key f_total f_kept f_dup f_no_key f_rows].
    assert (Hst : ∀ st0 : file_state, Ok st = Ok st0 → st0 = st)
      by (by intros st0 [= ->]).
    destruct header as [|k ks].
    { do 4 (split; [done|]). intros st0 H0. apply Hst in H0 as ->. done. }
    destruct so, output_path as [[|c path]|]; cbn [ends file stderr stdout];
      try (do 4 (split; [done|]); intros st0 H0; apply Hst in H0 as ->;
           done).
    destruct (write_rows (k :: ks) [k :: ks] (f_rows st)) as [w [e|]];
      cbn [ends file stderr stdout];
      (do 4 (split; [done|]); intros st0 H0; apply Hst in H0 as ->; done).
  - destruct header as [|k ks]; by do 4 (split; [done|]).
Qed.

Lemma X24_no_key_record_dropped_witness :
  let header := [str "data_id"; str "title"; str "latitude"; str "longitude"] in
  let pre := [[str "D1"; str "A"; str "1.3"; str "103.8"]] in
  let post := [[str "D1"; str "B"; str "1.3"; str "103.8"]] in
  let r := [str " "; str "X"; str ""; str "103.8"] in
  let with_r :=
    DedupFile.dedup (header :: pre ++ r :: post) (Some (str "out.csv")) false in
  let without :=
    DedupFile.dedup (header :: pre ++ post) (Some (str "out.csv")) false in
  ends with_r = ends without ∧
  file with_r = file without ∧
  stderr with_r = stderr without ∧
  (∀ e, file_run false header file_init (pre ++ post) = Raise e →
        file_run false header file_init (pre ++ r :: post) = Raise e) ∧
  ∀ st, file_run false header file_init (pre ++ post) = Ok st →
    file_run false header file_init (pre ++ r :: post) = Ok (count_no_key st) ∧
    (ends without = Returns →
     stdout with_r =
       [WrittenTo (str "out.csv")]
       ++ stats_lines (S (f_total st)) (f_kept st) (f_dup st)
                      (S (f_no_key st))).
Proof.
  apply (X24_no_key_record_dropped
           [str "data_id"; str "title"; str "latitude"; str "longitude"]
           [[str "D1"; str "A"; str "1.3"; str "103.8"]]
           [[str "D1"; str "B"; str "1.3"; str "103.8"]]
           [str " "; str "X"; str ""; str "103.8"]
           (str "X") [] (str "103.8") (Some (str "out.csv")) false).
  - discriminate.
  - vm_compute. reflexivity.
  - vm_compute. reflexivity.
  - vm_compute. reflexivity.
  - vm_compute. reflexivity.
  - right. left. reflexivity.
Defined.

End DedupFileFacts.
